(** * The Janus Engine: lens catalog, persona namer, media uploader and
      analysis/synthesis pipelines

    A shallow embedding of the orchestration core of the Janus Engine
    (The-Janus-Engine-v7.2.py, with the direct-mode generator and the persona
    namer of TheJanusEngineV5.py and MasterLensV3.py), and the properties of
    it that the design document states.

    Python values are modelled as follows.
    - [str] is [string]; [sorted] on strings is the code-point order, which
      on UTF-8 bytes is [String.le].
    - a [dict] iterated with [.items()] is an association list in insertion
      order; a [set] is a [gset]; a [dict] that is only read by key is a [gmap].
    - [None] is [None]; truthiness ([if x:]) is written out ([truthy]).
    - calls to the remote API, the clock and the display layer are steps of a
      state-and-exception monad over a [World] that records every call. *)

From Stdlib Require Import ZArith Lia Ascii.
From stdpp Require Import base option list strings gmap sorting.

(** ** Python strings *)

Module Py.

(** [bool(s)] for a string. *)
Definition truthy (s : string) : bool :=
  match s with "" => false | _ => true end.

(** [bool(x)] for a value that is [None] or a string. *)
Definition truthy_opt (x : option string) : bool :=
  match x with None => false | Some s => truthy s end.

(** [sorted(l)] for a list of strings. *)
Definition sorted (l : list string) : list string := merge_sort String.le l.

(** [sorted(list(set(l)))]: the iteration order of the set is not specified,
    and neither is the one of [elements]; sorting erases it. *)
Definition sorted_set (l : list string) : list string :=
  sorted (elements (list_to_set l : gset string)).

(** [sub in s]. *)
Fixpoint contains (sub s : string) : bool :=
  String.prefix sub s ||
  match s with
  | "" => false
  | String _ s' => contains sub s'
  end.

(** [s.split(sep)] for a one-character separator: never empty. *)
Fixpoint split (sep : ascii) (s : string) : list string :=
  match s with
  | "" => [""]
  | String c s' =>
      let rest := split sep s' in
      if Ascii.eqb c sep then "" :: rest
      else match rest with
           | [] => [String c ""]
           | w :: ws => String c w :: ws
           end
  end.

(** [s.replace(old, new)] for a non-empty [old]: occurrences are replaced
    from the left and do not overlap. [skip] counts the characters of a
    replaced occurrence that are still to be passed over. *)
Fixpoint replace_from (old new : string) (skip : nat) (s : string) : string :=
  match s with
  | "" => ""
  | String c s' =>
      match skip with
      | S k => replace_from old new k s'
      | O =>
          if String.prefix old s
          then new +:+ replace_from old new (String.length old - 1) s'
          else String c (replace_from old new 0 s')
      end
  end.

Definition replace (old new s : string) : string := replace_from old new 0 s.

(** [s.strip()], for the ASCII white space. *)
Fixpoint lstrip (s : string) : string :=
  match s with
  | "" => ""
  | String c s' => if Ascii.is_space c then lstrip s' else s
  end.

Definition strip (s : string) : string :=
  String.rev (lstrip (String.rev (lstrip s))).

(** [s.endswith(suffix)]. *)
Definition endswith (s suffix : string) : bool :=
  String.prefix (String.rev suffix) (String.rev s).

End Py.

(** ** Lens catalog (v7.2) *)

(** Category name to the lens names it holds, in insertion order. *)
Abbreviation Hierarchy := (list (string * list string)).

Definition LENSES_HIERARCHY : Hierarchy := [
  ("Structural & Formalist",
     ["Formalist"; "Structuralism"; "Narratology"; "Semiotics";
      "Computational Analysis/Digital Humanities"]);
  ("Psychological",
     ["Jungian"; "Freudian"; "Evolutionary Psychology"; "Behaviorism"; "Lacanian"]);
  ("Philosophical",
     ["Existentialist"; "Taoist"; "Phenomenological"; "Stoicism"; "Platonism";
      "Nietzschean"; "Absurdism"]);
  ("Socio-Political", ["Marxist"; "Feminist"; "Post-Colonial"; "Queer Theory"]);
  ("Art History & Aesthetics",
     ["Aestheticism"; "Cubism"; "Surrealism"; "Iconography/Iconology";
      "Formalist Art Criticism"; "Impressionism"]);
  ("Communication & Media Theory",
     ["Rhetorical Analysis"; "Media Ecology (McLuhan)"; "Agenda-Setting Theory";
      "Uses and Gratifications Theory"]);
  ("Ethical Frameworks",
     ["Utilitarianism"; "Virtue Ethics"; "Deontology (Kantian)"; "Bioethics"]);
  ("Scientific & STEM Perspectives",
     ["Cognitive Science"; "Systems Theory (Complexity)"; "Ecocriticism";
      "Astrophysics/Cosmology"; "Materials Science"; "Epidemiology"]);
  ("Economics & Systems",
     ["Game Theory"; "Behavioral Economics"; "Supply Chain Analysis"]);
  ("Law & Governance", ["Legal Positivism"; "Critical Legal Studies"]);
  ("Spiritual & Esoteric",
     ["Animism"; "Bhakti Yoga (Hindu Devotion)"; "Buddhist Philosophy (General)";
      "Christian Mysticism"; "Christian Theology"; "Gnosticism"; "Hermeticism";
      "Kabbalah (Jewish Mysticism)"; "Mysticism (General)";
      "Quranic Studies (Islam)"; "Rabbinic Thought (Judaism)"; "Shinto";
      "Sufism (Islamic Mysticism)"; "Tibetan Buddhism";
      "Vedanta (Hindu Philosophy)"; "Western Esotericism"; "Zen Buddhism"]);
  ("Historical & Contextual",
     ["Biographical"; "Historical Context"; "Reader-Response"])
].

(** The list built by the loop of [flatten_lenses]: every leaf of the
    catalog, one entry per occurrence, in iteration order. *)
Definition extend_all (lenses_hierarchy : Hierarchy) : list string :=
  foldl (fun flat_lenses '(category, lens_list) => flat_lenses ++ lens_list)
        [] lenses_hierarchy.

Definition flatten_lenses (lenses_hierarchy : Hierarchy) : list string :=
  let flat_lenses := extend_all lenses_hierarchy in
  Py.sorted_set flat_lenses.

(** [hierarchy[category]] after the test [category in hierarchy]. *)
Fixpoint hierarchy_get (hierarchy : Hierarchy) (category : string)
  : option (list string) :=
  match hierarchy with
  | [] => None
  | (c, lens_list) :: rest =>
      if decide (c = category) then Some lens_list
      else hierarchy_get rest category
  end.

Definition get_filtered_lenses (hierarchy : Hierarchy)
    (selected_categories : list string) : list string :=
  let filtered_lenses :=
    foldl (fun acc category =>
             match hierarchy_get hierarchy category with
             | Some lens_list => acc ++ lens_list
             | None => acc
             end) [] selected_categories in
  Py.sorted_set filtered_lenses.

(** The literal [mapping] of [create_functional_mapping]. *)
Definition functional_tiers : Hierarchy := [
  ("Contextual (What, Who, Where, When)",
     ["Biographical"; "Historical Context"; "Reader-Response"; "Epidemiology";
      "Supply Chain Analysis"; "Astrophysics/Cosmology";
      "Quranic Studies (Islam)"; "Rabbinic Thought (Judaism)";
      "Iconography/Iconology"; "Agenda-Setting Theory"]);
  ("Mechanical (How)",
     ["Formalist"; "Structuralism"; "Narratology"; "Semiotics";
      "Systems Theory (Complexity)"; "Cognitive Science"; "Behaviorism";
      "Game Theory"; "Behavioral Economics";
      "Computational Analysis/Digital Humanities"; "Materials Science";
      "Legal Positivism"; "Cubism"; "Formalist Art Criticism"; "Impressionism";
      "Rhetorical Analysis"]);
  ("Interpretive (Why)",
     ["Jungian"; "Freudian"; "Lacanian"; "Evolutionary Psychology";
      "Existentialist"; "Taoist"; "Phenomenological"; "Stoicism"; "Platonism";
      "Nietzschean"; "Absurdism"; "Marxist"; "Feminist"; "Post-Colonial";
      "Queer Theory"; "Utilitarianism"; "Virtue Ethics"; "Deontology (Kantian)";
      "Bioethics"; "Ecocriticism"; "Critical Legal Studies"; "Animism";
      "Bhakti Yoga (Hindu Devotion)"; "Buddhist Philosophy (General)";
      "Christian Mysticism"; "Christian Theology"; "Gnosticism"; "Hermeticism";
      "Kabbalah (Jewish Mysticism)"; "Mysticism (General)"; "Shinto";
      "Sufism (Islamic Mysticism)"; "Tibetan Buddhism";
      "Vedanta (Hindu Philosophy)"; "Western Esotericism"; "Zen Buddhism";
      "Aestheticism"; "Surrealism"; "Media Ecology (McLuhan)";
      "Uses and Gratifications Theory"])
].

(** A record handed to [logging.warning]. *)
Inductive IntegrityLog :=
| DataIntegrityWarning (missing : gset string).

(** The body of [create_functional_mapping] for a given tier literal: the
    records logged, and the mapping returned. *)
Definition create_functional_mapping_from (mapping lenses_hierarchy : Hierarchy)
  : list IntegrityLog * Hierarchy :=
  let all_hierarchical : gset string := list_to_set (flatten_lenses lenses_hierarchy) in
  let all_functional : gset string := list_to_set (flatten_lenses mapping) in
  let missing := all_hierarchical ∖ all_functional in
  let logged :=
    if decide (missing = ∅) then [] else [DataIntegrityWarning missing] in
  (logged, (fun '(key, lens_list) => (key, Py.sorted lens_list)) <$> mapping).

Definition create_functional_mapping (lenses_hierarchy : Hierarchy)
  : list IntegrityLog * Hierarchy :=
  create_functional_mapping_from functional_tiers lenses_hierarchy.

Definition LENSES_FUNCTIONAL : Hierarchy := (create_functional_mapping LENSES_HIERARCHY).2.
Definition SORTED_LENS_NAMES : list string := flatten_lenses LENSES_HIERARCHY.

(** ** Lens catalog of TheJanusEngineV5.py and MasterLensV3.py *)

(** There a category holds a prompt of its own or sub-lenses with theirs,
    and the flattened catalog is a dict from lens key to prompt. *)
Module Nested.

Record Details := mkDetails {
  description : option string;
  prompt : option string;
  sub_lenses : option (list (string * string))
}.

(** [f"{main_lens} ({sub_lens})"]. *)
Definition composite (main_lens sub_lens : string) : string :=
  main_lens +:+ " (" +:+ sub_lens +:+ ")".

Section Flatten.

(** [textwrap.dedent]. *)
Variable dedent : string → string.

Definition flatten_lenses (lenses : list (string * Details)) : gmap string string :=
  foldl (fun flat_lenses '(main_lens, details) =>
           match sub_lenses details with
           | Some subs =>
               foldl (fun flat_lenses '(sub_lens, prompt) =>
                        <[composite main_lens sub_lens := Py.strip (dedent prompt)]>
                          flat_lenses)
                     flat_lenses subs
           | None =>
               match prompt details with
               | Some prompt => <[main_lens := Py.strip (dedent prompt)]> flat_lenses
               | None => flat_lenses
               end
           end)
        ∅ lenses.

(** [sorted(list(FLATTENED_LENSES.keys()))]. *)
Definition sorted_lens_names (lenses : list (string * Details)) : list string :=
  Py.sorted (elements (dom (flatten_lenses lenses))).

End Flatten.

(** The keys of the leaves of a catalog, one per leaf. *)
Definition leaf_keys (lenses : list (string * Details)) : list string :=
  '(main_lens, details) ← lenses;
  match sub_lenses details with
  | Some subs => (λ '(sub_lens, _), composite main_lens sub_lens) <$> subs
  | None => match prompt details with
            | Some _ => [main_lens]
            | None => []
            end
  end.

End Nested.

(** ** Persona namer *)

(** [create_persona_name] of TheJanusEngineV5.py. The subscript [[1]] of the
    list returned by [split] is the one step that could raise. *)
Module V5.

Definition core_term (lens_name : string) : option string :=
  if Py.contains "(" lens_name
  then Py.replace ")" "" <$> (Py.split "("%char lens_name !! 1%nat)
  else Some lens_name.

Definition persona_title (name : string) : string :=
  if decide (name = "Structural & Formalist") then "The Formalist"
  else if decide (name = "Historical & Biographical") then "The Historian"
  else if decide (name = "Comparative" ∨ name = "General") then "The Comparativist"
  else if decide (name ∈ ["Jungian"; "Freudian"]) then "The " +:+ name +:+ " Analyst"
  else if decide (name = "Evolutionary Psychology") then "The Evolutionary Psychologist"
  else if decide (name = "Behaviorism") then "The Behaviorist"
  else if decide (name ∈ ["Marxist"; "Feminist"]) then "The " +:+ name +:+ " Critic"
  else if decide (name ∈ ["Existentialist"; "Taoist"; "Phenomenological"])
    then "The " +:+ name +:+ " Philosopher"
  else if decide (name = "Stoicism") then "The Stoic Philosopher"
  else if decide (name = "Platonism") then "The Platonic Philosopher"
  else if decide (name ∈ ["Utilitarianism"; "Virtue Ethics"])
    then "The " +:+ Py.replace "ism" "" name +:+ " Ethicist"
  else if decide (name = "Cognitive Science") then "The Cognitive Scientist"
  else if decide (name = "Systems Theory") then "The Systems Theorist"
  else if decide (name = "Ecocriticism") then "The Ecocritic"
  else if decide (name = "Buddhist") then "The Buddhist Scholar"
  else if decide (name = "Western Esotericism") then "The Esotericist"
  else if Py.contains "Theory" name || bool_decide (name = "Post-Colonial")
    then "The " +:+ Py.replace " Theory" "" name +:+ " Theorist"
  else "The " +:+ name +:+ " Scholar".

Definition create_persona_name (lens_name : string) : option string :=
  persona_title <$> core_term lens_name.

End V5.

(** [create_persona_name] of MasterLensV3.py. *)
Module V3.

Definition persona_title (name : string) : string :=
  if decide (name = "Structural & Formalist") then "The Formalist"
  else if decide (name = "Historical & Biographical") then "The Historian"
  else if decide (name = "Comparative") then "The Comparativist"
  else if decide (name ∈ ["Jungian"; "Freudian"]) then "The " +:+ name +:+ " Analyst"
  else if decide (name ∈ ["Marxist"; "Feminist"]) then "The " +:+ name +:+ " Critic"
  else if decide (name ∈ ["Existentialist"; "Taoist"])
    then "The " +:+ name +:+ " Philosopher"
  else if Py.contains "Theory" name || bool_decide (name = "Post-Colonial")
    then "The " +:+ Py.replace " Theory" "" name +:+ " Theorist"
  else "The " +:+ name +:+ " Scholar".

Definition create_persona_name (lens_name : string) : option string :=
  persona_title <$> V5.core_term lens_name.

End V3.

(** ** Works, remote files and the world *)

Inductive Modality := M_TEXT | M_IMAGE | M_AUDIO.

Global Instance Modality_eq_dec : EqDecision Modality.
Proof. solve_decision. Defined.

(** The object a Streamlit file uploader returns. *)
Record UploadedFile := mkUploadedFile {
  uf_type : option string;
  uf_name : string
}.

Record WorkInput := mkWorkInput {
  title : string;
  modality : Modality;
  data : option string;
  uploaded_file_obj : option UploadedFile
}.

Definition is_ready (self : WorkInput) : bool :=
  match modality self with
  | M_TEXT => match data self with
              | Some d => (0 <? String.length d)%nat
              | None => false
              end
  | _ => match uploaded_file_obj self with
         | Some _ => true
         | None => false
         end
  end.

Definition get_display_title (self : WorkInput) : string :=
  if Py.truthy (title self) then title self else "(Untitled)".

(** A file of the remote store, with the name of its processing state. *)
Record RemoteFile := mkRemoteFile {
  rf_name : string;
  rf_uri : string;
  rf_state : string
}.

Global Instance RemoteFile_eq_dec : EqDecision RemoteFile.
Proof. solve_decision. Defined.

(** The [response] attribute an exception of the generation API may carry:
    its [prompt_feedback], and how many [candidates] it holds, where it has
    these attributes. *)
Record ExnResponse := mkExnResponse {
  prompt_feedback : option string;
  candidates : option nat
}.

Inductive Exn :=
| TimeoutError (msg : string)
| KeyError (key : string)
| IndexError
| TypeError
| Exception (msg : string) (response : option ExnResponse).

(** The long f-string templates are kept symbolic: a constructor holds the
    values interpolated into the template of the function named. *)
Inductive Prompt :=
| MetaPrompt (lens_keyword : string) (work_modality : Modality)
| DirectPrompt (work_modality : Modality) (base_prompt work_title : string)
               (work_data : option string)
| WorkContext (work_title : string) (work_data : option string)
| SoldierWithWork (soldier_prompt work_title : string) (work_data : option string)
| DialecticalPrompt (lens_a_name analysis_a lens_b_name analysis_b work_title : string)
| SymposiumPrompt (analyses : list (string * string)) (work_title : string)
| ComparativePrompt (lens_name analysis_a work_a_title analysis_b work_b_title : string)
| Text (s : string).

(** One element of the list handed to [model.generate_content]. *)
Inductive Part :=
| PPrompt (p : Prompt)
| PFile (f : RemoteFile).

(** Lines written to the display layer and to the log. *)
Inductive Msg :=
| ErrNoFileObject
| ErrMimeUnknown
| StUploading (display_name : string)
| StWaiting (uri : string)
| StCurrentState (state : string)
| ErrProcessingFailed (state : string)
| StProcessed
| ErrUnexpectedState (state : string)
| ErrUploadTimedOut
| ErrUploadException (e : Exn)
| LogUploadError (e : Exn)
| UpdUploadError
| StPhase1
| StStrategyReceived
| ShowSoldierPrompt (soldier_prompt : string)
| StPhase2
| StGenerating
| UpdComplete
| ErrAnalysis (e : Exn)
| LogAnalysisError (e : Exn)
| UpdFailed
| WarnBlocked (feedback : string)
| WarnNoOutput
| ErrInitFailed (e : Exn)
| LogCleanedUp (name : string)
| LogDeleteFailed (e : Exn)
| ErrSynthesis (e : Exn)
| StepHeader (step total_steps : nat) (text : string)
| ShowResult (text : string)
| ErrCannotSynthesize
| ErrHalting (lens_name : string)
| WarnDifferentLenses
| WarnAtLeast (min_selections : nat)
| WarnNoApiKey
| WarnNoWorkA
| WarnNoWorkB
| InfoSelect.

Inductive Event :=
| EUploadFile (display_name mime_type : string)
| EGetFile (name : string)
| EDeleteFile (name : string)
| EGenerateContent (contents : list Part) (timeout : Z)
| ESleep (seconds : Z)
| EShow (m : Msg).

(** Calls of the analysis and synthesis functions with what they returned:
    a history kept beside the trace, which the source does not have, to
    state what a pipeline run called. *)
Inductive Call :=
| CAnalysis (lens_keyword : string) (work : WorkInput) (result : option string)
| CDialectical (lens_a_name lens_b_name : string) (result : option string)
| CSymposium (analyses : list (string * string)) (result : option string)
| CComparative (lens_name : string) (result : option string).

(** What the collaborators answer: the [n]-th call of each operation, the
    seconds the [n]-th remote call takes, and the extension sniffer. *)
Record Env := mkEnv {
  guess_type : string → option string;
  upload_file : nat → Exn + RemoteFile;
  get_file : nat → Exn + RemoteFile;
  delete_file : nat → option Exn;
  generate_content : nat → Exn + string;
  configure : string → option Exn;
  latency : nat → nat
}.

Record World := mkWorld {
  clock : Z;
  n_upload : nat;
  n_get : nat;
  n_delete : nat;
  n_generate : nat;
  trace : list Event;
  calls : list Call
}.

Definition n_remote (w : World) : nat :=
  (n_upload w + n_get w + n_delete w + n_generate w)%nat.

(** ** The monad of effects *)

Inductive Res (A : Type) :=
| Ok (a : A)
| Raise (e : Exn)
| OutOfFuel.
Global Arguments Ok {A} a.
Global Arguments Raise {A} e.
Global Arguments OutOfFuel {A}.

Definition M (A : Type) : Type := World → Res A * World.

Definition ret {A} (a : A) : M A := fun w => (Ok a, w).

Definition bind {A B} (m : M A) (k : A → M B) : M B :=
  fun w =>
    match m w with
    | (Ok a, w') => k a w'
    | (Raise e, w') => (Raise e, w')
    | (OutOfFuel, w') => (OutOfFuel, w')
    end.

Definition raise {A} (e : Exn) : M A := fun w => (Raise e, w).

Definition out_of_fuel {A} : M A := fun w => (OutOfFuel, w).

Notation "'let*' x ':=' m 'in' k" := (bind m (fun x => k))
  (at level 10, x name, m at level 100, k at level 200, only parsing).

(** [try: body except Exception as e: handler(e)]. *)
Definition try_except {A} (body : M A) (handler : Exn → M A) : M A :=
  fun w =>
    match body w with
    | (Raise e, w') => handler e w'
    | r => r
    end.

(** [try: ... except Exception as e: handler(e) finally: cleanup(x)] where
    the first statement of the try block assigns the local [x] that the
    finally block reads; [x] is [init] when that statement raised. *)
Definition try_except_finally {L A} (init : L) (assign : M L) (rest : L → M A)
    (handler : Exn → M A) (cleanup : L → M unit) : M A :=
  fun w =>
    let '(r, x, w1) :=
      match assign w with
      | (Ok x, w1) => let '(r, w2) := rest x w1 in (r, x, w2)
      | (Raise e, w1) => (Raise e, init, w1)
      | (OutOfFuel, w1) => (OutOfFuel, init, w1)
      end in
    let '(r, w2) :=
      match r with
      | Raise e => handler e w1
      | _ => (r, w1)
      end in
    match r with
    | OutOfFuel => (OutOfFuel, w2)
    | _ =>
        match cleanup x w2 with
        | (Ok _, w3) => (r, w3)
        | (Raise e, w3) => (Raise e, w3)
        | (OutOfFuel, w3) => (OutOfFuel, w3)
        end
    end.

Definition emit (e : Event) : M unit :=
  fun w => (Ok tt, mkWorld (clock w) (n_upload w) (n_get w) (n_delete w)
                           (n_generate w) (trace w ++ [e]) (calls w)).

Definition show (m : Msg) : M unit := emit (EShow m).

Definition record (c : Call) : M unit :=
  fun w => (Ok tt, mkWorld (clock w) (n_upload w) (n_get w) (n_delete w)
                           (n_generate w) (trace w) (calls w ++ [c])).

Definition time_time : M Z := fun w => (Ok (clock w), w).

Definition time_sleep (seconds : Z) : M unit :=
  fun w => (Ok tt, mkWorld (clock w + seconds) (n_upload w) (n_get w)
                           (n_delete w) (n_generate w)
                           (trace w ++ [ESleep seconds]) (calls w)).

Definition of_sum {A} (r : Exn + A) : Res A :=
  match r with inl e => Raise e | inr a => Ok a end.

Section Engine.

Variable env : Env.

Definition genai_upload_file (display_name mime_type : string) : M RemoteFile :=
  fun w =>
    (of_sum (upload_file env (n_upload w)),
     mkWorld (clock w + Z.of_nat (latency env (n_remote w)))
             (S (n_upload w)) (n_get w) (n_delete w) (n_generate w)
             (trace w ++ [EUploadFile display_name mime_type]) (calls w)).

Definition genai_get_file (name : string) : M RemoteFile :=
  fun w =>
    (of_sum (get_file env (n_get w)),
     mkWorld (clock w + Z.of_nat (latency env (n_remote w)))
             (n_upload w) (S (n_get w)) (n_delete w) (n_generate w)
             (trace w ++ [EGetFile name]) (calls w)).

Definition genai_delete_file (name : string) : M unit :=
  fun w =>
    (match delete_file env (n_delete w) with
     | Some e => Raise e
     | None => Ok tt
     end,
     mkWorld (clock w + Z.of_nat (latency env (n_remote w)))
             (n_upload w) (n_get w) (S (n_delete w)) (n_generate w)
             (trace w ++ [EDeleteFile name]) (calls w)).

(** [model.generate_content(contents, request_options={"timeout": t}).text]:
    the call, and the read of [.text], which raises for a blocked or empty
    generation. *)
Definition model_generate_content (contents : list Part) (timeout : Z) : M string :=
  fun w =>
    (of_sum (generate_content env (n_generate w)),
     mkWorld (clock w + Z.of_nat (latency env (n_remote w)))
             (n_upload w) (n_get w) (n_delete w) (S (n_generate w))
             (trace w ++ [EGenerateContent contents timeout]) (calls w)).

(** *** Media uploader *)

Definition POLL_INTERVAL : Z := 3.
Definition TIMEOUT : Z := 300.

(** Lines 253-260: the declared type, or the sniffed one when the declared
    type is falsy or generic and the sniffer finds one. *)
Definition resolve_mime_type (obj : UploadedFile) : option string :=
  let mime_type := uf_type obj in
  let file_name := uf_name obj in
  if negb (Py.truthy_opt mime_type)
     || bool_decide (mime_type = Some "application/octet-stream")
  then
    let guessed_mime := guess_type env file_name in
    if Py.truthy_opt guessed_mime then guessed_mime else mime_type
  else mime_type.

(** The [while current_state_name == "PROCESSING"] loop. Every turn sleeps
    [POLL_INTERVAL] seconds, so [poll_fuel] turns pass the [TIMEOUT]
    ([poll_fuel_enough] below). *)
Fixpoint poll_processing (fuel : nat) (start_time : Z) (uploaded_file : RemoteFile)
  : M RemoteFile :=
  if decide (rf_state uploaded_file = "PROCESSING") then
    let* now := time_time in
    if decide (now - start_time > TIMEOUT)%Z
    then raise (TimeoutError "File processing timed out.")
    else
      match fuel with
      | O => out_of_fuel
      | S fuel' =>
          let* _ := time_sleep POLL_INTERVAL in
          let* uploaded_file := genai_get_file (rf_name uploaded_file) in
          let* _ := show (StCurrentState (rf_state uploaded_file)) in
          poll_processing fuel' start_time uploaded_file
      end
  else ret uploaded_file.

Definition poll_fuel : nat := 101.

Definition upload_to_gemini (work_input : WorkInput) : M (option RemoteFile) :=
  match uploaded_file_obj work_input with
  | None => let* _ := show ErrNoFileObject in ret None
  | Some obj =>
      let mime_type := resolve_mime_type obj in
      if negb (Py.truthy_opt mime_type)
      then let* _ := show ErrMimeUnknown in ret None
      else
        try_except
          (let display_name := String.substring 0 128 (get_display_title work_input) in
           let* _ := show (StUploading display_name) in
           let* uploaded_file :=
             genai_upload_file display_name (default "" mime_type) in
           let* _ := show (StWaiting (rf_uri uploaded_file)) in
           let* start_time := time_time in
           let* uploaded_file := poll_processing poll_fuel start_time uploaded_file in
           let current_state_name := rf_state uploaded_file in
           if decide (current_state_name = "FAILED") then
             let* _ := show (ErrProcessingFailed current_state_name) in ret None
           else if decide (current_state_name = "ACTIVE") then
             let* _ := show StProcessed in ret (Some uploaded_file)
           else
             let* _ := show (ErrUnexpectedState current_state_name) in ret None)
          (fun e =>
             match e with
             | TimeoutError _ => let* _ := show ErrUploadTimedOut in ret None
             | _ =>
                 let* _ := show (ErrUploadException e) in
                 let* _ := show (LogUploadError e) in
                 ret None
             end)
  end.

(** *** Analysis generator, two-tier mode (v7.2) *)

Definition is_media (m : Modality) : bool := bool_decide (m ∈ [M_IMAGE; M_AUDIO]).

(** The [elif gemini_file:] that appends the uploaded file to a content list. *)
Definition file_part (gemini_file : option RemoteFile) : list Part :=
  match gemini_file with
  | Some f => [PFile f]
  | None => []
  end.

(** The handler of [except Exception as e] in [generate_analysis]. *)
Definition analysis_failed (e : Exn) : M (option string) :=
  let* _ := show (ErrAnalysis e) in
  let* _ := show (LogAnalysisError e) in
  let* _ := show UpdFailed in
  let* _ :=
    match e with
    | Exception _ (Some response) =>
        if Py.truthy_opt (prompt_feedback response)
        then show (WarnBlocked (default "" (prompt_feedback response)))
        else if bool_decide (candidates response = Some 0%nat)
        then show WarnNoOutput
        else ret tt
    | _ => ret tt
    end in
  ret None.

(** The [finally] block of [generate_analysis]. *)
Definition cleanup_file (gemini_file : option RemoteFile) : M unit :=
  match gemini_file with
  | Some f =>
      try_except
        (let* _ := genai_delete_file (rf_name f) in show (LogCleanedUp (rf_name f)))
        (fun e => show (LogDeleteFailed e))
  | None => ret tt
  end.

Definition generate_analysis (lens_keyword : string) (work_input : WorkInput)
  : M (option string) :=
  try_except_finally None
    (if is_media (modality work_input) then upload_to_gemini work_input else ret None)
    (fun gemini_file =>
       if is_media (modality work_input) && bool_decide (gemini_file = None) then
         let* _ := show UpdUploadError in ret None
       else
         let* _ := show StPhase1 in
         let meta_prompt_instructions :=
           MetaPrompt lens_keyword (modality work_input) in
         let content_input_general :=
           [PPrompt meta_prompt_instructions] ++
           (if decide (modality work_input = M_TEXT)
            then [PPrompt (WorkContext (get_display_title work_input) (data work_input))]
            else file_part gemini_file) in
         let* response_general := model_generate_content content_input_general 400 in
         let soldier_prompt := Py.strip response_general in
         let* _ := show StStrategyReceived in
         let* _ := show (ShowSoldierPrompt soldier_prompt) in
         let* _ := show StPhase2 in
         let content_input_soldier :=
           if decide (modality work_input = M_TEXT)
           then [PPrompt (SoldierWithWork soldier_prompt
                            (get_display_title work_input) (data work_input))]
           else [PPrompt (Text soldier_prompt)] ++ file_part gemini_file in
         let* response_soldier := model_generate_content content_input_soldier 600 in
         let* _ := show UpdComplete in
         ret (Some response_soldier))
    analysis_failed
    cleanup_file.

(** *** Synthesis generators *)

Definition generate_dialectical_synthesis
    (lens_a_name analysis_a lens_b_name analysis_b work_title : string)
  : M (option string) :=
  let synthesis_prompt :=
    DialecticalPrompt lens_a_name analysis_a lens_b_name analysis_b work_title in
  try_except
    (let* response := model_generate_content [PPrompt synthesis_prompt] 600 in
     ret (Some response))
    (fun e => let* _ := show (ErrSynthesis e) in ret None).

(** [analyses_dict] is a dict in insertion order. *)
Definition generate_symposium_synthesis
    (analyses_dict : list (string * string)) (work_title : string)
  : M (option string) :=
  let synthesis_prompt := SymposiumPrompt analyses_dict work_title in
  try_except
    (let* response := model_generate_content [PPrompt synthesis_prompt] 900 in
     ret (Some response))
    (fun e => let* _ := show (ErrSynthesis e) in ret None).

Definition generate_comparative_synthesis
    (lens_name analysis_a work_a_title analysis_b work_b_title : string)
  : M (option string) :=
  let synthesis_prompt :=
    ComparativePrompt lens_name analysis_a work_a_title analysis_b work_b_title in
  try_except
    (let* response := model_generate_content [PPrompt synthesis_prompt] 600 in
     ret (Some response))
    (fun e => let* _ := show (ErrSynthesis e) in ret None).

(** *** Execution blocks of the four modes *)

(** [d[key] = value] on a dict in insertion order. *)
Fixpoint dict_set (d : list (string * string)) (key value : string)
  : list (string * string) :=
  match d with
  | [] => [(key, value)]
  | (k, v) :: rest =>
      if decide (k = key) then (k, value) :: rest
      else (k, v) :: dict_set rest key value
  end.

(** The calls below are the source's, followed by their entry in the
    history of calls. *)
Definition call_analysis (lens_keyword : string) (work_input : WorkInput)
  : M (option string) :=
  let* r := generate_analysis lens_keyword work_input in
  let* _ := record (CAnalysis lens_keyword work_input r) in
  ret r.

Definition run_single (lens_keyword : string) (work_a : WorkInput) : M unit :=
  let* analysis_text := call_analysis lens_keyword work_a in
  if Py.truthy_opt analysis_text
  then show (ShowResult (default "" analysis_text))
  else ret tt.

(** [seq[i]], which raises [IndexError] out of range. *)
Definition index {A} (l : list A) (i : nat) : M A :=
  match l !! i with
  | Some x => ret x
  | None => raise IndexError
  end.

Definition run_dialectical (selection : list string) (work_a : WorkInput) : M unit :=
  let* lens_a_name := index selection 0 in
  let* lens_b_name := index selection 1 in
  let* _ := show (StepHeader 1 3 ("Thesis (" +:+ lens_a_name +:+ ")")) in
  let* analysis_a := call_analysis lens_a_name work_a in
  let* analysis_b :=
    if Py.truthy_opt analysis_a then
      let* _ := show (StepHeader 2 3 ("Antithesis (" +:+ lens_b_name +:+ ")")) in
      call_analysis lens_b_name work_a
    else ret None in
  if Py.truthy_opt analysis_a && Py.truthy_opt analysis_b then
    let* _ := show (StepHeader 3 3 "Synthesis (Aufheben)") in
    let* dialogue_text :=
      generate_dialectical_synthesis lens_a_name (default "" analysis_a)
        lens_b_name (default "" analysis_b) (get_display_title work_a) in
    let* _ := record (CDialectical lens_a_name lens_b_name dialogue_text) in
    if Py.truthy_opt dialogue_text
    then show (ShowResult (default "" dialogue_text))
    else ret tt
  else show ErrCannotSynthesize.

(** The [for i, lens_name in enumerate(selected_lenses)] loop, from index
    [i] on: the state is [analyses_results] and [continue_execution]. *)
Fixpoint symposium_loop (total_steps i : nat) (lenses : list string)
    (work_a : WorkInput)
    (analyses_results : list (string * string)) (continue_execution : bool)
  : M (list (string * string) * bool) :=
  match lenses with
  | [] => ret (analyses_results, continue_execution)
  | lens_name :: rest =>
      if negb continue_execution then ret (analyses_results, continue_execution)
      else
        let* _ := show (StepHeader (i + 1) total_steps
                          ("Analyzing (" +:+ lens_name +:+ ")")) in
        let* analysis_text := call_analysis lens_name work_a in
        if Py.truthy_opt analysis_text then
          symposium_loop total_steps (S i) rest work_a
            (dict_set analyses_results lens_name (default "" analysis_text)) true
        else
          let* _ := show (ErrHalting lens_name) in
          symposium_loop total_steps (S i) rest work_a analyses_results false
  end.

Definition run_symposium (selected_lenses : list string) (work_a : WorkInput)
  : M unit :=
  let N := length selected_lenses in
  let total_steps := (N + 1)%nat in
  let* final := symposium_loop total_steps 0 selected_lenses work_a [] true in
  let '(analyses_results, continue_execution) := final in
  if continue_execution : bool then
    let* _ := show (StepHeader total_steps total_steps "Symposium Synthesis") in
    let* symposium_text :=
      generate_symposium_synthesis analyses_results (get_display_title work_a) in
    let* _ := record (CSymposium analyses_results symposium_text) in
    if Py.truthy_opt symposium_text
    then show (ShowResult (default "" symposium_text))
    else ret tt
  else ret tt.

Definition run_comparative (lens_name : string) (work_a work_b : WorkInput)
  : M unit :=
  let* _ := show (StepHeader 1 3 "Analyzing Work A") in
  let* analysis_a := call_analysis lens_name work_a in
  let* analysis_b :=
    if Py.truthy_opt analysis_a then
      let* _ := show (StepHeader 2 3 "Analyzing Work B") in
      call_analysis lens_name work_b
    else ret None in
  if Py.truthy_opt analysis_a && Py.truthy_opt analysis_b then
    let* _ := show (StepHeader 3 3 "Comparative Synthesis") in
    let* synthesis_text :=
      generate_comparative_synthesis lens_name (default "" analysis_a)
        (get_display_title work_a) (default "" analysis_b)
        (get_display_title work_b) in
    let* _ := record (CComparative lens_name synthesis_text) in
    if Py.truthy_opt synthesis_text
    then show (ShowResult (default "" synthesis_text))
    else ret tt
  else show ErrCannotSynthesize.

(** *** One run of the script: sidebar, gate, validation, execution *)

Inductive AnalysisMode := A_SINGLE | A_DIALECTICAL | A_SYMPOSIUM | A_COMPARATIVE.

Global Instance AnalysisMode_eq_dec : EqDecision AnalysisMode.
Proof. solve_decision. Defined.

Inductive ViewMode := VIEW_LIBRARY | VIEW_WORKSHOP.

(** [st.session_state.selection]: [None], a lens name, or a list of them. *)
Inductive Selection :=
| SelNone
| SelLens (lens : string)
| SelList (lenses : list string).

(** [bool(selection)] and [len(selection)]. *)
Definition sel_truthy (selection : Selection) : bool :=
  match selection with
  | SelNone => false
  | SelLens s => Py.truthy s
  | SelList l => bool_decide (l ≠ [])
  end.

Definition sel_len (selection : Selection) : nat :=
  match selection with
  | SelNone => 0
  | SelLens s => String.length s
  | SelList l => length l
  end.

(** What the widgets return in one run of the script, once the mode radio
    and the session agree (the script reruns itself until they do). *)
Record Widgets := mkWidgets {
  api_key : string;
  analysis_mode : AnalysisMode;
  view_mode : ViewMode;
  main_lens_category : option string;
  specific_lens : option string;
  category_a : option string;
  dialectic_lens_a : option string;
  category_b : option string;
  dialectic_lens_b : option string;
  selected_categories : list string;
  selected_lenses : list string;
  work_a : WorkInput;
  work_b : WorkInput;
  button : bool
}.

Definition current_hierarchy (ui : Widgets) : Hierarchy :=
  match view_mode ui with
  | VIEW_LIBRARY => LENSES_HIERARCHY
  | VIEW_WORKSHOP => LENSES_FUNCTIONAL
  end.

(** The lens selection of the sidebar: the value it stores in
    [st.session_state.selection]. *)
Definition sidebar (ui : Widgets) : M Selection :=
  match analysis_mode ui with
  | A_SINGLE | A_COMPARATIVE =>
      if Py.truthy_opt (main_lens_category ui) then
        match specific_lens ui with
        | Some lens => if Py.truthy lens then ret (SelLens lens) else ret SelNone
        | None => ret SelNone
        end
      else ret SelNone
  | A_DIALECTICAL =>
      let lens_a :=
        if Py.truthy_opt (category_a ui) then dialectic_lens_a ui else None in
      let lens_b :=
        if Py.truthy_opt (category_b ui) then dialectic_lens_b ui else None in
      if Py.truthy_opt lens_a && Py.truthy_opt lens_b then
        if decide (lens_a = lens_b) then
          let* _ := show WarnDifferentLenses in ret (SelList [])
        else ret (SelList [default "" lens_a; default "" lens_b])
      else ret (SelList [])
  | A_SYMPOSIUM =>
      let min_selections := 3%nat in
      if bool_decide (selected_categories ui ≠ []) then
        let selected_lenses := selected_lenses ui in
        if (0 <? length selected_lenses)%nat
           && (length selected_lenses <? min_selections)%nat then
          let* _ := show (WarnAtLeast min_selections) in ret (SelList [])
        else if (min_selections <=? length selected_lenses)%nat then
          ret (SelList selected_lenses)
        else ret (SelList [])
      else
        let* _ := show InfoSelect in ret (SelList [])
  end.

(** [display_analysis_form] after the mode-specific checks of the main page. *)
Definition display_analysis_form (mode : AnalysisMode) (selection : Selection)
  : bool :=
  match mode with
  | A_SINGLE | A_COMPARATIVE => sel_truthy selection
  | A_DIALECTICAL => sel_truthy selection && (sel_len selection =? 2)%nat
  | A_SYMPOSIUM => sel_truthy selection && (3 <=? sel_len selection)%nat
  end.

(** [get_model]: whether a model was returned. *)
Definition get_model (api_key : string) : M bool :=
  if negb (Py.truthy api_key) then ret false
  else
    match configure env api_key with
    | Some e => let* _ := show (ErrInitFailed e) in ret false
    | None => ret true
    end.

(** The selection read as a lens name, and as a list of lens names. The
    sidebar stores a name in the single and comparative modes and a list in
    the other two, so the other cases are never reached. *)
Definition as_lens (selection : Selection) : M string :=
  match selection with
  | SelLens s => ret s
  | _ => raise TypeError
  end.

Definition as_list (selection : Selection) : M (list string) :=
  match selection with
  | SelList l => ret l
  | _ => raise TypeError
  end.

Definition execute (ui : Widgets) (selection : Selection) : M unit :=
  match analysis_mode ui with
  | A_SINGLE =>
      let* lens_keyword := as_lens selection in
      run_single lens_keyword (work_a ui)
  | A_DIALECTICAL =>
      let* lenses := as_list selection in
      run_dialectical lenses (work_a ui)
  | A_SYMPOSIUM =>
      let* lenses := as_list selection in
      run_symposium lenses (work_a ui)
  | A_COMPARATIVE =>
      let* lens_name := as_lens selection in
      run_comparative lens_name (work_a ui) (work_b ui)
  end.

Definition script_run (ui : Widgets) : M unit :=
  let* selection := sidebar ui in
  if display_analysis_form (analysis_mode ui) selection then
    if button ui then
      let* valid1 :=
        if negb (Py.truthy (api_key ui))
        then let* _ := show WarnNoApiKey in ret false
        else ret true in
      let* valid2 :=
        if negb (is_ready (work_a ui))
        then let* _ := show WarnNoWorkA in ret false
        else ret valid1 in
      let* is_valid :=
        if bool_decide (analysis_mode ui = A_COMPARATIVE)
           && negb (is_ready (work_b ui))
        then let* _ := show WarnNoWorkB in ret false
        else ret valid2 in
      if is_valid : bool then
        let* model := get_model (api_key ui) in
        if model : bool then execute ui selection else ret tt
      else ret tt
    else ret tt
  else show InfoSelect.

End Engine.

(** ** Analysis generator, direct mode (TheJanusEngineV5.py) *)

Module Direct.
Section Direct.

Variable env : Env.

(** [upload_to_gemini] of this revision reads the same states in the same
    loop; its last handler does not write to the log. *)
Definition upload_to_gemini (work_input : WorkInput) : M (option RemoteFile) :=
  match uploaded_file_obj work_input with
  | None => let* _ := show ErrNoFileObject in ret None
  | Some obj =>
      let mime_type := resolve_mime_type env obj in
      if negb (Py.truthy_opt mime_type)
      then let* _ := show ErrMimeUnknown in ret None
      else
        try_except
          (let display_name := String.substring 0 128 (get_display_title work_input) in
           let* _ := show (StUploading display_name) in
           let* uploaded_file :=
             genai_upload_file env display_name (default "" mime_type) in
           let* _ := show (StWaiting (rf_uri uploaded_file)) in
           let* start_time := time_time in
           let* uploaded_file :=
             poll_processing env poll_fuel start_time uploaded_file in
           if decide (rf_state uploaded_file = "FAILED") then
             let* _ := show (ErrProcessingFailed (rf_state uploaded_file)) in ret None
           else if decide (rf_state uploaded_file = "ACTIVE") then
             let* _ := show StProcessed in ret (Some uploaded_file)
           else
             let* _ := show (ErrUnexpectedState (rf_state uploaded_file)) in ret None)
          (fun e =>
             match e with
             | TimeoutError _ => let* _ := show ErrUploadTimedOut in ret None
             | _ => let* _ := show (ErrUploadException e) in ret None
             end)
  end.

Definition analysis_failed (e : Exn) : M (option string) :=
  let* _ := show (ErrAnalysis e) in
  let* _ := show UpdFailed in
  let* _ :=
    match e with
    | Exception _ (Some response) =>
        if Py.truthy_opt (prompt_feedback response)
        then show (WarnBlocked (default "" (prompt_feedback response)))
        else ret tt
    | _ => ret tt
    end in
  ret None.

(** [FLATTENED_LENSES] is the lens-to-prompt index built at start-up; the
    subscript raises [KeyError] before the [try] block is entered. *)
Definition generate_analysis (FLATTENED_LENSES : gmap string string)
    (prompt_key : string) (work_input : WorkInput) : M (option string) :=
  match FLATTENED_LENSES !! prompt_key with
  | None => raise (KeyError prompt_key)
  | Some base_prompt =>
      try_except_finally None
        (match modality work_input with
         | M_TEXT => ret None
         | _ => upload_to_gemini work_input
         end)
        (fun gemini_file =>
           if is_media (modality work_input) && bool_decide (gemini_file = None)
           then let* _ := show UpdUploadError in ret None
           else
             let final_prompt :=
               DirectPrompt (modality work_input) base_prompt
                 (get_display_title work_input) (data work_input) in
             let content_input := [PPrompt final_prompt] ++ file_part gemini_file in
             let* _ := show StGenerating in
             let* response := model_generate_content env content_input 600 in
             let* _ := show UpdComplete in
             ret (Some response))
        analysis_failed
        (cleanup_file env)
  end.

End Direct.
End Direct.

(** ** Input form of a work (v7.2) *)

(** What the widgets of [handle_input_ui] return: the title, the modality,
    the text area, the two file uploaders, and whether the preview of an
    image could be drawn. *)
Record InputWidgets := mkInputWidgets {
  iw_title : string;
  iw_modality : Modality;
  iw_text : string;
  iw_image : option UploadedFile;
  iw_audio : option UploadedFile;
  iw_preview_ok : bool
}.

(** [handle_input_ui] on a fresh [WorkInput()]: the work it leaves. *)
Definition handle_input_ui (ui : InputWidgets) : WorkInput :=
  let work_input := mkWorkInput "" M_TEXT None None in
  let work_input :=
    mkWorkInput (iw_title ui) (iw_modality ui) (data work_input)
                (uploaded_file_obj work_input) in
  match modality work_input with
  | M_TEXT =>
      if Py.truthy (iw_text ui)
      then mkWorkInput (title work_input) (modality work_input)
                       (Some (iw_text ui)) (uploaded_file_obj work_input)
      else work_input
  | M_IMAGE =>
      match iw_image ui with
      | Some uploaded_file =>
          if iw_preview_ok ui
          then mkWorkInput (title work_input) (modality work_input)
                           (data work_input) (Some uploaded_file)
          else mkWorkInput (title work_input) (modality work_input)
                           (data work_input) None
      | None => work_input
      end
  | M_AUDIO =>
      match iw_audio ui with
      | Some uploaded_file =>
          mkWorkInput (title work_input) (modality work_input)
                      (data work_input) (Some uploaded_file)
      | None => work_input
      end
  end.

(** ** Lens selection of TheJanusEngineV5.py *)

Module NestedSidebar.

(** [LENSES_HIERARCHY[main_lens]]. *)
Fixpoint get (lenses : list (string * Nested.Details)) (main_lens : string)
  : option Nested.Details :=
  match lenses with
  | [] => None
  | (k, details) :: rest =>
      if decide (k = main_lens) then Some details else get rest main_lens
  end.

(** The selection the sidebar stores in the single and comparative modes,
    for the values of the category and sub-lens select boxes; the subscript
    raises [KeyError] for a category that the catalog lacks. *)
Definition selection (lenses : list (string * Nested.Details))
    (main_lens sub_lens : option string) : Exn + option string :=
  match main_lens with
  | Some main =>
      if Py.truthy main then
        match get lenses main with
        | None => inl (KeyError main)
        | Some details =>
            match Nested.sub_lenses details with
            | Some _ =>
                if Py.truthy_opt sub_lens
                then inr (Some (Nested.composite main (default "" sub_lens)))
                else inr None
            | None => inr (Some main)
            end
        end
      else inr None
  | None => inr None
  end.

End NestedSidebar.

(** * Vocabulary of the properties

    Observations on traces and histories, the worlds reached by single
    steps, the sentences of the design document that are examined, and the
    stores, works and widget values of the scenarios. *)

(** [x] names a leaf of the catalog [h]. *)
Definition leaf (h : Hierarchy) (x : string) : Prop :=
  ∃ category lens_list, (category, lens_list) ∈ h ∧ x ∈ lens_list.

(** How many leaves of the catalog carry the name [x]. *)
Definition occurrences (x : string) (l : list string) : nat :=
  length (filter (λ y, y = x) l).

(** The sentence of the design document: every entry of the flattened list
    is the name of exactly one leaf. *)
Definition traceable_to_one_leaf (h : Hierarchy) : Prop :=
  ∀ x, x ∈ flatten_lenses h → occurrences x (extend_all h) = 1.

(** The sentence of the design document: a leaf of the catalog or of the
    tier assignment that the other one lacks is named in a warning. *)
Definition reports_both_directions (h : Hierarchy) : Prop :=
  ∀ x, (leaf h x ∧ ¬ leaf functional_tiers x) ∨
       (leaf functional_tiers x ∧ ¬ leaf h x) →
       ∃ missing, DataIntegrityWarning missing ∈ (create_functional_mapping h).1
                  ∧ x ∈ missing.

(** The events of the remote calls of each kind. *)
Definition is_upload (e : Event) : bool :=
  match e with EUploadFile _ _ => true | _ => false end.
Definition is_get (e : Event) : bool :=
  match e with EGetFile _ => true | _ => false end.
Definition is_delete (e : Event) : bool :=
  match e with EDeleteFile _ => true | _ => false end.
Definition is_generate (e : Event) : bool :=
  match e with EGenerateContent _ _ => true | _ => false end.

Definition count (p : Event → bool) (t : list Event) : nat :=
  length (filter (λ e, p e = true) t).

(** The world after one turn of the polling loop that read the file [f']
    for the name [name]. *)
Definition polled (env : Env) (name : string) (f' : RemoteFile) (w : World)
  : World :=
  mkWorld (clock w + POLL_INTERVAL + Z.of_nat (latency env (n_remote w)))
          (n_upload w) (S (n_get w)) (n_delete w) (n_generate w)
          (((trace w ++ [ESleep POLL_INTERVAL]) ++ [EGetFile name])
             ++ [EShow (StCurrentState (rf_state f'))])
          (calls w).

(** A trace of polling turns: each one sleeps [POLL_INTERVAL] seconds,
    reads the file once and writes the state it read. *)
Inductive poll_rounds : list Event → Prop :=
| rounds_nil : poll_rounds []
| rounds_cons name state rest :
    poll_rounds rest →
    poll_rounds (ESleep POLL_INTERVAL :: EGetFile name
                   :: EShow (StCurrentState state) :: rest).

(** The world after [m] is written to the display layer or the log. *)
Definition shown (m : Msg) (w : World) : World := (show m w).2.

(** The world after the file is submitted and the handle [f0] obtained. *)
Definition submitted (env : Env) (display_name mime_type : string)
    (f0 : RemoteFile) (w : World) : World :=
  shown (StWaiting (rf_uri f0))
    (genai_upload_file env display_name mime_type
       (shown (StUploading display_name) w)).2.

(** A stand-in for [mimetypes.guess_type]: a few extensions, by suffix. *)
Definition sniff_extension (file_name : string) : option string :=
  if Py.endswith file_name ".png" then Some "image/png"
  else if Py.endswith file_name ".jpg" then Some "image/jpeg"
  else if Py.endswith file_name ".mp3" then Some "audio/mpeg"
  else if Py.endswith file_name ".wav" then Some "audio/x-wav"
  else None.

Definition w0 : World := mkWorld 0 0 0 0 0 [] [].

Definition handle (state : string) : RemoteFile :=
  mkRemoteFile "files/abc" "https://files/abc" state.

(** A store whose handle is "PROCESSING" at first and takes the state
    [states k] at the [k]-th read, a second per remote call; deletions
    answer [deleting], generations [generating]. *)
Definition store (states : nat → string) (deleting : nat → option Exn)
    (generating : nat → Exn + string) : Env :=
  mkEnv sniff_extension
        (λ _, inr (handle "PROCESSING"))
        (λ k, inr (handle (states k)))
        deleting generating
        (λ _, None)
        (λ _, 1%nat).

Definition image_work (declared : option string) (file_name : string) : WorkInput :=
  mkWorkInput "Ruins" M_IMAGE None (Some (mkUploadedFile declared file_name)).

Definition text_work : WorkInput :=
  mkWorkInput "" M_TEXT (Some "The sun set over the ruins.") None.

(** The sentence of the design document: the upload does not proceed when
    the declared type is generic and the sniffer finds nothing. *)
Definition generic_unsniffed_is_refused (env : Env) (work : WorkInput)
    (w : World) : Prop :=
  ∀ obj, uploaded_file_obj work = Some obj →
    uf_type obj = Some "application/octet-stream" →
    guess_type env (uf_name obj) = None →
    count is_upload (trace (upload_to_gemini env work w).2) = 0%nat.

(** The world after each kind of step. *)
Definition deleted (env : Env) (name : string) (w : World) : World :=
  (genai_delete_file env name w).2.
Definition generated (env : Env) (contents : list Part) (timeout : Z)
    (w : World) : World := (model_generate_content env contents timeout w).2.
Definition recorded (c : Call) (w : World) : World := (record c w).2.

(** What the two generation calls of the two-tier mode return, read off the
    answers of the generation API from the [n]-th one on. *)
Definition two_tier_result (env : Env) (n : nat) : option string :=
  match generate_content env n with
  | inl _ => None
  | inr _ =>
      match generate_content env (S n) with
      | inl _ => None
      | inr response_soldier => Some response_soldier
      end
  end.

(** The number of remote calls of each kind in a trace:
    uploads, reads, deletions, generations. *)
Definition remote_calls (t : list Event) : nat * nat * nat * nat :=
  (count is_upload t, count is_get t, count is_delete t, count is_generate t).

(** The sentence of the design document for the two-tier mode: a text work
    takes exactly two generation calls. *)
Definition text_takes_two_generations (env : Env) (lens_keyword : string)
    (work : WorkInput) (w : World) : Prop :=
  modality work = M_TEXT →
  count is_generate (trace (generate_analysis env lens_keyword work w).2)
  = (count is_generate (trace w) + 2)%nat.

(** A store that answers "PROCESSING" to the first read and "ACTIVE" from
    the second on. *)
Definition two_polls : Env :=
  store (λ k, if (k =? 0)%nat then "PROCESSING" else "ACTIVE")
        (λ _, None) (λ _, inr "analysis").

Definition stuck : Env :=
  store (λ _, "PROCESSING") (λ _, None) (λ _, inr "analysis").

Definition failing : Env :=
  store (λ _, "FAILED") (λ _, None) (λ _, inr "analysis").

(** A step that ends, by returning or by raising, and adds nothing to the
    history of calls; and one that moreover always returns. *)
Definition quiet {A} (m : M A) : Prop :=
  ∀ w, ∃ r w', m w = (r, w') ∧ r ≠ OutOfFuel ∧ calls w' = calls w.

Definition quiet_ok {A} (m : M A) : Prop :=
  ∀ w, ∃ a w', m w = (Ok a, w') ∧ calls w' = calls w.

(** An analysis call that returned nothing usable: [None] or an empty text. *)
Definition failed_analysis (c : Call) : bool :=
  match c with
  | CAnalysis _ _ r => negb (Py.truthy_opt r)
  | _ => false
  end.

Definition is_analysis (c : Call) : bool :=
  match c with
  | CAnalysis _ _ _ => true
  | _ => false
  end.

(** In the calls [cs] of a run, a failed analysis call is the last call,
    and only analysis calls come before it: no analysis call follows it and
    no synthesis call was or is issued. *)
Definition failure_is_final (cs : list Call) : Prop :=
  ∀ pre c post, cs = pre ++ c :: post → failed_analysis c = true →
    post = [] ∧ Forall (λ c, is_analysis c = true) pre.

(** The shape of the calls of a pipeline: analysis calls that succeeded,
    then at most one more call. *)
Definition pipeline_shape (cs : list Call) : Prop :=
  ∃ oks tail, cs = oks ++ tail ∧
    Forall (λ c, is_analysis c = true ∧ failed_analysis c = false) oks ∧
    length tail ≤ 1.

(** What a call entered in the history of a dialectical run may be, for
    the lens selection [selection]. *)
Definition dialectical_call (selection : list string) (c : Call) : Prop :=
  match c with
  | CAnalysis _ _ _ => True
  | CDialectical a b _ => selection !! 0%nat = Some a ∧ selection !! 1%nat = Some b
  | _ => False
  end.

Definition comparative_call (c : Call) : Prop :=
  match c with
  | CAnalysis _ _ _ | CComparative _ _ => True
  | _ => False
  end.

(** In a symposium run over [lenses], the synthesis receives one analysis
    per lens, in the order of the lenses. *)
Definition symposium_call (lenses : list string) (c : Call) : Prop :=
  match c with
  | CAnalysis _ _ _ => True
  | CSymposium analyses _ => analyses.*1 = lenses
  | _ => False
  end.

Definition symposium_kind (c : Call) : Prop :=
  match c with
  | CAnalysis _ _ _ | CSymposium _ _ => True
  | _ => False
  end.

(** What the sidebar stores for a mode. *)
Definition stored_selection (ui : Widgets) (selection : Selection) : Prop :=
  match analysis_mode ui with
  | A_DIALECTICAL =>
      selection = SelList [] ∨
      ∃ a b, selection = SelList [a; b] ∧ a ≠ b
  | A_SYMPOSIUM =>
      selection = SelList [] ∨
      (selection = SelList (selected_lenses ui) ∧ 3 ≤ length (selected_lenses ui))
  | A_SINGLE | A_COMPARATIVE =>
      selection = SelNone ∨ ∃ lens, selection = SelLens lens
  end.

(** A step that returns a value satisfying [P], writes only to the display
    layer and the log, and adds nothing to the history of calls. *)
Definition displays {A} (P : A → Prop) (m : M A) : Prop :=
  ∀ w, ∃ a w' msgs, m w = (Ok a, w') ∧ P a ∧
                    trace w' = trace w ++ (EShow <$> msgs) ∧ calls w' = calls w.

(** What a synthesis generator does with the prompt [prompt] and the
    timeout [timeout]: one generation call, whose text is returned as it is,
    or whose exception is shown. *)
Definition synthesis_outcome (env : Env) (prompt : Prompt) (timeout : Z)
    (m : M (option string)) (w : World) : Prop :=
  ∃ w', m w = (Ok match generate_content env (n_generate w) with
                  | inr text => Some text
                  | inl _ => None
                  end, w') ∧
        trace w' = trace w ++
          EGenerateContent [PPrompt prompt] timeout ::
          match generate_content env (n_generate w) with
          | inr _ => []
          | inl e => [EShow (ErrSynthesis e)]
          end ∧
        calls w' = calls w.

(** * Properties *)

(** ** Worked examples *)

Example flatten_small :
  flatten_lenses [("B", ["y"; "x"]); ("A", ["z"; "x"])] = ["x"; "y"; "z"].
Proof. vm_compute. reflexivity. Qed.

Example functional_ok : (create_functional_mapping LENSES_HIERARCHY).1 = [].
Proof. vm_compute. reflexivity. Qed.

Example persona_queer :
  V5.create_persona_name "Socio-Political (Queer Theory)" = Some "The Queer Theorist".
Proof. vm_compute. reflexivity. Qed.

Example persona_util :
  V5.create_persona_name "Ethical Frameworks (Utilitarianism)"
  = Some "The Utilitarian Ethicist".
Proof. vm_compute. reflexivity. Qed.

Example persona_plain :
  V3.create_persona_name "Comparative (General)" = Some "The General Scholar".
Proof. vm_compute. reflexivity. Qed.

Example replace_overlap : Py.replace "aa" "b" "aaa" = "ba".
Proof. reflexivity. Qed.

Example split_two : Py.split "("%char "a(b(c" = ["a"; "b"; "c"].
Proof. reflexivity. Qed.

(** ** Catalog flattener *)

Lemma foldl_extend (h : Hierarchy) (acc : list string) :
  foldl (fun flat_lenses '(category, lens_list) => flat_lenses ++ lens_list) acc h
  = acc ++ mjoin (snd <$> h).
Proof.
  revert acc. induction h as [|[c l] h IH]; intros acc; simpl.
  - by rewrite app_nil_r.
  - rewrite IH. by rewrite <- app_assoc.
Qed.

Lemma extend_all_join (h : Hierarchy) : extend_all h = mjoin (snd <$> h).
Proof. unfold extend_all. by rewrite foldl_extend. Qed.

Lemma elem_of_extend_all (h : Hierarchy) (x : string) :
  x ∈ extend_all h ↔ leaf h x.
Proof.
  rewrite extend_all_join. unfold leaf. rewrite list_elem_of_join. split.
  - intros (l & Hx & Hl). apply list_elem_of_fmap in Hl as ([c l'] & -> & Hin).
    eauto.
  - intros (c & l & Hin & Hx). exists l. split; [done|].
    apply list_elem_of_fmap. by exists (c, l).
Qed.

Lemma sorted_Permutation (l : list string) : Py.sorted l ≡ₚ l.
Proof. apply merge_sort_Permutation. Qed.

Lemma elem_of_sorted_set (l : list string) (x : string) :
  x ∈ Py.sorted_set l ↔ x ∈ l.
Proof.
  unfold Py.sorted_set. rewrite sorted_Permutation.
  rewrite elem_of_elements. by rewrite elem_of_list_to_set.
Qed.

Lemma NoDup_sorted_set (l : list string) : NoDup (Py.sorted_set l).
Proof.
  unfold Py.sorted_set. rewrite sorted_Permutation. apply NoDup_elements.
Qed.

Lemma Sorted_sorted_set (l : list string) : Sorted String.le (Py.sorted_set l).
Proof. apply (Sorted_merge_sort String.le). Qed.

Lemma elem_of_flatten_lenses (h : Hierarchy) (x : string) :
  x ∈ flatten_lenses h ↔ leaf h x.
Proof. unfold flatten_lenses. by rewrite elem_of_sorted_set, elem_of_extend_all. Qed.

Lemma occurrences_absent (x : string) (l : list string) :
  x ∉ l → occurrences x l = 0.
Proof.
  unfold occurrences. induction l as [|y l IH]; intros Hx; [done|].
  apply not_elem_of_cons in Hx as [Hne Hx].
  rewrite filter_cons_False by congruence. by apply IH.
Qed.

Lemma occurrences_pos (x : string) (l : list string) :
  x ∈ l → 1 ≤ occurrences x l.
Proof.
  unfold occurrences. induction 1 as [x l|x y l _ IH]; simpl.
  - rewrite filter_cons_True by done. simpl. lia.
  - destruct (decide (y = x)) as [->|Hne].
    + rewrite filter_cons_True by done. simpl. lia.
    + by rewrite filter_cons_False.
Qed.

Lemma occurrences_NoDup (x : string) (l : list string) :
  NoDup l → x ∈ l → occurrences x l = 1.
Proof.
  induction 1 as [|y l Hy Hnd IH]; intros Hx.
  - by apply elem_of_nil in Hx.
  - destruct (decide (y = x)) as [->|Hne].
    + unfold occurrences. rewrite filter_cons_True by done. simpl.
      f_equal. by apply occurrences_absent.
    + apply elem_of_cons in Hx as [->|Hx]; [done|].
      unfold occurrences. rewrite filter_cons_False by done. by apply IH.
Qed.

(** C6, as it is worded, fails on a catalog that lists a lens under two
    categories: the flattened list holds the name once, the catalog twice. *)
Lemma flatten_lenses_shared_leaf :
  flatten_lenses [("A", ["x"]); ("B", ["x"])] = ["x"] ∧
  ¬ traceable_to_one_leaf [("A", ["x"]); ("B", ["x"])].
Proof.
  split; [by vm_compute|].
  intros H. specialize (H "x").
  assert (Hin : "x" ∈ flatten_lenses [("A", ["x"]); ("B", ["x"])]).
  { apply elem_of_flatten_lenses. exists "A", ["x"]. split; by apply elem_of_cons; left. }
  apply H in Hin. vm_compute in Hin. discriminate.
Qed.

(** C6 (amended): [flatten_lenses] returns a list sorted in the order of
    the strings, without duplicates, whose entries are exactly the names of
    the leaves of the catalog; every entry names at least one leaf, and
    exactly one when no name is repeated in the catalog. *)
Theorem flatten_lenses_sorted_unique (h : Hierarchy) :
  Sorted String.le (flatten_lenses h) ∧
  NoDup (flatten_lenses h) ∧
  (∀ x, x ∈ flatten_lenses h ↔ leaf h x) ∧
  (∀ x, x ∈ flatten_lenses h → 1 ≤ occurrences x (extend_all h)) ∧
  (NoDup (extend_all h) → traceable_to_one_leaf h).
Proof.
  split; [apply Sorted_sorted_set|].
  split; [apply NoDup_sorted_set|].
  split; [apply elem_of_flatten_lenses|].
  split.
  - intros x Hx. apply occurrences_pos.
    by apply elem_of_flatten_lenses, elem_of_extend_all in Hx.
  - intros Hnd x Hx. apply occurrences_NoDup; [done|].
    by apply elem_of_flatten_lenses, elem_of_extend_all in Hx.
Qed.

Lemma flatten_lenses_sorted_unique_witness :
  NoDup (extend_all [("B", ["y"; "x"]); ("A", ["z"])]) ∧
  traceable_to_one_leaf [("B", ["y"; "x"]); ("A", ["z"])].
Proof.
  assert (Hnd : NoDup (extend_all [("B", ["y"; "x"]); ("A", ["z"])])).
  { apply (bool_decide_unpack _). by vm_compute. }
  split; [exact Hnd|].
  exact (proj2 (proj2 (proj2 (proj2
    (flatten_lenses_sorted_unique [("B", ["y"; "x"]); ("A", ["z"])])))) Hnd).
Defined.

(** The flattener of the earlier revisions: the sorted keys of the
    flattened dict are sorted, without duplicates, and are the keys of the
    leaves of the nested catalog. *)
Lemma nested_inner_dom (dedent : string → string) main_lens
    (subs : list (string * string)) (acc : gmap string string) :
  dom (foldl (fun flat_lenses '(sub_lens, prompt) =>
                <[Nested.composite main_lens sub_lens := Py.strip (dedent prompt)]>
                  flat_lenses) acc subs)
  = dom acc ∪ list_to_set ((λ '(sub_lens, _), Nested.composite main_lens sub_lens)
                             <$> subs).
Proof.
  revert acc. induction subs as [|[sub p] subs IH]; intros acc; simpl.
  - by rewrite (right_id_L ∅ (∪)).
  - rewrite IH, dom_insert_L.
    rewrite (comm_L (∪) {[Nested.composite main_lens sub]}).
    by rewrite <- (assoc_L (∪)).
Qed.

Lemma nested_flatten_dom (dedent : string → string) lenses :
  dom (Nested.flatten_lenses dedent lenses) = list_to_set (Nested.leaf_keys lenses).
Proof.
  unfold Nested.flatten_lenses.
  assert (Hgen : ∀ acc : gmap string string,
    dom (foldl (fun flat_lenses '(main_lens, details) =>
           match Nested.sub_lenses details with
           | Some subs =>
               foldl (fun flat_lenses '(sub_lens, prompt) =>
                        <[Nested.composite main_lens sub_lens
                            := Py.strip (dedent prompt)]> flat_lenses)
                     flat_lenses subs
           | None =>
               match Nested.prompt details with
               | Some prompt => <[main_lens := Py.strip (dedent prompt)]> flat_lenses
               | None => flat_lenses
               end
           end) acc lenses)
    = dom acc ∪ list_to_set (Nested.leaf_keys lenses)).
  { induction lenses as [|[main d] lenses IH]; intros acc.
    - simpl. by rewrite (right_id_L ∅ (∪)).
    - cbn [foldl]. rewrite IH. unfold Nested.leaf_keys. cbn [mbind list_bind].
      fold (Nested.leaf_keys lenses). rewrite list_to_set_app_L.
      destruct (Nested.sub_lenses d) as [subs|].
      + rewrite nested_inner_dom. by rewrite <- (assoc_L (∪)).
      + destruct (Nested.prompt d).
        * rewrite dom_insert_L. simpl. rewrite (right_id_L ∅ (∪)).
          rewrite (comm_L (∪) {[main]}). by rewrite <- (assoc_L (∪)).
        * simpl. by rewrite (left_id_L ∅ (∪)). }
  rewrite Hgen, dom_empty_L. by rewrite (left_id_L ∅ (∪)).
Qed.

(** X17: the sorted lens names of the earlier revisions are sorted, hold no
    name twice, and are exactly the keys of the leaves of the nested
    catalog. *)
Lemma nested_sorted_lens_names (dedent : string → string) lenses :
  Sorted String.le (Nested.sorted_lens_names dedent lenses) ∧
  NoDup (Nested.sorted_lens_names dedent lenses) ∧
  ∀ x, x ∈ Nested.sorted_lens_names dedent lenses ↔ x ∈ Nested.leaf_keys lenses.
Proof.
  unfold Nested.sorted_lens_names. split; [apply (Sorted_merge_sort String.le)|].
  split.
  - rewrite sorted_Permutation. apply NoDup_elements.
  - intros x. rewrite sorted_Permutation, elem_of_elements, nested_flatten_dom.
    apply elem_of_list_to_set.
Qed.

(** There too the key of a sub-lens may be the name of another category,
    and then one entry names two leaves. *)
Example nested_shared_key :
  let lenses :=
    [("A", Nested.mkDetails None None (Some [("B", "p")]));
     ("A (B)", Nested.mkDetails None (Some "q") None)] in
  Nested.leaf_keys lenses = ["A (B)"; "A (B)"] ∧
  Nested.sorted_lens_names (λ s, s) lenses = ["A (B)"].
Proof. by vm_compute. Qed.

(** ** Functional regrouping *)

Lemma functional_mapping_from_logged (mapping h : Hierarchy) :
  ∃ missing : gset string,
    (∀ x, x ∈ missing ↔ leaf h x ∧ ¬ leaf mapping x) ∧
    (create_functional_mapping_from mapping h).1
    = if decide (missing = ∅) then [] else [DataIntegrityWarning missing].
Proof.
  exists (list_to_set (flatten_lenses h) ∖ list_to_set (flatten_lenses mapping)).
  split; [|done].
  intros x. rewrite elem_of_difference, !elem_of_list_to_set.
  by rewrite !elem_of_flatten_lenses.
Qed.

(** C5, as it is worded, fails for a tier leaf the catalog lacks: Shinto is
    assigned to a tier, the catalog below does not have it, and nothing is
    logged. *)
Lemma create_functional_mapping_one_direction :
  (create_functional_mapping [("Philosophical", ["Taoist"])]).1 = [] ∧
  ¬ reports_both_directions [("Philosophical", ["Taoist"])].
Proof.
  assert (Hlog : (create_functional_mapping [("Philosophical", ["Taoist"])]).1 = [])
    by (by vm_compute).
  split; [exact Hlog|].
  intros H. destruct (H "Shinto") as (missing & Hin & _).
  - right. split.
    + apply elem_of_flatten_lenses. apply (bool_decide_unpack _). by vm_compute.
    + intros (c & l & Hcl & Hx).
      apply list_elem_of_singleton in Hcl. injection Hcl as -> ->.
      by apply list_elem_of_singleton in Hx.
  - rewrite Hlog in Hin. by apply elem_of_nil in Hin.
Qed.

(** C5 (amended): [create_functional_mapping] always returns the tier
    mapping, each tier sorted, and never raises; it logs nothing when every
    leaf of the catalog is assigned to a tier, and otherwise one warning
    that holds exactly the catalog leaves no tier has. A tier leaf that the
    catalog lacks is never in a warning. *)
Theorem create_functional_mapping_warns (h : Hierarchy) :
  (create_functional_mapping h).2
    = ((fun '(key, lens_list) => (key, Py.sorted lens_list)) <$> functional_tiers) ∧
  ((create_functional_mapping h).1 = [] ↔
     ∀ x, leaf h x → leaf functional_tiers x) ∧
  (∀ w, w ∈ (create_functional_mapping h).1 →
     (create_functional_mapping h).1 = [w] ∧
     ∃ missing, w = DataIntegrityWarning missing ∧
       ∀ x, x ∈ missing ↔ leaf h x ∧ ¬ leaf functional_tiers x).
Proof.
  split; [done|].
  destruct (functional_mapping_from_logged functional_tiers h)
    as (missing & Hmiss & Hlog).
  unfold create_functional_mapping. rewrite Hlog.
  destruct (decide (missing = ∅)) as [->|Hne].
  - split.
    + split; [|done]. intros _ x Hx.
      destruct (decide (x ∈ flatten_lenses functional_tiers)) as [Hin|Hnin].
      * by apply elem_of_flatten_lenses.
      * exfalso. apply (not_elem_of_empty (C:=gset string) x). apply Hmiss.
        split; [done|]. by rewrite <- elem_of_flatten_lenses.
    + intros w Hw. by apply elem_of_nil in Hw.
  - split.
    + split; [done|]. intros Hall. exfalso. apply Hne.
      apply set_eq. intros x. split; [|by intros ?%not_elem_of_empty].
      intros [Hx Hn]%Hmiss. by apply Hall in Hx.
    + intros w Hw. apply list_elem_of_singleton in Hw as ->.
      split; [done|]. by exists missing.
Qed.

(** ** Persona namer *)

Lemma split_length (sep : ascii) (s : string) : 1 ≤ length (Py.split sep s).
Proof.
  induction s as [|c s IH]; simpl; [lia|].
  destruct (Ascii.eqb c sep); simpl; [lia|].
  destruct (Py.split sep s); simpl in *; lia.
Qed.

(** After the test ["(" in lens_name], the subscript [[1]] is in range. *)
Lemma split_paren_second (s : string) :
  Py.contains "(" s = true → 2 ≤ length (Py.split "("%char s).
Proof.
  induction s as [|c s IH]; [done|].
  cbn [Py.contains String.prefix Py.split].
  pose proof (split_length "("%char s) as Hlen.
  destruct (Ascii.ascii_dec "(" c) as [<-|Hne].
  - intros _. rewrite Ascii.eqb_refl. cbn [length]. lia.
  - intros Hc. rewrite orb_false_l in Hc. specialize (IH Hc).
    destruct (Ascii.eqb c "("); [cbn [length]; lia|].
    destruct (Py.split "("%char s); cbn [length] in *; lia.
Qed.

Lemma core_term_total (lens_name : string) :
  ∃ name, V5.core_term lens_name = Some name.
Proof.
  unfold V5.core_term. destruct (Py.contains "(" lens_name) eqn:Hc; [|eauto].
  apply split_paren_second in Hc.
  destruct (Py.split "("%char lens_name) as [|a [|b l]]; simpl in *; try lia.
  eauto.
Qed.

Lemma the_nonempty (rest : string) : "The " +:+ rest ≠ "".
Proof. discriminate. Qed.

Lemma V5_persona_title_the (name : string) :
  ∃ rest, V5.persona_title name = "The " +:+ rest.
Proof.
  unfold V5.persona_title.
  repeat (case_decide; [eexists; reflexivity|]).
  destruct (_ || _); eexists; reflexivity.
Qed.

Lemma V3_persona_title_the (name : string) :
  ∃ rest, V3.persona_title name = "The " +:+ rest.
Proof.
  unfold V3.persona_title.
  repeat (case_decide; [eexists; reflexivity|]).
  destruct (_ || _); eexists; reflexivity.
Qed.

(** C7: the persona namer returns a title for every lens key, without
    raising, the title is not empty, and it is the only one the key has
    (the namer is a function of the key alone: it reads no state); for
    "Socio-Political (Marxist)" the title contains "Marxist" and ends in
    "Critic". This holds for the namer of TheJanusEngineV5.py and for the
    one of MasterLensV3.py. *)
Theorem create_persona_name_total (lens_key : string) :
  (∃ title, V5.create_persona_name lens_key = Some title ∧ title ≠ "" ∧
            ∀ r, V5.create_persona_name lens_key = r ↔ r = Some title) ∧
  (∃ title, V3.create_persona_name lens_key = Some title ∧ title ≠ "" ∧
            ∀ r, V3.create_persona_name lens_key = r ↔ r = Some title) ∧
  (∃ title, V5.create_persona_name "Socio-Political (Marxist)" = Some title ∧
            Py.contains "Marxist" title = true ∧
            Py.endswith title "Critic" = true) ∧
  (∃ title, V3.create_persona_name "Socio-Political (Marxist)" = Some title ∧
            Py.contains "Marxist" title = true ∧
            Py.endswith title "Critic" = true).
Proof.
  destruct (core_term_total lens_key) as [name Hname].
  split; [|split; [|split]].
  - destruct (V5_persona_title_the name) as [rest Hrest].
    assert (Hrun : V5.create_persona_name lens_key = Some ("The " +:+ rest)).
    { unfold V5.create_persona_name. rewrite Hname. simpl. by rewrite Hrest. }
    exists ("The " +:+ rest). split; [done|]. split; [apply the_nonempty|].
    intros r. rewrite Hrun. split; congruence.
  - destruct (V3_persona_title_the name) as [rest Hrest].
    assert (Hrun : V3.create_persona_name lens_key = Some ("The " +:+ rest)).
    { unfold V3.create_persona_name. rewrite Hname. simpl. by rewrite Hrest. }
    exists ("The " +:+ rest). split; [done|]. split; [apply the_nonempty|].
    intros r. rewrite Hrun. split; congruence.
  - exists "The Marxist Critic". by vm_compute.
  - exists "The Marxist Critic". by vm_compute.
Qed.

(** ** Media uploader *)

Lemma count_app p t1 t2 : count p (t1 ++ t2) = (count p t1 + count p t2)%nat.
Proof. unfold count. by rewrite filter_app, length_app. Qed.

Section Polling.

Variable env : Env.

Lemma poll_unfold fuel start f w :
  poll_processing env fuel start f w =
  if decide (rf_state f = "PROCESSING") then
    if decide (clock w - start > TIMEOUT)%Z
    then (Raise (TimeoutError "File processing timed out."), w)
    else
      match fuel with
      | O => (OutOfFuel, w)
      | S fuel' =>
          match get_file env (n_get w) with
          | inr f' => poll_processing env fuel' start f' (polled env (rf_name f) f' w)
          | inl e =>
              (Raise e,
               mkWorld (clock w + POLL_INTERVAL + Z.of_nat (latency env (n_remote w)))
                       (n_upload w) (S (n_get w)) (n_delete w) (n_generate w)
                       ((trace w ++ [ESleep POLL_INTERVAL]) ++ [EGetFile (rf_name f)])
                       (calls w))
          end
      end
  else (Ok f, w).
Proof.
  destruct fuel; simpl; unfold bind, time_time, raise, out_of_fuel, ret;
    repeat case_decide; try done.
  unfold time_sleep, genai_get_file, show, emit, polled, n_remote. simpl.
  destruct (get_file env (n_get w)); simpl; done.
Qed.

(** The loop returns only a file that has left the processing state. *)
Lemma poll_returns_terminal fuel start f w f' w' :
  poll_processing env fuel start f w = (Ok f', w') → rf_state f' ≠ "PROCESSING".
Proof.
  revert f w. induction fuel as [|fuel IH]; intros f w; rewrite poll_unfold;
    repeat case_decide; try congruence.
  destruct (get_file env (n_get w)); [congruence|]. apply IH.
Qed.

(** [poll_fuel] turns suffice: with three seconds slept in every turn, the
    loop has left through its timeout check before the fuel is spent. *)
Lemma poll_fuel_enough fuel start f w :
  (TIMEOUT < clock w - start + POLL_INTERVAL * Z.of_nat fuel)%Z →
  (poll_processing env fuel start f w).1 ≠ OutOfFuel.
Proof.
  revert f w. induction fuel as [|fuel IH]; intros f w Hinv; rewrite poll_unfold;
    repeat case_decide; simpl; try done.
  - unfold TIMEOUT, POLL_INTERVAL in *. lia.
  - destruct (get_file env (n_get w)); simpl; [done|].
    apply IH. unfold polled, TIMEOUT, POLL_INTERVAL in *. simpl. lia.
Qed.

End Polling.

Lemma count_get_rounds tail : poll_rounds tail → (3 * count is_get tail)%nat = length tail.
Proof.
  induction 1 as [|name state rest _ IH]; [done|].
  change (count is_get (_ :: _ :: _ :: rest)) with (S (count is_get rest)).
  simpl. lia.
Qed.

Lemma submitted_fields env display_name mime_type f0 w :
  let w1 := submitted env display_name mime_type f0 w in
  clock w1 = (clock w + Z.of_nat (latency env (n_remote w)))%Z ∧
  n_upload w1 = S (n_upload w) ∧ n_get w1 = n_get w ∧
  n_delete w1 = n_delete w ∧ n_generate w1 = n_generate w ∧
  calls w1 = calls w ∧
  trace w1 = trace w ++ [EShow (StUploading display_name);
                         EUploadFile display_name mime_type;
                         EShow (StWaiting (rf_uri f0))].
Proof. simpl. repeat split; try done. by rewrite <- !app_assoc. Qed.

Section Uploading.

Variable env : Env.

Local Arguments poll_processing : simpl never.

(** A store that never leaves the processing state: the loop ends in its
    timeout, after at most [fuel] reads, three seconds apart. *)
Lemma poll_times_out fuel start f w :
  (∀ k, ∃ fk, get_file env k = inr fk ∧ rf_state fk = "PROCESSING") →
  rf_state f = "PROCESSING" →
  (TIMEOUT < clock w - start + POLL_INTERVAL * Z.of_nat fuel)%Z →
  ∃ msg w' tail,
    poll_processing env fuel start f w = (Raise (TimeoutError msg), w') ∧
    (clock w' - start > TIMEOUT)%Z ∧
    trace w' = trace w ++ tail ∧ poll_rounds tail ∧
    count is_get tail ≤ fuel ∧
    n_upload w' = n_upload w ∧ n_delete w' = n_delete w ∧
    n_generate w' = n_generate w ∧ calls w' = calls w.
Proof.
  intros Hstore. revert f w.
  induction fuel as [|fuel IH]; intros f w Hf Hinv; rewrite poll_unfold;
    rewrite decide_True by done; case_decide.
  - exists "File processing timed out.", w, []. rewrite app_nil_r.
    repeat split; try done; try constructor; unfold count; simpl; lia.
  - unfold TIMEOUT, POLL_INTERVAL in *. lia.
  - exists "File processing timed out.", w, []. rewrite app_nil_r.
    repeat split; try done; try constructor; unfold count; simpl; lia.
  - destruct (Hstore (n_get w)) as (fk & -> & Hfk).
    destruct (IH fk (polled env (rf_name f) fk w) Hfk)
      as (msg & w' & tail & Hrun & Hclock & Htrace & Hrounds & Hcount & Hrest).
    { unfold polled, TIMEOUT, POLL_INTERVAL in *. simpl. lia. }
    exists msg, w',
      (ESleep POLL_INTERVAL :: EGetFile (rf_name f)
         :: EShow (StCurrentState (rf_state fk)) :: tail).
    split; [done|]. split; [done|]. split.
    { rewrite Htrace. unfold polled. simpl. by rewrite <- !app_assoc. }
    split; [by constructor|]. split; [|exact Hrest].
    change (count is_get (_ :: _ :: _ :: tail)) with (S (count is_get tail)). lia.
Qed.

(** [upload_to_gemini] once the MIME type is resolved and the store has
    returned a handle: the polling loop, then the check of the state. *)
Lemma upload_to_gemini_submitted work obj f0 w :
  uploaded_file_obj work = Some obj →
  Py.truthy_opt (resolve_mime_type env obj) = true →
  upload_file env (n_upload w) = inr f0 →
  let w1 := submitted env (String.substring 0 128 (get_display_title work))
              (default "" (resolve_mime_type env obj)) f0 w in
  upload_to_gemini env work w =
  match poll_processing env poll_fuel (clock w1) f0 w1 with
  | (Ok f, w2) =>
      if decide (rf_state f = "FAILED")
      then (Ok None, shown (ErrProcessingFailed (rf_state f)) w2)
      else if decide (rf_state f = "ACTIVE")
      then (Ok (Some f), shown StProcessed w2)
      else (Ok None, shown (ErrUnexpectedState (rf_state f)) w2)
  | (Raise (TimeoutError msg), w2) => (Ok None, shown ErrUploadTimedOut w2)
  | (Raise e, w2) =>
      (Ok None, shown (LogUploadError e) (shown (ErrUploadException e) w2))
  | (OutOfFuel, w2) => (OutOfFuel, w2)
  end.
Proof.
  intros Hobj Hmime Hup w1. unfold upload_to_gemini. rewrite Hobj, Hmime.
  unfold try_except, bind, show, emit, genai_upload_file, time_time, ret.
  cbn [negb n_upload clock n_get n_delete n_generate trace calls fst snd].
  rewrite Hup. cbn [of_sum].
  change (poll_processing env poll_fuel _ f0 _)
    with (poll_processing env poll_fuel (clock w1) f0 w1).
  destruct (poll_processing env poll_fuel (clock w1) f0 w1) as [[f|e|] w2];
    [|by destruct e|done].
  repeat case_decide; reflexivity.
Qed.

(** C3: with the MIME type resolved and a handle obtained, the uploader
    polls the state of the handle every [POLL_INTERVAL] = 3 seconds while it
    is "PROCESSING".
    - A store that answers "PROCESSING" to the first read and "ACTIVE" to
      the second (the first read returning within the ceiling): the handle
      read last is returned, in state "ACTIVE", after exactly two reads, each
      after a sleep of three seconds.
    - A store that never leaves "PROCESSING": the upload fails with the
      timeout error, once more than [TIMEOUT] = 300 seconds have passed since
      the handle was obtained, after at most [poll_fuel] reads.
    - Whatever state the polling ends in: "FAILED" gives the
      processing-failure error, "ACTIVE" the handle, and any other state the
      unexpected-state error. *)
Theorem upload_to_gemini_polling work obj f0 w :
  uploaded_file_obj work = Some obj →
  Py.truthy_opt (resolve_mime_type env obj) = true →
  upload_file env (n_upload w) = inr f0 →
  let w1 := submitted env (String.substring 0 128 (get_display_title work))
              (default "" (resolve_mime_type env obj)) f0 w in
  (∀ f1 f2,
     rf_state f0 = "PROCESSING" →
     get_file env (n_get w) = inr f1 → rf_state f1 = "PROCESSING" →
     get_file env (S (n_get w)) = inr f2 → rf_state f2 = "ACTIVE" →
     (POLL_INTERVAL + Z.of_nat (latency env (S (n_remote w))) ≤ TIMEOUT)%Z →
     ∃ w', upload_to_gemini env work w = (Ok (Some f2), w') ∧
           trace w' = trace w1 ++
             [ESleep 3; EGetFile (rf_name f0); EShow (StCurrentState "PROCESSING");
              ESleep 3; EGetFile (rf_name f1); EShow (StCurrentState "ACTIVE");
              EShow StProcessed] ∧
           n_get w' = (n_get w + 2)%nat) ∧
  (rf_state f0 = "PROCESSING" →
   (∀ k, ∃ fk, get_file env k = inr fk ∧ rf_state fk = "PROCESSING") →
   ∃ w' tail, upload_to_gemini env work w = (Ok None, w') ∧
              trace w' = trace w1 ++ tail ++ [EShow ErrUploadTimedOut] ∧
              poll_rounds tail ∧ count is_get tail ≤ poll_fuel ∧
              (clock w' - clock w1 > TIMEOUT)%Z) ∧
  (∀ f w2,
     poll_processing env poll_fuel (clock w1) f0 w1 = (Ok f, w2) →
     rf_state f ≠ "PROCESSING" ∧
     upload_to_gemini env work w =
       if decide (rf_state f = "FAILED")
       then (Ok None, shown (ErrProcessingFailed "FAILED") w2)
       else if decide (rf_state f = "ACTIVE")
       then (Ok (Some f), shown StProcessed w2)
       else (Ok None, shown (ErrUnexpectedState (rf_state f)) w2)).
Proof.
  intros Hobj Hmime Hup w1.
  pose proof (upload_to_gemini_submitted work obj f0 w Hobj Hmime Hup) as Hrun.
  cbv zeta in Hrun. fold w1 in Hrun.
  destruct (submitted_fields env (String.substring 0 128 (get_display_title work))
              (default "" (resolve_mime_type env obj)) f0 w)
    as (Hc1 & Hu1 & Hg1 & Hd1 & Hn1 & Hk1 & Ht1).
  fold w1 in Hc1, Hu1, Hg1, Hd1, Hn1, Hk1, Ht1.
  assert (Hr1 : n_remote w1 = S (n_remote w)).
  { unfold n_remote. rewrite Hu1, Hg1, Hd1, Hn1. lia. }
  split; [|split].
  - intros f1 f2 Hs0 Hget1 Hs1 Hget2 Hs2 Hlat.
    rewrite Hrun. unfold poll_fuel.
    rewrite poll_unfold. rewrite (decide_True _ _ Hs0).
    rewrite decide_False by (unfold TIMEOUT; lia).
    rewrite Hg1, Hget1.
    rewrite poll_unfold. rewrite (decide_True _ _ Hs1).
    rewrite decide_False
      by (unfold polled, TIMEOUT, POLL_INTERVAL in *; cbn [clock]; rewrite Hr1; lia).
    replace (n_get (polled env (rf_name f0) f1 w1)) with (S (n_get w))
      by (unfold polled; cbn [n_get]; by rewrite Hg1).
    rewrite Hget2.
    rewrite poll_unfold. rewrite !decide_False by (rewrite Hs2; done).
    rewrite decide_True by done.
    eexists. split; [reflexivity|].
    unfold shown, polled. cbn [show emit snd trace n_get].
    rewrite Hs1, Hs2, Hg1. split; [|lia].
    by rewrite <- !app_assoc.
  - intros Hs0 Hstore.
    destruct (poll_times_out poll_fuel (clock w1) f0 w1 Hstore Hs0)
      as (msg & w2 & tail & Hpoll & Hclock & Htrace & Hrounds & Hcount & _).
    { unfold TIMEOUT, POLL_INTERVAL, poll_fuel. lia. }
    rewrite Hrun, Hpoll. exists (shown ErrUploadTimedOut w2), tail.
    split; [done|]. unfold shown. cbn [show emit snd trace clock].
    rewrite Htrace. split; [by rewrite <- app_assoc|]. done.
  - intros f w2 Hpoll. split; [by eapply poll_returns_terminal|].
    rewrite Hrun, Hpoll. case_decide as Hf; [by rewrite Hf|done].
Qed.

End Uploading.

Section UploadFacts.

Variable env : Env.

Local Arguments poll_processing : simpl never.

Lemma poll_trace_extends fuel start f w :
  ∃ tail, trace (poll_processing env fuel start f w).2 = trace w ++ tail.
Proof.
  revert f w. induction fuel as [|fuel IH]; intros f w; rewrite poll_unfold;
    repeat case_decide; try (by exists []; rewrite app_nil_r).
  destruct (get_file env (n_get w)) as [e|f'].
  - cbn [snd trace]. rewrite <- app_assoc. eauto.
  - destruct (IH f' (polled env (rf_name f) f' w)) as [tail ->].
    unfold polled. cbn [trace]. rewrite <- !app_assoc. eauto.
Qed.

(** The uploader catches what it raises: it returns a handle or [None]. *)
Lemma upload_to_gemini_returns work w :
  ∃ r w', upload_to_gemini env work w = (Ok r, w').
Proof.
  unfold upload_to_gemini.
  destruct (uploaded_file_obj work) as [obj|] eqn:Hobj; [|by eexists _, _].
  destruct (Py.truthy_opt (resolve_mime_type env obj)) eqn:Hmime;
    [|by eexists _, _].
  cbn [negb]. fold (upload_to_gemini env work).
  destruct (upload_file env (n_upload w)) as [e|f0] eqn:Hup.
  - unfold try_except, bind, show, emit, genai_upload_file, ret.
    cbn [n_upload]. rewrite Hup. cbn [of_sum].
    destruct e; by eexists _, _.
  - pose proof (upload_to_gemini_submitted env work obj f0 w Hobj Hmime Hup) as Hrun.
    cbv zeta in Hrun. unfold upload_to_gemini in Hrun.
    rewrite Hobj, Hmime in Hrun. cbn [negb] in Hrun. rewrite Hrun. clear Hrun.
    set (w1 := submitted _ _ _ _ _).
    pose proof (poll_fuel_enough env poll_fuel (clock w1) f0 w1) as Hfuel.
    destruct (poll_processing env poll_fuel (clock w1) f0 w1) as [[f|e|] w2].
    + repeat case_decide; by eexists _, _.
    + destruct e; by eexists _, _.
    + exfalso. apply Hfuel; [|done]. unfold TIMEOUT, POLL_INTERVAL, poll_fuel. lia.
Qed.

(** Once a MIME type is resolved, the file is submitted under it. *)
Lemma upload_to_gemini_submits work obj w :
  uploaded_file_obj work = Some obj →
  Py.truthy_opt (resolve_mime_type env obj) = true →
  ∃ tail,
    trace (upload_to_gemini env work w).2 =
    trace w ++
      EShow (StUploading (String.substring 0 128 (get_display_title work)))
      :: EUploadFile (String.substring 0 128 (get_display_title work))
           (default "" (resolve_mime_type env obj))
      :: tail.
Proof.
  intros Hobj Hmime.
  destruct (upload_file env (n_upload w)) as [e|f0] eqn:Hup.
  - unfold upload_to_gemini. rewrite Hobj, Hmime.
    unfold try_except, bind, show, emit, genai_upload_file, ret.
    cbn [negb n_upload]. rewrite Hup. cbn [of_sum].
    destruct e; cbn [snd trace]; rewrite <- !app_assoc; eauto.
  - rewrite (upload_to_gemini_submitted env work obj f0 w Hobj Hmime Hup).
    cbv zeta. set (w1 := submitted _ _ _ _ _).
    destruct (poll_trace_extends poll_fuel (clock w1) f0 w1) as [tail Htail].
    destruct (submitted_fields env (String.substring 0 128 (get_display_title work))
                (default "" (resolve_mime_type env obj)) f0 w)
      as (_ & _ & _ & _ & _ & _ & Ht1).
    fold w1 in Ht1. rewrite Ht1 in Htail.
    destruct (poll_processing env poll_fuel (clock w1) f0 w1) as [[f|e|] w2];
      cbn [snd] in Htail.
    + repeat case_decide; unfold shown; cbn [show emit snd trace];
        rewrite Htail, <- !app_assoc; cbn [app]; eauto.
    + destruct e; unfold shown; cbn [show emit snd trace];
        rewrite Htail, <- !app_assoc; cbn [app]; eauto.
    + cbn [snd]. rewrite Htail, <- !app_assoc. cbn [app]. eauto.
Qed.

End UploadFacts.

(** ** MIME type resolution *)

(** C4, as it is worded, fails for a file declared generic whose name has
    no known extension: the file is submitted as "application/octet-stream". *)
Lemma upload_generic_type_proceeds :
  let env := store (λ _, "ACTIVE") (λ _, None) (λ _, inr "") in
  let work := image_work (Some "application/octet-stream") "blob" in
  trace (upload_to_gemini env work w0).2 =
    [EShow (StUploading "Ruins");
     EUploadFile "Ruins" "application/octet-stream";
     EShow (StWaiting "https://files/abc");
     ESleep 3; EGetFile "files/abc"; EShow (StCurrentState "ACTIVE");
     EShow StProcessed] ∧
  ¬ generic_unsniffed_is_refused env work w0.
Proof.
  split; [by vm_compute|].
  intros H. specialize (H _ eq_refl eq_refl eq_refl). vm_compute in H. discriminate.
Qed.

(** C4 (amended): the uploader takes the declared type of the file, or the
    type sniffed from the file name when the declared type is absent (or
    empty) or is "application/octet-stream" and the sniffer finds one. It
    fails with the unknown-MIME-type error, without any remote call, exactly
    when the declared type is absent and the sniffer finds nothing. A file
    declared "application/octet-stream" for which the sniffer finds nothing
    is submitted under that type. *)
Theorem upload_mime_resolution (env : Env) (work : WorkInput)
    (obj : UploadedFile) (w : World) :
  uploaded_file_obj work = Some obj →
  let declared := uf_type obj in
  let guessed := guess_type env (uf_name obj) in
  (resolve_mime_type env obj =
     if Py.truthy_opt declared
        && negb (bool_decide (declared = Some "application/octet-stream"))
     then declared
     else if Py.truthy_opt guessed then guessed else declared) ∧
  (Py.truthy_opt (resolve_mime_type env obj) = false ↔
     Py.truthy_opt declared = false ∧ Py.truthy_opt guessed = false) ∧
  (Py.truthy_opt (resolve_mime_type env obj) = false →
     upload_to_gemini env work w = (Ok None, shown ErrMimeUnknown w)) ∧
  (Py.truthy_opt (resolve_mime_type env obj) = true →
     ∃ tail, trace (upload_to_gemini env work w).2 =
       trace w ++
         EShow (StUploading (String.substring 0 128 (get_display_title work)))
         :: EUploadFile (String.substring 0 128 (get_display_title work))
              (default "" (resolve_mime_type env obj))
         :: tail) ∧
  (declared = Some "application/octet-stream" →
     Py.truthy_opt guessed = false →
     resolve_mime_type env obj = Some "application/octet-stream").
Proof.
  intros Hobj declared guessed.
  assert (Hres : resolve_mime_type env obj =
     if Py.truthy_opt declared
        && negb (bool_decide (declared = Some "application/octet-stream"))
     then declared
     else if Py.truthy_opt guessed then guessed else declared).
  { unfold resolve_mime_type. fold declared guessed.
    destruct (Py.truthy_opt declared), (bool_decide _); done. }
  split; [exact Hres|]. split; [|split; [|split]].
  - rewrite Hres.
    destruct (bool_decide_reflect (declared = Some "application/octet-stream"))
      as [Hg|Hg].
    + rewrite Hg. cbn [Py.truthy_opt Py.truthy andb negb].
      destruct (Py.truthy_opt guessed) eqn:Hs.
      * rewrite Hs. split; [done|by intros [? ?]].
      * split; [done|by intros [? ?]].
    + cbn [negb]. rewrite andb_true_r.
      destruct (Py.truthy_opt declared) eqn:Hd.
      * rewrite Hd. split; [done|by intros [? ?]].
      * destruct (Py.truthy_opt guessed) eqn:Hs.
        -- rewrite Hs. split; [done|by intros [? ?]].
        -- by rewrite Hd.
  - intros Hnone. unfold upload_to_gemini. by rewrite Hobj, Hnone.
  - intros Hsome. by apply upload_to_gemini_submits.
  - intros Hgen Hs. rewrite Hres. rewrite Hgen, Hs.
    by rewrite bool_decide_eq_true_2.
Qed.

Lemma upload_mime_resolution_witness :
  let env := store (λ _, "ACTIVE") (λ _, None) (λ _, inr "") in
  resolve_mime_type env (mkUploadedFile (Some "application/octet-stream") "a.png")
    = Some "image/png" ∧
  upload_to_gemini env (image_work None "blob") w0 = (Ok None, shown ErrMimeUnknown w0).
Proof.
  split; [reflexivity|].
  apply (upload_mime_resolution
           (store (λ _, "ACTIVE") (λ _, None) (λ _, inr ""))
           (image_work None "blob") (mkUploadedFile None "blob") w0 eq_refl).
  reflexivity.
Defined.

(** ** Running the monad *)

Lemma bind_ret {A B} (a : A) (k : A → M B) w : bind (ret a) k w = k a w.
Proof. reflexivity. Qed.

Lemma bind_show {A} m (k : unit → M A) w : bind (show m) k w = k tt (shown m w).
Proof. reflexivity. Qed.

Lemma bind_record {A} c (k : unit → M A) w :
  bind (record c) k w = k tt (recorded c w).
Proof. reflexivity. Qed.

Lemma bind_generate {A} env contents timeout (k : string → M A) w :
  bind (model_generate_content env contents timeout) k w =
  match generate_content env (n_generate w) with
  | inr response => k response (generated env contents timeout w)
  | inl e => (Raise e, generated env contents timeout w)
  end.
Proof.
  unfold bind, model_generate_content, generated.
  by destruct (generate_content env (n_generate w)).
Qed.

Lemma bind_delete {A} env name (k : unit → M A) w :
  bind (genai_delete_file env name) k w =
  match delete_file env (n_delete w) with
  | None => k tt (deleted env name w)
  | Some e => (Raise e, deleted env name w)
  end.
Proof.
  unfold bind, genai_delete_file, deleted.
  by destruct (delete_file env (n_delete w)).
Qed.

Lemma run_show m w : show m w = (Ok tt, shown m w).
Proof. reflexivity. Qed.

Lemma run_record c w : record c w = (Ok tt, recorded c w).
Proof. reflexivity. Qed.

Lemma run_ret {A} (a : A) w : ret a w = (Ok a, w).
Proof. reflexivity. Qed.

Lemma shown_fields m w :
  clock (shown m w) = clock w ∧ n_upload (shown m w) = n_upload w ∧
  n_get (shown m w) = n_get w ∧ n_delete (shown m w) = n_delete w ∧
  n_generate (shown m w) = n_generate w ∧ calls (shown m w) = calls w ∧
  trace (shown m w) = trace w ++ [EShow m].
Proof. done. Qed.

Lemma trace_shown m w : trace (shown m w) = trace w ++ [EShow m].
Proof. done. Qed.
Lemma calls_shown m w : calls (shown m w) = calls w.
Proof. done. Qed.
Lemma n_generate_shown m w : n_generate (shown m w) = n_generate w.
Proof. done. Qed.
Lemma n_delete_shown m w : n_delete (shown m w) = n_delete w.
Proof. done. Qed.
Lemma n_upload_shown m w : n_upload (shown m w) = n_upload w.
Proof. done. Qed.

Lemma trace_recorded c w : trace (recorded c w) = trace w.
Proof. done. Qed.
Lemma calls_recorded c w : calls (recorded c w) = calls w ++ [c].
Proof. done. Qed.
Lemma n_generate_recorded c w : n_generate (recorded c w) = n_generate w.
Proof. done. Qed.
Lemma n_delete_recorded c w : n_delete (recorded c w) = n_delete w.
Proof. done. Qed.
Lemma n_upload_recorded c w : n_upload (recorded c w) = n_upload w.
Proof. done. Qed.

Lemma trace_generated env c t w :
  trace (generated env c t w) = trace w ++ [EGenerateContent c t].
Proof. done. Qed.
Lemma calls_generated env c t w : calls (generated env c t w) = calls w.
Proof. done. Qed.
Lemma n_generate_generated env c t w :
  n_generate (generated env c t w) = S (n_generate w).
Proof. done. Qed.
Lemma n_delete_generated env c t w : n_delete (generated env c t w) = n_delete w.
Proof. done. Qed.
Lemma n_upload_generated env c t w : n_upload (generated env c t w) = n_upload w.
Proof. done. Qed.

Lemma trace_deleted env name w :
  trace (deleted env name w) = trace w ++ [EDeleteFile name].
Proof. done. Qed.
Lemma calls_deleted env name w : calls (deleted env name w) = calls w.
Proof. done. Qed.
Lemma n_generate_deleted env name w : n_generate (deleted env name w) = n_generate w.
Proof. done. Qed.
Lemma n_delete_deleted env name w : n_delete (deleted env name w) = S (n_delete w).
Proof. done. Qed.
Lemma n_upload_deleted env name w : n_upload (deleted env name w) = n_upload w.
Proof. done. Qed.

Create Rewrite HintDb world.
#[global] Hint Rewrite
  trace_shown calls_shown n_generate_shown n_delete_shown n_upload_shown
  trace_recorded calls_recorded n_generate_recorded n_delete_recorded
  n_upload_recorded
  trace_generated calls_generated n_generate_generated n_delete_generated
  n_upload_generated
  trace_deleted calls_deleted n_generate_deleted n_delete_deleted
  n_upload_deleted : world.

Global Opaque shown recorded generated deleted.

(** Steps a goal or hypothesis through the binds at its head. *)
Ltac step :=
  first
    [ rewrite bind_show
    | rewrite bind_record
    | rewrite bind_ret
    | rewrite bind_generate
    | rewrite bind_delete
    | rewrite run_show
    | rewrite run_record
    | rewrite run_ret ].

(** Brings a trace to the form [prefix ++ [e1; ...; en]]. *)
Ltac norm_trace :=
  autorewrite with world; rewrite <- ?app_assoc; cbn [app].

(** ** Cleanup of the remote file *)

(** The handler of [generate_analysis] returns [None] and makes no remote
    call. *)
Lemma analysis_failed_run e w :
  ∃ w', analysis_failed e w = (Ok None, w') ∧
        n_delete w' = n_delete w ∧ n_generate w' = n_generate w ∧
        n_upload w' = n_upload w ∧ calls w' = calls w ∧
        ∃ msgs, trace w' = trace w ++ (EShow <$> msgs).
Proof.
  unfold analysis_failed. do 3 step.
  destruct e as [| | | |msg [resp|]]; try step.
  all: try (step; eexists; split; [reflexivity|]; norm_trace;
            repeat split; by eexists [_; _; _]).
  destruct (Py.truthy_opt (prompt_feedback resp));
    [|destruct (bool_decide (candidates resp = Some 0%nat))];
    repeat step; eexists; (split; [reflexivity|]); norm_trace; repeat split.
  - by eexists [_; _; _; _].
  - by eexists [_; _; _; _].
  - by eexists [_; _; _].
Qed.

Lemma count_delete_shown msgs : count is_delete (EShow <$> msgs) = 0%nat.
Proof. induction msgs as [|m msgs IH]; [done|exact IH]. Qed.

Lemma count_generate_shown msgs : count is_generate (EShow <$> msgs) = 0%nat.
Proof. induction msgs as [|m msgs IH]; [done|exact IH]. Qed.

Lemma count_upload_shown msgs : count is_upload (EShow <$> msgs) = 0%nat.
Proof. induction msgs as [|m msgs IH]; [done|exact IH]. Qed.

Lemma cleanup_file_some env f w :
  cleanup_file env (Some f) w =
  (Ok tt, shown match delete_file env (n_delete w) with
                | Some e => LogDeleteFailed e
                | None => LogCleanedUp (rf_name f)
                end (deleted env (rf_name f) w)).
Proof.
  unfold cleanup_file, try_except. rewrite bind_delete.
  by destruct (delete_file env (n_delete w)).
Qed.

(** X5: when the uploader returns a handle, the attempt deletes it exactly
    once, as its last remote call, whether the generation calls succeed or
    fail; what the attempt returns is read off the generation calls alone,
    so a failed deletion, which is logged, does not change it. *)
Lemma generate_analysis_deletes_returned_handle env lens_keyword work w f w1 :
  is_media (modality work) = true →
  upload_to_gemini env work w = (Ok (Some f), w1) →
  ∃ w' w2,
    generate_analysis env lens_keyword work w
      = (Ok (two_tier_result env (n_generate w1)), w') ∧
    n_delete w2 = n_delete w1 ∧
    (∃ tail, trace w2 = trace w1 ++ tail ∧ count is_delete tail = 0%nat) ∧
    trace w' = trace w2 ++
      [EDeleteFile (rf_name f);
       EShow match delete_file env (n_delete w1) with
             | Some e => LogDeleteFailed e
             | None => LogCleanedUp (rf_name f)
             end].
Proof.
  intros Hmedia Hup.
  unfold generate_analysis, try_except_finally, two_tier_result.
  rewrite Hmedia, Hup. cbn [andb].
  rewrite bool_decide_eq_false_2 by done.
  assert (Htext : modality work ≠ M_TEXT) by (by destruct (modality work)).
  rewrite !decide_False by done.
  do 2 step. autorewrite with world.
  destruct (generate_content env (n_generate w1)) as [e1|s1].
  - match goal with |- context [analysis_failed e1 ?w] =>
      destruct (analysis_failed_run e1 w)
        as (w2 & -> & Hd & _ & _ & _ & msgs & Ht) end.
    rewrite cleanup_file_some. rewrite Hd. autorewrite with world.
    eexists _, w2. split; [reflexivity|]. split; [by rewrite Hd; autorewrite with world|].
    split; [|by norm_trace].
    eexists. rewrite Ht. norm_trace. split; [reflexivity|].
    exact (count_delete_shown msgs).
  - do 4 step. autorewrite with world.
    destruct (generate_content env (S (n_generate w1))) as [e2|s2].
    + match goal with |- context [analysis_failed e2 ?w] =>
        destruct (analysis_failed_run e2 w)
          as (w2 & -> & Hd & _ & _ & _ & msgs & Ht) end.
      rewrite cleanup_file_some. rewrite Hd. autorewrite with world.
      eexists _, w2. split; [reflexivity|].
      split; [by rewrite Hd; autorewrite with world|].
      split; [|by norm_trace].
      eexists. rewrite Ht. norm_trace. split; [reflexivity|].
      change (count is_delete (_ :: _ :: _ :: _ :: _ :: _ :: ?l))
        with (count is_delete l).
      apply count_delete_shown.
    + do 2 step.
      match goal with |- context [cleanup_file env (Some f) ?w] => set (wc := w) end.
      rewrite cleanup_file_some.
      eexists _, wc. split; [by subst wc; autorewrite with world|].
      split; [by subst wc; autorewrite with world|].
      split; [|by subst wc; norm_trace].
      eexists. subst wc. norm_trace. split; [reflexivity|]. done.
Qed.

(** C1: an attempt whose upload step fails after the store has created the
    file does not delete it. The store below creates the file and then
    reports the state "FAILED" (first run) or never leaves "PROCESSING"
    (second run): [upload_to_gemini] returns [None], the handle is lost, the
    [finally] block of [generate_analysis] finds [gemini_file] empty, and
    the attempt ends with one file uploaded and none deleted. *)
Theorem generate_analysis_leaks_failed_upload :
  let work := image_work (Some "image/png") "ruins.png" in
  ((generate_analysis failing "Jungian" work w0).1 = Ok None ∧
   count is_upload (trace (generate_analysis failing "Jungian" work w0).2) = 1%nat ∧
   count is_delete (trace (generate_analysis failing "Jungian" work w0).2) = 0%nat) ∧
  ((generate_analysis stuck "Jungian" work w0).1 = Ok None ∧
   count is_upload (trace (generate_analysis stuck "Jungian" work w0).2) = 1%nat ∧
   count is_delete (trace (generate_analysis stuck "Jungian" work w0).2) = 0%nat).
Proof. by vm_compute. Qed.

(** On the same store, an upload that succeeds is deleted once. *)
Example generate_analysis_deletes_active_upload :
  let work := image_work (Some "image/png") "ruins.png" in
  let env := store (λ _, "ACTIVE") (λ _, Some (Exception "gone" None))
               (λ _, inl (Exception "blocked" None)) in
  (generate_analysis env "Jungian" work w0).1 = Ok None ∧
  filter (λ e, is_delete e = true) (trace (generate_analysis env "Jungian" work w0).2)
    = [EDeleteFile "files/abc"].
Proof. by vm_compute. Qed.

(** ** Text works *)

Lemma direct_analysis_failed_run e w :
  ∃ w', Direct.analysis_failed e w = (Ok None, w') ∧
        ∃ msgs, trace w' = trace w ++ (EShow <$> msgs).
Proof.
  unfold Direct.analysis_failed. do 2 step.
  destruct e as [| | | |msg [resp|]]; try step.
  all: try (step; eexists; split; [reflexivity|]; norm_trace; by eexists [_; _]).
  destruct (Py.truthy_opt (prompt_feedback resp));
    repeat step; eexists; (split; [reflexivity|]); norm_trace.
  - by eexists [_; _; _].
  - by eexists [_; _].
Qed.

Lemma count_get_shown msgs : count is_get (EShow <$> msgs) = 0%nat.
Proof. induction msgs as [|m msgs IH]; [done|exact IH]. Qed.

Lemma remote_calls_shown msgs : remote_calls (EShow <$> msgs) = (0, 0, 0, 0)%nat.
Proof.
  unfold remote_calls.
  by rewrite count_upload_shown, count_get_shown, count_delete_shown,
    count_generate_shown.
Qed.

Lemma remote_calls_cons_show m l : remote_calls (EShow m :: l) = remote_calls l.
Proof. reflexivity. Qed.

Lemma remote_calls_cons_generate contents timeout l :
  remote_calls (EGenerateContent contents timeout :: l) =
  (count is_upload l, count is_get l, count is_delete l, S (count is_generate l)).
Proof. reflexivity. Qed.

Lemma is_media_text : is_media M_TEXT = false.
Proof. reflexivity. Qed.

(** C8, as it is worded, fails when the strategy-design call fails: the
    execution call is not issued. *)
Lemma text_strategy_failure_one_generation :
  let env := store (λ _, "ACTIVE") (λ _, None)
               (λ _, inl (Exception "blocked" None)) in
  remote_calls (trace (generate_analysis env "Existentialist" text_work w0).2)
    = (0, 0, 0, 1)%nat ∧
  ¬ text_takes_two_generations env "Existentialist" text_work w0.
Proof.
  split; [by vm_compute|].
  intros H. specialize (H eq_refl). vm_compute in H. discriminate.
Qed.

(** C8 (amended): for a text work, the analysis makes no upload, read or
    deletion call. In two-tier mode it issues the strategy-design call and,
    when that call returns text, the execution call: two generation calls,
    or one when the first fails. In direct mode, for a lens key of the
    flattened index, it issues exactly one generation call. In both modes
    it returns the text of the last call, or [None] when a call failed. *)
Theorem text_analysis_calls (env : Env) (lens_keyword : string)
    (work : WorkInput) (w : World)
    (FLATTENED_LENSES : gmap string string) (base_prompt : string) :
  modality work = M_TEXT →
  FLATTENED_LENSES !! lens_keyword = Some base_prompt →
  (∃ w' tail,
     generate_analysis env lens_keyword work w
       = (Ok (two_tier_result env (n_generate w)), w') ∧
     trace w' = trace w ++ tail ∧
     remote_calls tail =
       (0, 0, 0, match generate_content env (n_generate w) with
                 | inl _ => 1
                 | inr _ => 2
                 end)%nat) ∧
  (∃ w' tail,
     Direct.generate_analysis env FLATTENED_LENSES lens_keyword work w
       = (Ok match generate_content env (n_generate w) with
             | inl _ => None
             | inr response => Some response
             end, w') ∧
     trace w' = trace w ++ tail ∧
     remote_calls tail = (0, 0, 0, 1)%nat).
Proof.
  intros Htext Hkey. split.
  - unfold generate_analysis, try_except_finally, two_tier_result.
    rewrite Htext, is_media_text.
    cbn [andb]. rewrite run_ret. rewrite !decide_True by done.
    do 2 step. autorewrite with world.
    destruct (generate_content env (n_generate w)) as [e1|s1].
    + match goal with |- context [analysis_failed e1 ?w] =>
        destruct (analysis_failed_run e1 w)
          as (w2 & -> & _ & _ & _ & _ & msgs & Ht) end.
      cbn [cleanup_file]. rewrite run_ret.
      eexists _, _. split; [reflexivity|]. rewrite Ht. norm_trace.
      split; [reflexivity|].
      rewrite !remote_calls_cons_show, !remote_calls_cons_generate.
      by rewrite count_upload_shown, count_get_shown, count_delete_shown,
        count_generate_shown.
    + do 4 step. autorewrite with world.
      destruct (generate_content env (S (n_generate w))) as [e2|s2].
      * match goal with |- context [analysis_failed e2 ?w] =>
          destruct (analysis_failed_run e2 w)
            as (w2 & -> & _ & _ & _ & _ & msgs & Ht) end.
        cbn [cleanup_file]. rewrite run_ret.
        eexists _, _. split; [reflexivity|]. rewrite Ht. norm_trace.
        split; [reflexivity|].
        rewrite remote_calls_cons_show, remote_calls_cons_generate.
        change (count ?p (EShow ?a :: EShow ?b :: EShow ?c
                            :: EGenerateContent ?x ?y :: ?l))
          with (count p (EGenerateContent x y :: l)).
        change (count is_generate (EGenerateContent ?x ?y :: ?l))
          with (S (count is_generate l)).
        change (count is_upload (EGenerateContent ?x ?y :: ?l))
          with (count is_upload l).
        change (count is_get (EGenerateContent ?x ?y :: ?l))
          with (count is_get l).
        change (count is_delete (EGenerateContent ?x ?y :: ?l))
          with (count is_delete l).
        by rewrite count_upload_shown, count_get_shown, count_delete_shown,
          count_generate_shown.
      * do 2 step. cbn [cleanup_file]. rewrite run_ret.
        eexists _, _. split; [reflexivity|]. norm_trace.
        split; [reflexivity|]. reflexivity.
  - unfold Direct.generate_analysis, try_except_finally.
    rewrite Hkey, Htext, is_media_text.
    cbn [andb]. rewrite run_ret.
    do 2 step. autorewrite with world.
    destruct (generate_content env (n_generate w)) as [e1|s1].
    + match goal with |- context [Direct.analysis_failed e1 ?w] =>
        destruct (direct_analysis_failed_run e1 w) as (w2 & -> & msgs & Ht) end.
      cbn [cleanup_file]. rewrite run_ret.
      eexists _, _. split; [reflexivity|]. rewrite Ht. norm_trace.
      split; [reflexivity|].
      rewrite !remote_calls_cons_show, !remote_calls_cons_generate.
      by rewrite count_upload_shown, count_get_shown, count_delete_shown,
        count_generate_shown.
    + do 2 step. cbn [cleanup_file]. rewrite run_ret.
      eexists _, _. split; [reflexivity|]. norm_trace.
      split; [reflexivity|]. reflexivity.
Qed.

Lemma text_analysis_calls_witness :
  let env := store (λ _, "ACTIVE") (λ _, None) (λ _, inr "analysis") in
  ∃ w' tail,
    generate_analysis env "Existentialist" text_work w0
      = (Ok (Some "analysis"), w') ∧
    trace w' = trace w0 ++ tail ∧
    remote_calls tail = (0, 0, 0, 2)%nat.
Proof.
  apply (text_analysis_calls
           (store (λ _, "ACTIVE") (λ _, None) (λ _, inr "analysis"))
           "Existentialist" text_work w0
           {["Existentialist" := "Analyze the work as an existentialist."]}
           "Analyze the work as an existentialist.").
  - reflexivity.
  - by vm_compute.
Defined.

Lemma upload_to_gemini_polling_witness :
  let work := image_work (Some "image/png") "ruins.png" in
  (∃ w', upload_to_gemini two_polls work w0 = (Ok (Some (handle "ACTIVE")), w') ∧
         n_get w' = 2%nat) ∧
  (∃ w', upload_to_gemini stuck work w0 = (Ok None, w') ∧
         last (trace w') = Some (EShow ErrUploadTimedOut)) ∧
  (∃ w', upload_to_gemini failing work w0 = (Ok None, w') ∧
         last (trace w') = Some (EShow (ErrProcessingFailed "FAILED"))).
Proof.
  intros work. split; [|split].
  - destruct (upload_to_gemini_polling two_polls work
                (mkUploadedFile (Some "image/png") "ruins.png")
                (handle "PROCESSING") w0 eq_refl eq_refl eq_refl) as [Ha _].
    destruct (Ha (handle "PROCESSING") (handle "ACTIVE")
                eq_refl eq_refl eq_refl eq_refl eq_refl) as (w' & Hrun & _ & Hn).
    { by vm_compute. }
    exists w'. split; [exact Hrun|exact Hn].
  - destruct (upload_to_gemini_polling stuck work
                (mkUploadedFile (Some "image/png") "ruins.png")
                (handle "PROCESSING") w0 eq_refl eq_refl eq_refl) as (_ & Hb & _).
    destruct (Hb eq_refl) as (w' & tail & Hrun & Htrace & _).
    { intros k. exists (handle "PROCESSING"). split; reflexivity. }
    exists w'. split; [exact Hrun|].
    rewrite Htrace. rewrite !app_assoc. apply last_snoc.
  - destruct (upload_to_gemini_polling failing work
                (mkUploadedFile (Some "image/png") "ruins.png")
                (handle "PROCESSING") w0 eq_refl eq_refl eq_refl) as (_ & _ & Hc).
    edestruct (Hc (handle "FAILED")) as [_ Hrun]; [by vm_compute|].
    eexists. split; [exact Hrun|]. by vm_compute.
Defined.

(** ** Pipelines *)

Lemma quiet_ok_quiet {A} (m : M A) : quiet_ok m → quiet m.
Proof. intros H w. destruct (H w) as (a & w' & -> & Hc). by eexists _, _. Qed.

Lemma quiet_ok_ret {A} (a : A) : quiet_ok (ret a).
Proof. intros w. by eexists _, _. Qed.

Lemma quiet_ok_show m : quiet_ok (show m).
Proof. intros w. by eexists _, _. Qed.

Lemma quiet_raise {A} e : quiet (@raise A e).
Proof. intros w. by eexists _, _. Qed.

Lemma quiet_generate env contents timeout :
  quiet (model_generate_content env contents timeout).
Proof.
  intros w. unfold model_generate_content.
  destruct (generate_content env (n_generate w)); by eexists _, _.
Qed.

Lemma quiet_delete env name : quiet (genai_delete_file env name).
Proof.
  intros w. unfold genai_delete_file.
  destruct (delete_file env (n_delete w)); by eexists _, _.
Qed.

Lemma quiet_bind {A B} (m : M A) (k : A → M B) :
  quiet m → (∀ a, quiet (k a)) → quiet (bind m k).
Proof.
  intros Hm Hk w. unfold bind.
  destruct (Hm w) as ([a|e|] & w1 & -> & Hr & Hc); [|by eexists _, _|done].
  destruct (Hk a w1) as (r & w2 & -> & Hr2 & Hc2).
  eexists _, _. split; [done|]. split; [done|]. congruence.
Qed.

Lemma quiet_ok_bind {A B} (m : M A) (k : A → M B) :
  quiet_ok m → (∀ a, quiet_ok (k a)) → quiet_ok (bind m k).
Proof.
  intros Hm Hk w. unfold bind.
  destruct (Hm w) as (a & w1 & -> & Hc).
  destruct (Hk a w1) as (b & w2 & -> & Hc2).
  eexists _, _. split; [done|]. congruence.
Qed.

Lemma quiet_ok_try_except {A} (body : M A) (handler : Exn → M A) :
  quiet body → (∀ e, quiet_ok (handler e)) → quiet_ok (try_except body handler).
Proof.
  intros Hb Hh w. unfold try_except.
  destruct (Hb w) as ([a|e|] & w1 & -> & Hr & Hc); [by eexists _, _| |done].
  destruct (Hh e w1) as (b & w2 & -> & Hc2).
  eexists _, _. split; [done|]. congruence.
Qed.

Lemma quiet_ok_try_except_finally {L A} (init : L) (assign : M L)
    (rest : L → M A) (handler : Exn → M A) (cleanup : L → M unit) :
  quiet_ok assign → (∀ x, quiet (rest x)) → (∀ e, quiet_ok (handler e)) →
  (∀ x, quiet_ok (cleanup x)) →
  quiet_ok (try_except_finally init assign rest handler cleanup).
Proof.
  intros Ha Hr Hh Hc w. unfold try_except_finally.
  destruct (Ha w) as (x & w1 & -> & Hc1).
  destruct (Hr x w1) as ([a|e|] & w2 & -> & Hne & Hc2); [| |done].
  - destruct (Hc x w2) as ([] & w3 & -> & Hc3).
    eexists _, _. split; [done|]. congruence.
  - destruct (Hh e w2) as (b & w3 & -> & Hc3).
    destruct (Hc x w3) as ([] & w4 & -> & Hc4).
    eexists _, _. split; [done|]. congruence.
Qed.

Section Quiet.

Variable env : Env.

Local Arguments poll_processing : simpl never.

Lemma poll_calls fuel start f w :
  calls (poll_processing env fuel start f w).2 = calls w.
Proof.
  revert f w. induction fuel as [|fuel IH]; intros f w; rewrite poll_unfold;
    repeat case_decide; try done.
  destruct (get_file env (n_get w)) as [e|f']; [done|]. by rewrite IH.
Qed.

Lemma quiet_ok_upload_to_gemini work : quiet_ok (upload_to_gemini env work).
Proof.
  intros w. destruct (upload_to_gemini_returns env work w) as (r & w' & Hrun).
  exists r, w'. split; [done|].
  replace w' with (upload_to_gemini env work w).2 by (by rewrite Hrun).
  clear Hrun. unfold upload_to_gemini.
  destruct (uploaded_file_obj work) as [obj|] eqn:Hobj; [|done].
  destruct (Py.truthy_opt (resolve_mime_type env obj)) eqn:Hmime; [|done].
  cbn [negb].
  destruct (upload_file env (n_upload w)) as [e|f0] eqn:Hup.
  - unfold try_except, bind, show, emit, genai_upload_file, ret.
    cbn [n_upload]. rewrite Hup. cbn [of_sum]. by destruct e.
  - pose proof (upload_to_gemini_submitted env work obj f0 w Hobj Hmime Hup) as Hrun.
    cbv zeta in Hrun. unfold upload_to_gemini in Hrun.
    rewrite Hobj, Hmime in Hrun. cbn [negb] in Hrun. rewrite Hrun. clear Hrun.
    set (w1 := submitted _ _ _ _ _).
    pose proof (poll_calls poll_fuel (clock w1) f0 w1) as Hcalls.
    destruct (poll_processing env poll_fuel (clock w1) f0 w1) as [[f|e|] w2];
      cbn [snd] in Hcalls.
    + repeat case_decide; cbn [snd]; by rewrite calls_shown.
    + destruct e; cbn [snd]; by rewrite ?calls_shown.
    + done.
Qed.

Lemma quiet_ok_analysis_failed e : quiet_ok (analysis_failed e).
Proof.
  intros w. destruct (analysis_failed_run e w) as (w' & -> & _ & _ & _ & Hc & _).
  by eexists _, _.
Qed.

Lemma quiet_ok_cleanup_file x : quiet_ok (cleanup_file env x).
Proof.
  destruct x as [f|]; [|apply quiet_ok_ret].
  apply quiet_ok_try_except.
  - apply quiet_bind; [apply quiet_delete|].
    intros _. apply quiet_ok_quiet, quiet_ok_show.
  - intros e. apply quiet_ok_show.
Qed.

(** An analysis attempt always returns: the text, or [None]. *)
Lemma quiet_ok_generate_analysis lens_keyword work :
  quiet_ok (generate_analysis env lens_keyword work).
Proof.
  apply quiet_ok_try_except_finally.
  - destruct (is_media (modality work));
      [apply quiet_ok_upload_to_gemini|apply quiet_ok_ret].
  - intros gemini_file. destruct (_ && _).
    + apply quiet_ok_quiet, quiet_ok_bind; [apply quiet_ok_show|].
      intros _. apply quiet_ok_ret.
    + repeat first
        [ apply quiet_bind; [|intros ?]
        | apply quiet_generate
        | apply quiet_ok_quiet, quiet_ok_show
        | apply quiet_ok_quiet, quiet_ok_ret ].
  - apply quiet_ok_analysis_failed.
  - apply quiet_ok_cleanup_file.
Qed.

Lemma quiet_ok_synthesis prompt timeout :
  quiet_ok (try_except
              (let* response := model_generate_content env [PPrompt prompt] timeout in
               ret (Some response))
              (fun e => let* _ := show (ErrSynthesis e) in ret None)).
Proof.
  apply quiet_ok_try_except.
  - apply quiet_bind; [apply quiet_generate|].
    intros ?. apply quiet_ok_quiet, quiet_ok_ret.
  - intros e. apply quiet_ok_bind; [apply quiet_ok_show|].
    intros _. apply quiet_ok_ret.
Qed.

(** An analysis call adds its own entry to the history, and nothing else. *)
Lemma call_analysis_run lens_keyword work w :
  ∃ r w', call_analysis env lens_keyword work w = (Ok r, w') ∧
          calls w' = calls w ++ [CAnalysis lens_keyword work r].
Proof.
  unfold call_analysis, bind.
  destruct (quiet_ok_generate_analysis lens_keyword work w) as (r & w1 & -> & Hc).
  rewrite run_record. exists r. eexists. split; [reflexivity|].
  by rewrite calls_recorded, Hc.
Qed.

End Quiet.

Lemma pipeline_shape_final cs : pipeline_shape cs → failure_is_final cs.
Proof.
  intros (oks & tail & -> & Hoks & Htail) pre c post.
  revert pre. induction Hoks as [|o oks [Ho1 Ho2] Hoks IH]; intros pre Heq Hc.
  - destruct pre as [|p pre]; simpl in *.
    + destruct tail as [|t [|t' tail]]; simplify_eq/=; [done|lia].
    + destruct tail as [|t [|t' tail]]; simplify_eq/=; [by destruct pre|lia].
  - destruct pre as [|p pre]; simplify_eq/=; [congruence|].
    destruct (IH pre) as [-> Hpre]; [done..|].
    split; [done|]. by constructor.
Qed.

Lemma pipeline_shape_nil : pipeline_shape [].
Proof. exists [], []. repeat split; [constructor|simpl; lia]. Qed.

Lemma pipeline_shape_one c : pipeline_shape [c].
Proof. exists [], [c]. repeat split; [constructor|simpl; lia]. Qed.

Lemma pipeline_shape_cons c cs :
  is_analysis c = true → failed_analysis c = false →
  pipeline_shape cs → pipeline_shape (c :: cs).
Proof.
  intros H1 H2 (oks & tail & -> & Hoks & Htail).
  exists (c :: oks), tail. repeat split; [by constructor|done].
Qed.

Lemma bind_run {A B} (m : M A) (k : A → M B) w a w' :
  m w = (Ok a, w') → bind m k w = k a w'.
Proof. intros H. unfold bind. by rewrite H. Qed.

Lemma bind_bind {A B C} (m : M A) (f : A → M B) (k : B → M C) w :
  bind (bind m f) k w = bind m (λ a, bind (f a) k) w.
Proof. unfold bind. by destruct (m w) as [[a|e|] w']. Qed.

Lemma bind_raise {A B} e (k : A → M B) w : bind (raise e) k w = (Raise e, w).
Proof. reflexivity. Qed.

Section Pipelines.

Variable env : Env.

Lemma run_single_calls lens_keyword work w :
  ∃ r w' cs, run_single env lens_keyword work w = (r, w') ∧
    calls w' = calls w ++ cs ∧ pipeline_shape cs ∧
    Forall (λ c, is_analysis c = true) cs.
Proof.
  unfold run_single.
  destruct (call_analysis_run env lens_keyword work w) as (r & w1 & Hrun & Hc).
  rewrite (bind_run _ _ _ _ _ Hrun).
  exists (Ok tt). destruct (Py.truthy_opt r).
  - rewrite run_show. eexists _, _. split; [reflexivity|].
    rewrite calls_shown. split; [done|].
    split; [apply pipeline_shape_one|by repeat constructor].
  - rewrite run_ret. eexists _, _. split; [reflexivity|]. split; [done|].
    split; [apply pipeline_shape_one|by repeat constructor].
Qed.

Lemma synthesis_run prompt timeout w :
  ∃ r w',
    try_except
      (let* response := model_generate_content env [PPrompt prompt] timeout in
       ret (Some response))
      (fun e => let* _ := show (ErrSynthesis e) in ret None) w = (Ok r, w') ∧
    calls w' = calls w.
Proof. apply quiet_ok_synthesis. Qed.

Lemma run_dialectical_calls selection work w :
  ∃ r w' cs, run_dialectical env selection work w = (r, w') ∧
    calls w' = calls w ++ cs ∧ pipeline_shape cs ∧
    Forall (dialectical_call selection) cs.
Proof.
  unfold run_dialectical, index.
  destruct (selection !! 0%nat) as [a|] eqn:Ha;
    [rewrite bind_ret|rewrite bind_raise; eexists _, _, []; rewrite app_nil_r;
                      repeat split; [apply pipeline_shape_nil|constructor]].
  destruct (selection !! 1%nat) as [b|] eqn:Hb;
    [rewrite bind_ret|rewrite bind_raise; eexists _, _, []; rewrite app_nil_r;
                      repeat split; [apply pipeline_shape_nil|constructor]].
  rewrite bind_show.
  match goal with |- context [bind (call_analysis env a work) _ ?w0] =>
    destruct (call_analysis_run env a work w0) as (ra & w1 & Hrun1 & Hc1) end.
  rewrite (bind_run _ _ _ _ _ Hrun1). rewrite calls_shown in Hc1.
  destruct (Py.truthy_opt ra) eqn:Hra; cbn [andb].
  - rewrite bind_bind, bind_show.
    match goal with |- context [bind (call_analysis env b work) _ ?w0] =>
      destruct (call_analysis_run env b work w0) as (rb & w2 & Hrun2 & Hc2) end.
    rewrite (bind_run _ _ _ _ _ Hrun2). rewrite calls_shown, Hc1 in Hc2.
    destruct (Py.truthy_opt rb) eqn:Hrb.
    + rewrite bind_show. unfold generate_dialectical_synthesis.
      match goal with |- context [bind _ _ ?w0] =>
        destruct (synthesis_run
                    (DialecticalPrompt a (default "" ra) b (default "" rb)
                       (get_display_title work)) 600 w0)
          as (rs & w3 & Hrun3 & Hc3) end.
      cbv zeta. rewrite (bind_run _ _ _ _ _ Hrun3). rewrite bind_record.
      rewrite calls_shown, Hc2 in Hc3.
      assert (Hfinal : ∀ w4, calls w4 = calls (recorded (CDialectical a b rs) w3) →
                calls w4 = calls w ++ [CAnalysis a work ra; CAnalysis b work rb;
                                       CDialectical a b rs]).
      { intros w4 ->. rewrite calls_recorded, Hc3, <- !app_assoc. done. }
      destruct (Py.truthy_opt rs); [rewrite run_show|rewrite run_ret];
        (eexists _, _, _; split; [reflexivity|];
         split; [apply Hfinal; by rewrite ?calls_shown|];
         split; [apply pipeline_shape_cons; [done|by cbn; rewrite Hra|];
                 apply pipeline_shape_cons; [done|by cbn; rewrite Hrb|];
                 apply pipeline_shape_one|by repeat constructor]).
    + rewrite run_show. eexists _, _, [CAnalysis a work ra; CAnalysis b work rb].
      split; [reflexivity|]. rewrite calls_shown, Hc2, <- app_assoc.
      split; [done|].
      split; [apply pipeline_shape_cons; [done|by cbn; rewrite Hra|];
              apply pipeline_shape_one|by repeat constructor].
  - rewrite bind_ret. cbn [Py.truthy_opt andb]. rewrite run_show.
    eexists _, _, [CAnalysis a work ra]. split; [reflexivity|].
    rewrite calls_shown. split; [done|].
    split; [apply pipeline_shape_one|by repeat constructor].
Qed.

Lemma run_comparative_calls lens_name work_a work_b w :
  ∃ r w' cs, run_comparative env lens_name work_a work_b w = (r, w') ∧
    calls w' = calls w ++ cs ∧ pipeline_shape cs ∧
    Forall comparative_call cs.
Proof.
  unfold run_comparative.
  rewrite bind_show.
  match goal with |- context [bind (call_analysis env lens_name work_a) _ ?w0] =>
    destruct (call_analysis_run env lens_name work_a w0)
      as (ra & w1 & Hrun1 & Hc1) end.
  rewrite (bind_run _ _ _ _ _ Hrun1). rewrite calls_shown in Hc1.
  destruct (Py.truthy_opt ra) eqn:Hra; cbn [andb].
  - rewrite bind_bind, bind_show.
    match goal with |- context [bind (call_analysis env lens_name work_b) _ ?w0] =>
      destruct (call_analysis_run env lens_name work_b w0)
        as (rb & w2 & Hrun2 & Hc2) end.
    rewrite (bind_run _ _ _ _ _ Hrun2). rewrite calls_shown, Hc1 in Hc2.
    destruct (Py.truthy_opt rb) eqn:Hrb.
    + rewrite bind_show. unfold generate_comparative_synthesis.
      match goal with |- context [bind _ _ ?w0] =>
        destruct (synthesis_run
                    (ComparativePrompt lens_name (default "" ra)
                       (get_display_title work_a) (default "" rb)
                       (get_display_title work_b)) 600 w0)
          as (rs & w3 & Hrun3 & Hc3) end.
      cbv zeta. rewrite (bind_run _ _ _ _ _ Hrun3). rewrite bind_record.
      rewrite calls_shown, Hc2 in Hc3.
      assert (Hfinal : ∀ w4, calls w4 = calls (recorded (CComparative lens_name rs) w3) →
                calls w4 = calls w ++ [CAnalysis lens_name work_a ra;
                                       CAnalysis lens_name work_b rb;
                                       CComparative lens_name rs]).
      { intros w4 ->. rewrite calls_recorded, Hc3, <- !app_assoc. done. }
      destruct (Py.truthy_opt rs); [rewrite run_show|rewrite run_ret];
        (eexists _, _, _; split; [reflexivity|];
         split; [apply Hfinal; by rewrite ?calls_shown|];
         split; [apply pipeline_shape_cons; [done|by cbn; rewrite Hra|];
                 apply pipeline_shape_cons; [done|by cbn; rewrite Hrb|];
                 apply pipeline_shape_one|by repeat constructor]).
    + rewrite run_show.
      eexists _, _, [CAnalysis lens_name work_a ra; CAnalysis lens_name work_b rb].
      split; [reflexivity|]. rewrite calls_shown, Hc2, <- app_assoc.
      split; [done|].
      split; [apply pipeline_shape_cons; [done|by cbn; rewrite Hra|];
              apply pipeline_shape_one|by repeat constructor].
  - rewrite bind_ret. cbn [Py.truthy_opt andb]. rewrite run_show.
    eexists _, _, [CAnalysis lens_name work_a ra]. split; [reflexivity|].
    rewrite calls_shown. split; [done|].
    split; [apply pipeline_shape_one|by repeat constructor].
Qed.

Lemma dict_set_keys (d : list (string * string)) key value :
  key ∉ d.*1 → (dict_set d key value).*1 = d.*1 ++ [key].
Proof.
  induction d as [|[k v] d IH]; intros Hk; [done|].
  cbn [fmap list_fmap fst] in Hk.
  apply not_elem_of_cons in Hk as [Hne Hk].
  cbn [dict_set]. rewrite decide_False by done.
  cbn [fmap list_fmap fst app]. f_equal. by apply IH.
Qed.

(** The loop of the symposium: its calls are analysis calls; it goes on
    only while they succeed, and then holds one analysis per lens; the call
    that fails is the last one. *)
Lemma symposium_loop_calls total_steps lenses work :
  ∀ i analyses_results w,
  ∃ final cont w' cs,
    symposium_loop env total_steps i lenses work analyses_results true w
      = (Ok (final, cont), w') ∧
    calls w' = calls w ++ cs ∧
    Forall (λ c, is_analysis c = true) cs ∧
    (cont = true →
       Forall (λ c, failed_analysis c = false) cs ∧
       (NoDup (analyses_results.*1 ++ lenses) →
        final.*1 = analyses_results.*1 ++ lenses)) ∧
    (cont = false → pipeline_shape cs).
Proof.
  induction lenses as [|lens_name lenses IH]; intros i acc w.
  - exists acc, true, w, []. rewrite app_nil_r. cbn [symposium_loop].
    rewrite run_ret. repeat split; try done; try constructor.
    by rewrite app_nil_r.
  - cbn [symposium_loop negb]. rewrite bind_show.
    match goal with |- context [bind (call_analysis env lens_name work) _ ?w0] =>
      destruct (call_analysis_run env lens_name work w0)
        as (r & w1 & Hrun & Hc) end.
    rewrite (bind_run _ _ _ _ _ Hrun). rewrite calls_shown in Hc.
    destruct (Py.truthy_opt r) eqn:Hr.
    + destruct (IH (S i) (dict_set acc lens_name (default "" r)) w1)
        as (final & cont & w' & cs & -> & Hcs & Han & Hok & Hko).
      exists final, cont, w', (CAnalysis lens_name work r :: cs).
      split; [done|]. rewrite Hcs, Hc, <- app_assoc.
      split; [done|]. split; [by constructor|]. split.
      * intros Hcont. destruct (Hok Hcont) as [Hall Hkeys].
        split; [constructor; [by cbn; rewrite Hr|done]|].
        intros Hnd.
        assert (Hfresh : lens_name ∉ acc.*1).
        { apply NoDup_app in Hnd as (_ & Hdisj & _). intros Hin.
          apply (Hdisj _ Hin). by left. }
        rewrite Hkeys; rewrite dict_set_keys by done.
        -- by rewrite <- app_assoc.
        -- by rewrite <- app_assoc.
      * intros Hcont. apply pipeline_shape_cons; [done|by cbn; rewrite Hr|auto].
    + rewrite bind_show. destruct lenses as [|next lenses'].
      * cbn [symposium_loop]. rewrite run_ret.
        exists acc, false. eexists _, [CAnalysis lens_name work r].
        split; [reflexivity|]. rewrite calls_shown.
        split; [done|]. split; [by repeat constructor|].
        split; [done|]. intros _. apply pipeline_shape_one.
      * cbn [symposium_loop negb]. rewrite run_ret.
        exists acc, false. eexists _, [CAnalysis lens_name work r].
        split; [reflexivity|]. rewrite calls_shown.
        split; [done|]. split; [by repeat constructor|].
        split; [done|]. intros _. apply pipeline_shape_one.
Qed.

Lemma pipeline_shape_oks cs tail :
  Forall (λ c, is_analysis c = true) cs →
  Forall (λ c, failed_analysis c = false) cs →
  length tail ≤ 1 → pipeline_shape (cs ++ tail).
Proof.
  intros H1 H2 Ht. exists cs, tail. split; [done|]. split; [|done].
  apply Forall_and. done.
Qed.

Lemma run_symposium_calls lenses work w :
  ∃ r w' cs, run_symposium env lenses work w = (r, w') ∧
    calls w' = calls w ++ cs ∧ pipeline_shape cs ∧
    Forall symposium_kind cs ∧
    (NoDup lenses → Forall (symposium_call lenses) cs).
Proof.
  unfold run_symposium. cbv zeta.
  destruct (symposium_loop_calls (length lenses + 1) lenses work 0 [] w)
    as (final & cont & w1 & cs & Hrun & Hcs & Han & Hok & Hko).
  rewrite (bind_run _ _ _ _ _ Hrun).
  assert (Hsym : Forall (symposium_call lenses) cs).
  { eapply Forall_impl; [exact Han|]. by intros []. }
  assert (Hkind : Forall symposium_kind cs).
  { eapply Forall_impl; [exact Han|]. by intros []. }
  destruct cont.
  - destruct (Hok eq_refl) as [Hall Hkeys].
    rewrite bind_show. unfold generate_symposium_synthesis.
    match goal with |- context [bind _ _ ?w0] =>
      destruct (synthesis_run (SymposiumPrompt final (get_display_title work))
                  900 w0) as (rs & w3 & Hrun3 & Hc3) end.
    cbv zeta. rewrite (bind_run _ _ _ _ _ Hrun3). rewrite bind_record.
    rewrite calls_shown, Hcs in Hc3.
    assert (Hfinal : ∀ w4, calls w4 = calls (recorded (CSymposium final rs) w3) →
              calls w4 = calls w ++ cs ++ [CSymposium final rs]).
    { intros w4 ->. rewrite calls_recorded, Hc3, <- !app_assoc. done. }
    destruct (Py.truthy_opt rs); [rewrite run_show|rewrite run_ret];
      (eexists _, _, _; split; [reflexivity|];
       split; [apply Hfinal; by rewrite ?calls_shown|];
       split; [by apply pipeline_shape_oks|];
       split; [apply Forall_app; split; [done|by repeat constructor]|];
       intros Hnd; apply Forall_app; split; [done|];
       constructor; [|constructor]; cbn; by rewrite Hkeys).
  - rewrite run_ret. exists (Ok tt), w1, cs. split; [done|]. split; [done|].
    split; [by apply Hko|]. split; [done|done].
Qed.

(** C2: in every run of the dialectical, symposium and comparative
    pipelines, an analysis call that fails (returns [None] or an empty
    text) is the last call of the run and only analysis calls precede it:
    no further analysis call and no synthesis call is issued. *)
Theorem pipelines_halt_on_first_failure (selection lenses : list string)
    (lens_name : string) (work_a work_b : WorkInput) (w : World) :
  (∃ cs, calls (run_dialectical env selection work_a w).2 = calls w ++ cs ∧
         failure_is_final cs) ∧
  (∃ cs, calls (run_symposium env lenses work_a w).2 = calls w ++ cs ∧
         failure_is_final cs) ∧
  (∃ cs, calls (run_comparative env lens_name work_a work_b w).2 = calls w ++ cs ∧
         failure_is_final cs).
Proof.
  split; [|split].
  - destruct (run_dialectical_calls selection work_a w)
      as (r & w' & cs & -> & Hc & Hshape & _).
    exists cs. split; [done|by apply pipeline_shape_final].
  - destruct (run_symposium_calls lenses work_a w)
      as (r & w' & cs & -> & Hc & Hshape & _).
    exists cs. split; [done|by apply pipeline_shape_final].
  - destruct (run_comparative_calls lens_name work_a work_b w)
      as (r & w' & cs & -> & Hc & Hshape & _).
    exists cs. split; [done|by apply pipeline_shape_final].
Qed.

End Pipelines.

(** ** Caller-side validation *)

Lemma sidebar_run ui w :
  ∃ selection w', sidebar ui w = (Ok selection, w') ∧ calls w' = calls w ∧
                  stored_selection ui selection.
Proof.
  unfold sidebar, stored_selection.
  destruct (analysis_mode ui).
  - destruct (Py.truthy_opt (main_lens_category ui));
      [destruct (specific_lens ui) as [lens|]; [destruct (Py.truthy lens)|]|];
      rewrite run_ret; eexists _, _; (split; [reflexivity|]); split; eauto.
  - cbv zeta.
    destruct (Py.truthy_opt
                (if Py.truthy_opt (category_a ui) then dialectic_lens_a ui else None)
              && Py.truthy_opt
                   (if Py.truthy_opt (category_b ui) then dialectic_lens_b ui else None))
      eqn:Hboth.
    + case_decide as Heq.
      * rewrite bind_show, run_ret. eexists _, _. split; [reflexivity|].
        rewrite calls_shown. split; [done|]. by left.
      * rewrite run_ret. eexists _, _. split; [reflexivity|]. split; [done|].
        right. eexists _, _. split; [reflexivity|].
        apply andb_true_iff in Hboth as [Ha Hb].
        destruct (if Py.truthy_opt (category_a ui) then dialectic_lens_a ui else None)
          as [a|]; [|done].
        destruct (if Py.truthy_opt (category_b ui) then dialectic_lens_b ui else None)
          as [b|]; [|done].
        simpl. congruence.
    + rewrite run_ret. eexists _, _. split; [reflexivity|]. split; [done|]. by left.
  - cbv zeta. case_bool_decide.
    + destruct (_ && _) eqn:Hfew.
      * rewrite bind_show, run_ret. eexists _, _. split; [reflexivity|].
        rewrite calls_shown. split; [done|]. by left.
      * destruct (3 <=? length (selected_lenses ui))%nat eqn:Hmany;
          rewrite run_ret; eexists _, _; (split; [reflexivity|]); (split; [done|]).
        -- right. split; [done|]. by apply Nat.leb_le.
        -- by left.
    + rewrite bind_show, run_ret. eexists _, _. split; [reflexivity|].
      rewrite calls_shown. split; [done|]. by left.
  - destruct (Py.truthy_opt (main_lens_category ui));
      [destruct (specific_lens ui) as [lens|]; [destruct (Py.truthy lens)|]|];
      rewrite run_ret; eexists _, _; (split; [reflexivity|]); split; eauto.
Qed.

Section Script.

Variable env : Env.

Lemma get_model_run key w :
  ∃ model w', get_model env key w = (Ok model, w') ∧ calls w' = calls w.
Proof.
  unfold get_model. destruct (negb (Py.truthy key)); [by eexists _, _|].
  destruct (configure env key).
  - rewrite bind_show, run_ret. eexists _, _. split; [reflexivity|].
    by rewrite calls_shown.
  - by eexists _, _.
Qed.

(** A run of the script either calls nothing, or has passed the gate of
    its mode and made the calls of the execution block. *)
Lemma script_run_calls ui w :
  ∃ selection ws r w' cs,
    sidebar ui w = (Ok selection, ws) ∧
    stored_selection ui selection ∧
    script_run env ui w = (r, w') ∧
    calls w' = calls w ++ cs ∧
    (cs = [] ∨
     (display_analysis_form (analysis_mode ui) selection = true ∧
      ∃ w1, calls w1 = calls w ∧
            calls (execute env ui selection w1).2 = calls w1 ++ cs)).
Proof.
  destruct (sidebar_run ui w) as (selection & ws & Hside & Hcs & Hstored).
  exists selection, ws. unfold script_run.
  rewrite (bind_run _ _ _ _ _ Hside).
  destruct (display_analysis_form (analysis_mode ui) selection) eqn:Hgate.
  2:{ rewrite run_show. eexists _, _, []. split; [done|]. split; [done|].
      split; [reflexivity|]. rewrite calls_shown, app_nil_r. auto. }
  destruct (button ui).
  2:{ rewrite run_ret. eexists _, _, []. split; [done|]. split; [done|].
      split; [reflexivity|]. rewrite app_nil_r. auto. }
  assert (Hv1 : ∃ v1 w1, (if negb (Py.truthy (api_key ui))
                           then let* _ := show WarnNoApiKey in ret false
                           else ret true) ws = (Ok v1, w1) ∧ calls w1 = calls w).
  { destruct (negb (Py.truthy (api_key ui))); [rewrite bind_show|]; rewrite run_ret;
      eexists _, _; (split; [reflexivity|]); by rewrite ?calls_shown. }
  destruct Hv1 as (v1 & w1 & Hrun1 & Hc1). rewrite (bind_run _ _ _ _ _ Hrun1).
  assert (Hv2 : ∃ v2 w2, (if negb (is_ready (work_a ui))
                           then let* _ := show WarnNoWorkA in ret false
                           else ret v1) w1 = (Ok v2, w2) ∧ calls w2 = calls w).
  { destruct (negb (is_ready (work_a ui))); [rewrite bind_show|]; rewrite run_ret;
      eexists _, _; (split; [reflexivity|]); by rewrite ?calls_shown. }
  destruct Hv2 as (v2 & w2 & Hrun2 & Hc2). rewrite (bind_run _ _ _ _ _ Hrun2).
  assert (Hv3 : ∃ v3 w3, (if bool_decide (analysis_mode ui = A_COMPARATIVE)
                              && negb (is_ready (work_b ui))
                           then let* _ := show WarnNoWorkB in ret false
                           else ret v2) w2 = (Ok v3, w3) ∧ calls w3 = calls w).
  { destruct (bool_decide (analysis_mode ui = A_COMPARATIVE)
              && negb (is_ready (work_b ui))); [rewrite bind_show|]; rewrite run_ret;
      eexists _, _; (split; [reflexivity|]); by rewrite ?calls_shown. }
  destruct Hv3 as (v3 & w3 & Hrun3 & Hc3). rewrite (bind_run _ _ _ _ _ Hrun3).
  destruct v3.
  2:{ rewrite run_ret. eexists _, _, []. split; [done|]. split; [done|].
      split; [reflexivity|]. rewrite app_nil_r. auto. }
  destruct (get_model_run (api_key ui) w3) as (model & w4 & Hrun4 & Hc4).
  rewrite (bind_run _ _ _ _ _ Hrun4).
  destruct model.
  2:{ rewrite run_ret. eexists _, _, []. split; [done|]. split; [done|].
      split; [reflexivity|]. rewrite app_nil_r. split; [congruence|auto]. }
  assert (Hex : ∃ cs, calls (execute env ui selection w4).2 = calls w4 ++ cs).
  { unfold execute. destruct (analysis_mode ui), selection;
      cbn [as_lens as_list]; rewrite ?bind_raise, ?bind_ret;
      try (by exists []; rewrite app_nil_r).
    - destruct (run_single_calls env lens (work_a ui) w4)
        as (r & w' & cs & -> & Hc & _). eauto.
    - destruct (run_dialectical_calls env lenses (work_a ui) w4)
        as (r & w' & cs & -> & Hc & _). eauto.
    - destruct (run_symposium_calls env lenses (work_a ui) w4)
        as (r & w' & cs & -> & Hc & _). eauto.
    - destruct (run_comparative_calls env lens (work_a ui) (work_b ui) w4)
        as (r & w' & cs & -> & Hc & _). eauto. }
  destruct Hex as [cs Hex].
  destruct (execute env ui selection w4) as [r w'] eqn:Hrun.
  exists r, w', cs. split; [done|]. split; [done|]. split; [done|].
  cbn [snd] in Hex. split; [by rewrite Hex; congruence|].
  right. split; [done|]. exists w4. split; [congruence|].
  by rewrite Hrun.
Qed.

End Script.

(** The calls of the execution block, for the selection the sidebar stored
    and the gate let through. *)
Lemma execute_calls env ui selection w1 cs :
  stored_selection ui selection →
  display_analysis_form (analysis_mode ui) selection = true →
  calls (execute env ui selection w1).2 = calls w1 ++ cs →
  match analysis_mode ui with
  | A_SINGLE => Forall (λ c, is_analysis c = true) cs
  | A_DIALECTICAL =>
      ∃ a b, selection = SelList [a; b] ∧ a ≠ b ∧
             Forall (dialectical_call [a; b]) cs
  | A_SYMPOSIUM =>
      selection = SelList (selected_lenses ui) ∧
      3 ≤ length (selected_lenses ui) ∧
      Forall symposium_kind cs ∧
      (NoDup (selected_lenses ui) →
       Forall (symposium_call (selected_lenses ui)) cs)
  | A_COMPARATIVE => Forall comparative_call cs
  end.
Proof.
  unfold stored_selection, execute. intros Hstored Hgate Hcalls.
  destruct (analysis_mode ui).
  - destruct Hstored as [->|[lens ->]]; [done|].
    cbn [as_lens] in Hcalls. rewrite bind_ret in Hcalls.
    destruct (run_single_calls env lens (work_a ui) w1)
      as (r & w' & cs' & Hrun & Hc & _ & Hall).
    rewrite Hrun in Hcalls. cbn [snd] in Hcalls. rewrite Hc in Hcalls.
    by apply app_inv_head in Hcalls as ->.
  - destruct Hstored as [->|(a & b & -> & Hne)]; [done|].
    cbn [as_list] in Hcalls. rewrite bind_ret in Hcalls.
    destruct (run_dialectical_calls env [a; b] (work_a ui) w1)
      as (r & w' & cs' & Hrun & Hc & _ & Hall).
    rewrite Hrun in Hcalls. cbn [snd] in Hcalls. rewrite Hc in Hcalls.
    apply app_inv_head in Hcalls as ->. by exists a, b.
  - destruct Hstored as [->|[-> Hlen]]; [done|].
    cbn [as_list] in Hcalls. rewrite bind_ret in Hcalls.
    destruct (run_symposium_calls env (selected_lenses ui) (work_a ui) w1)
      as (r & w' & cs' & Hrun & Hc & _ & Hkind & Hall).
    rewrite Hrun in Hcalls. cbn [snd] in Hcalls. rewrite Hc in Hcalls.
    by apply app_inv_head in Hcalls as ->.
  - destruct Hstored as [->|[lens ->]]; [done|].
    cbn [as_lens] in Hcalls. rewrite bind_ret in Hcalls.
    destruct (run_comparative_calls env lens (work_a ui) (work_b ui) w1)
      as (r & w' & cs' & Hrun & Hc & _ & Hall).
    rewrite Hrun in Hcalls. cbn [snd] in Hcalls. rewrite Hc in Hcalls.
    by apply app_inv_head in Hcalls as ->.
Qed.

(** C9: whatever the widgets hold (the lens multiselect returning each
    chosen lens once), every call of the symposium synthesis in a run of the
    script receives at least three analyses; in symposium mode a selection
    of fewer than three lenses is stored as the empty selection, and the run
    makes no analysis or synthesis call. *)
Theorem symposium_needs_three_lenses (env : Env) (ui : Widgets) (w : World) :
  NoDup (selected_lenses ui) →
  ∃ cs, calls (script_run env ui w).2 = calls w ++ cs ∧
    (∀ analyses r, CSymposium analyses r ∈ cs → 3 ≤ length analyses) ∧
    (analysis_mode ui = A_SYMPOSIUM → length (selected_lenses ui) < 3 →
     (∃ ws, sidebar ui w = (Ok (SelList []), ws)) ∧ cs = []).
Proof.
  intros Hnd.
  destruct (script_run_calls env ui w)
    as (selection & ws & r & w' & cs & Hside & Hstored & Hrun & Hc & Hcs).
  exists cs. rewrite Hrun. split; [done|]. split.
  - intros analyses rs Hin.
    destruct Hcs as [->|(Hgate & w1 & Hc1 & Hex)]; [by apply elem_of_nil in Hin|].
    pose proof (execute_calls env ui selection w1 cs Hstored Hgate Hex) as Hkinds.
    destruct (analysis_mode ui).
    + rewrite Forall_forall in Hkinds. by apply Hkinds in Hin.
    + destruct Hkinds as (a & b & _ & _ & Hall).
      rewrite Forall_forall in Hall. by apply Hall in Hin.
    + destruct Hkinds as (_ & Hlen & _ & Hall).
      specialize (Hall Hnd). rewrite Forall_forall in Hall.
      apply Hall in Hin. cbn in Hin.
      rewrite <- Hin, length_fmap in Hlen. done.
    + rewrite Forall_forall in Hkinds. by apply Hkinds in Hin.
  - intros Hmode Hlen.
    unfold stored_selection in Hstored. rewrite Hmode in Hstored.
    destruct Hstored as [->|[_ ?]]; [|lia].
    split; [eauto|].
    destruct Hcs as [->|(Hgate & _)]; [done|].
    rewrite Hmode in Hgate. done.
Qed.

Lemma symposium_needs_three_lenses_witness :
  let env := store (λ _, "ACTIVE") (λ _, None) (λ _, inr "analysis") in
  let ui := mkWidgets "key" A_SYMPOSIUM VIEW_LIBRARY None None None None None None
              ["Philosophical"] ["Taoist"; "Stoicism"; "Absurdism"]
              text_work text_work true in
  NoDup (selected_lenses ui) ∧
  ∃ cs, calls (script_run env ui w0).2 = calls w0 ++ cs ∧
    (∀ analyses r, CSymposium analyses r ∈ cs → 3 ≤ length analyses) ∧
    (analysis_mode ui = A_SYMPOSIUM → length (selected_lenses ui) < 3 →
     (∃ ws, sidebar ui w0 = (Ok (SelList []), ws)) ∧ cs = []).
Proof.
  intros env ui.
  assert (Hnd : NoDup (selected_lenses ui)).
  { apply (bool_decide_unpack _). by vm_compute. }
  split; [exact Hnd|].
  exact (symposium_needs_three_lenses env ui w0 Hnd).
Defined.

Example symposium_three_lenses_run :
  let env := store (λ _, "ACTIVE") (λ _, None) (λ _, inr "analysis") in
  let ui := mkWidgets "key" A_SYMPOSIUM VIEW_LIBRARY None None None None None None
              ["Philosophical"] ["Taoist"; "Stoicism"; "Absurdism"]
              text_work text_work true in
  calls (script_run env ui w0).2 =
    [CAnalysis "Taoist" text_work (Some "analysis");
     CAnalysis "Stoicism" text_work (Some "analysis");
     CAnalysis "Absurdism" text_work (Some "analysis");
     CSymposium [("Taoist", "analysis"); ("Stoicism", "analysis");
                 ("Absurdism", "analysis")] (Some "analysis")].
Proof. by vm_compute. Qed.

(** C10: in every run of the script, the dialectical synthesis is called
    only with two different lens names; in dialectical mode, when Lens A
    and Lens B are the same, the sidebar stores the empty selection and the
    run makes no analysis or synthesis call. *)
Theorem dialectical_lenses_differ (env : Env) (ui : Widgets) (w : World) :
  let lens_a :=
    if Py.truthy_opt (category_a ui) then dialectic_lens_a ui else None in
  let lens_b :=
    if Py.truthy_opt (category_b ui) then dialectic_lens_b ui else None in
  ∃ cs, calls (script_run env ui w).2 = calls w ++ cs ∧
    (∀ a b r, CDialectical a b r ∈ cs → a ≠ b) ∧
    (analysis_mode ui = A_DIALECTICAL → lens_a = lens_b →
     (∃ ws, sidebar ui w = (Ok (SelList []), ws)) ∧ cs = []).
Proof.
  intros lens_a lens_b.
  destruct (script_run_calls env ui w)
    as (selection & ws & r & w' & cs & Hside & Hstored & Hrun & Hc & Hcs).
  exists cs. rewrite Hrun. split; [done|]. split.
  - intros a b rs Hin.
    destruct Hcs as [->|(Hgate & w1 & Hc1 & Hex)]; [by apply elem_of_nil in Hin|].
    pose proof (execute_calls env ui selection w1 cs Hstored Hgate Hex) as Hkinds.
    destruct (analysis_mode ui).
    + rewrite Forall_forall in Hkinds. by apply Hkinds in Hin.
    + destruct Hkinds as (a' & b' & _ & Hne & Hall).
      rewrite Forall_forall in Hall.
      destruct (Hall _ Hin) as [Hfst Hsnd].
      cbn in Hfst, Hsnd. congruence.
    + destruct Hkinds as (_ & _ & Hkind & _).
      rewrite Forall_forall in Hkind. by apply Hkind in Hin.
    + rewrite Forall_forall in Hkinds. by apply Hkinds in Hin.
  - intros Hmode Heq.
    assert (Hsel : selection = SelList []).
    { unfold sidebar in Hside. rewrite Hmode in Hside. cbv zeta in Hside.
      fold lens_a lens_b in Hside.
      destruct (Py.truthy_opt lens_a && Py.truthy_opt lens_b).
      - rewrite decide_True in Hside by done.
        rewrite bind_show, run_ret in Hside. congruence.
      - rewrite run_ret in Hside. congruence. }
    subst selection. split; [eauto|].
    destruct Hcs as [->|(Hgate & _)]; [done|].
    rewrite Hmode in Hgate. done.
Qed.

Lemma dialectical_lenses_differ_witness :
  let env := store (λ _, "ACTIVE") (λ _, None) (λ _, inr "analysis") in
  let ui := mkWidgets "key" A_DIALECTICAL VIEW_LIBRARY None None
              (Some "Philosophical") (Some "Taoist")
              (Some "Philosophical") (Some "Taoist")
              [] [] text_work text_work true in
  (∃ ws, sidebar ui w0 = (Ok (SelList []), ws)) ∧
  calls (script_run env ui w0).2 = [].
Proof.
  intros env ui.
  destruct (dialectical_lenses_differ env ui w0) as (cs & Hc & _ & Hsame).
  destruct (Hsame eq_refl eq_refl) as [Hside ->].
  split; [exact Hside|exact Hc].
Defined.

Example dialectical_two_lenses_run :
  let env := store (λ _, "ACTIVE") (λ _, None) (λ _, inr "analysis") in
  let ui := mkWidgets "key" A_DIALECTICAL VIEW_LIBRARY None None
              (Some "Philosophical") (Some "Taoist")
              (Some "Socio-Political") (Some "Marxist")
              [] [] text_work text_work true in
  calls (script_run env ui w0).2 =
    [CAnalysis "Taoist" text_work (Some "analysis");
     CAnalysis "Marxist" text_work (Some "analysis");
     CDialectical "Taoist" "Marxist" (Some "analysis")].
Proof. by vm_compute. Qed.

(** A run of the comparative pipeline whose first analysis is blocked. *)
Example comparative_halts_run :
  let env := store (λ _, "ACTIVE") (λ _, None)
               (λ _, inl (Exception "blocked" None)) in
  calls (run_comparative env "Taoist" text_work text_work w0).2 =
    [CAnalysis "Taoist" text_work None] ∧
  count is_generate (trace (run_comparative env "Taoist" text_work text_work w0).2)
    = 1%nat.
Proof. by vm_compute. Qed.

(** * Further properties *)

(** ** The uploader, whatever the store answers *)

Lemma remote_calls_app t1 t2 :
  remote_calls (t1 ++ t2) =
  ((remote_calls t1).1.1.1 + (remote_calls t2).1.1.1,
   (remote_calls t1).1.1.2 + (remote_calls t2).1.1.2,
   (remote_calls t1).1.2 + (remote_calls t2).1.2,
   (remote_calls t1).2 + (remote_calls t2).2)%nat.
Proof. unfold remote_calls. cbn [fst snd]. by rewrite !count_app. Qed.

(** The polling loop only sleeps, reads and displays, at most [fuel] times. *)
Lemma poll_trace_bounded env fuel start f w :
  ∃ tail, trace (poll_processing env fuel start f w).2 = trace w ++ tail ∧
          remote_calls tail = (0, count is_get tail, 0, 0)%nat ∧
          count is_get tail ≤ fuel ∧
          calls (poll_processing env fuel start f w).2 = calls w.
Proof.
  revert f w. induction fuel as [|fuel IH]; intros f w; rewrite poll_unfold;
    repeat case_decide;
    try (exists []; rewrite app_nil_r; repeat split; try done;
         unfold count; simpl; lia).
  destruct (get_file env (n_get w)) as [e|f'].
  - exists [ESleep POLL_INTERVAL; EGetFile (rf_name f)]. cbn [snd trace].
    rewrite <- app_assoc. repeat split; try done. unfold count; simpl; lia.
  - destruct (IH f' (polled env (rf_name f) f' w)) as (tail & -> & Hrc & Hn & ->).
    exists (ESleep POLL_INTERVAL :: EGetFile (rf_name f)
              :: EShow (StCurrentState (rf_state f')) :: tail).
    unfold polled at 1. cbn [trace]. rewrite <- !app_assoc.
    split; [done|]. split; [|split; [|done]].
    + unfold remote_calls in *.
      change (count is_upload (_ :: _ :: _ :: tail)) with (count is_upload tail).
      change (count is_delete (_ :: _ :: _ :: tail)) with (count is_delete tail).
      change (count is_generate (_ :: _ :: _ :: tail)) with (count is_generate tail).
      congruence.
    + change (count is_get (_ :: _ :: _ :: tail)) with (S (count is_get tail)). lia.
Qed.

Lemma remote_calls_inv t u g d n :
  remote_calls t = (u, g, d, n) →
  count is_upload t = u ∧ count is_get t = g ∧
  count is_delete t = d ∧ count is_generate t = n.
Proof. unfold remote_calls. intros [= <- <- <- <-]. done. Qed.

Lemma upload_to_gemini_events env work w :
  ∃ r w' tail,
    upload_to_gemini env work w = (Ok r, w') ∧
    trace w' = trace w ++ tail ∧ calls w' = calls w ∧
    count is_upload tail ≤ 1 ∧ count is_get tail ≤ poll_fuel ∧
    count is_delete tail = 0%nat ∧ count is_generate tail = 0%nat ∧
    (∀ f, r = Some f → rf_state f = "ACTIVE" ∧ count is_upload tail = 1%nat).
Proof.
  unfold upload_to_gemini.
  destruct (uploaded_file_obj work) as [obj|] eqn:Hobj.
  2: { eexists None, _, [_]. split; [reflexivity|].
       repeat split; try done; unfold count; simpl; lia. }
  destruct (Py.truthy_opt (resolve_mime_type env obj)) eqn:Hmime.
  2: { eexists None, _, [_]. split; [reflexivity|].
       repeat split; try done; unfold count; simpl; lia. }
  cbn [negb]. 
  destruct (upload_file env (n_upload w)) as [e|f0] eqn:Hup.
  - unfold try_except, bind, show, emit, genai_upload_file, ret.
    cbn [n_upload]. rewrite Hup. cbn [of_sum].
    destruct e; eexists None, _, _; (split; [reflexivity|]);
      cbn [trace calls]; rewrite <- !app_assoc; cbn [app];
      (split; [reflexivity|]); repeat split; try done; unfold count; simpl; lia.
  - pose proof (upload_to_gemini_submitted env work obj f0 w Hobj Hmime Hup) as Hrun.
    cbv zeta in Hrun. unfold upload_to_gemini in Hrun.
    rewrite Hobj, Hmime in Hrun. cbn [negb] in Hrun. rewrite Hrun. clear Hrun.
    destruct (submitted_fields env (String.substring 0 128 (get_display_title work))
                (default "" (resolve_mime_type env obj)) f0 w)
      as (_ & _ & _ & _ & _ & Hk1 & Ht1).
    set (w1 := submitted _ _ _ _ _) in *.
    pose proof (poll_fuel_enough env poll_fuel (clock w1) f0 w1) as Hfuel.
    destruct (poll_trace_bounded env poll_fuel (clock w1) f0 w1)
      as (tail & Htail & Hrc & Hget & Hcalls).
    apply remote_calls_inv in Hrc as (Hu & _ & Hd & Hg).
    rewrite Ht1 in Htail. rewrite Hk1 in Hcalls.
    set (head := [EShow (StUploading (String.substring 0 128 (get_display_title work)));
                  EUploadFile (String.substring 0 128 (get_display_title work))
                    (default "" (resolve_mime_type env obj));
                  EShow (StWaiting (rf_uri f0))]) in *.
    assert (Hfin : ∀ m (r : option RemoteFile),
      remote_calls m = (0, 0, 0, 0)%nat →
      (∀ f, r = Some f → rf_state f = "ACTIVE") →
      count is_upload (head ++ tail ++ m) ≤ 1 ∧
      count is_get (head ++ tail ++ m) ≤ poll_fuel ∧
      count is_delete (head ++ tail ++ m) = 0%nat ∧
      count is_generate (head ++ tail ++ m) = 0%nat ∧
      (∀ f, r = Some f →
         rf_state f = "ACTIVE" ∧ count is_upload (head ++ tail ++ m) = 1%nat)).
    { intros m r (Hmu & Hmg & Hmd & Hmn)%remote_calls_inv Hr.
      rewrite !count_app, Hu, Hd, Hg, Hmu, Hmg, Hmd, Hmn.
      repeat split; try done; try (unfold count at 1; simpl; lia). by apply Hr. }
    destruct (poll_processing env poll_fuel (clock w1) f0 w1) as [[f|e|] w2];
      cbn [snd] in Htail, Hcalls.
    + repeat case_decide.
      * eexists None, _, (head ++ tail ++ [_]). split; [reflexivity|].
        rewrite !trace_shown, !calls_shown, Htail, <- !app_assoc.
        split; [reflexivity|]. split; [done|]. by apply Hfin.
      * eexists (Some f), _, (head ++ tail ++ [_]). split; [reflexivity|].
        rewrite !trace_shown, !calls_shown, Htail, <- !app_assoc.
        split; [reflexivity|]. split; [done|]. apply Hfin; [done|congruence].
      * eexists None, _, (head ++ tail ++ [_]). split; [reflexivity|].
        rewrite !trace_shown, !calls_shown, Htail, <- !app_assoc.
        split; [reflexivity|]. split; [done|]. by apply Hfin.
    + destruct e.
      1: { eexists None, _, (head ++ tail ++ [_]). split; [reflexivity|].
        rewrite !trace_shown, !calls_shown, Htail, <- !app_assoc.
        split; [reflexivity|]. split; [done|]. by apply Hfin. }
      all: eexists None, _, (head ++ tail ++ [_; _]); (split; [reflexivity|]);
        rewrite !trace_shown, !calls_shown, Htail, <- !app_assoc;
        (split; [reflexivity|]); (split; [done|]); by apply Hfin.
    + exfalso. apply Hfuel; [|done]. unfold TIMEOUT, POLL_INTERVAL, poll_fuel. lia.
Qed.

(** X1: whatever the file store answers, [upload_to_gemini] returns (it
    raises nothing), it submits the file at most once, reads its state at
    most [poll_fuel] = 101 times, deletes nothing and generates nothing, and
    a handle it returns is in state "ACTIVE" and was obtained by the one
    submission. *)
Theorem upload_to_gemini_outcome env work w :
  ∃ r w' tail,
    upload_to_gemini env work w = (Ok r, w') ∧
    trace w' = trace w ++ tail ∧ calls w' = calls w ∧
    count is_upload tail ≤ 1 ∧ count is_get tail ≤ poll_fuel ∧
    count is_delete tail = 0%nat ∧ count is_generate tail = 0%nat ∧
    (∀ f, r = Some f → rf_state f = "ACTIVE" ∧ count is_upload tail = 1%nat).
Proof. apply upload_to_gemini_events. Qed.

(** ** The analysis attempt, whatever the services answer *)

Lemma count_cons p e l :
  count p (e :: l) = ((if p e then 1 else 0) + count p l)%nat.
Proof.
  unfold count. destruct (p e) eqn:He.
  - by rewrite filter_cons_True.
  - rewrite filter_cons_False; [done|]. by rewrite He.
Qed.

Lemma count_nil p : count p [] = 0%nat.
Proof. done. Qed.

(** Counts the remote calls of a trace given by its events. *)
Ltac count_events :=
  repeat first
    [ rewrite count_app | rewrite count_cons | rewrite count_nil
    | rewrite count_upload_shown | rewrite count_get_shown
    | rewrite count_delete_shown | rewrite count_generate_shown ];
  cbn [is_upload is_get is_delete is_generate].

(** What follows the upload step of an attempt. *)
Lemma generate_analysis_after_upload env lens_keyword work w gf w1 :
  (if is_media (modality work) then upload_to_gemini env work else ret None) w
    = (Ok gf, w1) →
  ∃ r w' tail,
    generate_analysis env lens_keyword work w = (Ok r, w') ∧
    trace w' = trace w1 ++ tail ∧ calls w' = calls w1 ∧
    count is_upload tail = 0%nat ∧ count is_get tail = 0%nat ∧
    count is_delete tail = match gf with Some _ => 1 | None => 0 end%nat ∧
    count is_generate tail ≤ 2 ∧
    (∀ s, r = Some s → count is_generate tail = 2%nat) ∧
    (is_media (modality work) = true → gf = None →
     r = None ∧ tail = [EShow UpdUploadError]).
Proof.
  intros Hup. unfold generate_analysis, try_except_finally. rewrite Hup.
  destruct (is_media (modality work) && bool_decide (gf = None)) eqn:Hskip.
  - apply andb_prop in Hskip as [Hm ->%bool_decide_eq_true].
    do 2 step. cbn [cleanup_file]. rewrite run_ret.
    eexists None, _, [_]. split; [reflexivity|]. norm_trace.
    repeat split; try done; count_events; lia.
  - assert (Hgf : is_media (modality work) = true → gf = None → False).
    { intros Hm ->. by rewrite Hm in Hskip. }
    assert (Hclean : ∀ wc, ∃ wd tl,
      cleanup_file env gf wc = (Ok tt, wd) ∧ trace wd = trace wc ++ tl ∧
      calls wd = calls wc ∧ count is_upload tl = 0%nat ∧
      count is_get tl = 0%nat ∧ count is_generate tl = 0%nat ∧
      count is_delete tl = match gf with Some _ => 1 | None => 0 end%nat).
    { intros wc. destruct gf as [f|].
      - rewrite cleanup_file_some. eexists _, [_; _].
        split; [reflexivity|]. norm_trace. by repeat split.
      - eexists _, []. cbn [cleanup_file]. rewrite run_ret.
        split; [reflexivity|]. rewrite app_nil_r. by repeat split. }
    do 2 step.
    destruct (generate_content env (n_generate (shown StPhase1 w1))) as [e1|s1].
    + match goal with |- context [analysis_failed e1 ?w] =>
        destruct (analysis_failed_run e1 w)
          as (w2 & -> & _ & _ & _ & Hc & msgs & Ht) end.
      destruct (Hclean w2) as (wd & tl & -> & Htd & Hcd & Hu & Hg & Hn & Hd).
      eexists None, wd, _. split; [reflexivity|].
      rewrite Htd, Ht, Hcd, Hc. norm_trace.
      split; [reflexivity|]. split; [done|].
      count_events. rewrite Hu, Hg, Hn, Hd.
      repeat split; try done; try lia; exfalso; eauto.
    + do 4 step.
      match goal with |- context [generate_content env (n_generate ?w)] =>
        destruct (generate_content env (n_generate w)) as [e2|s2] end.
      * match goal with |- context [analysis_failed e2 ?w] =>
          destruct (analysis_failed_run e2 w)
            as (w2 & -> & _ & _ & _ & Hc & msgs & Ht) end.
        destruct (Hclean w2) as (wd & tl & -> & Htd & Hcd & Hu & Hg & Hn & Hd).
        eexists None, wd, _. split; [reflexivity|].
        rewrite Htd, Ht, Hcd, Hc. norm_trace.
        split; [reflexivity|]. split; [done|].
        count_events. rewrite Hu, Hg, Hn, Hd.
        repeat split; try done; try lia; exfalso; eauto.
      * do 2 step.
        match goal with |- context [cleanup_file env gf ?w] =>
          destruct (Hclean w) as (wd & tl & -> & Htd & Hcd & Hu & Hg & Hn & Hd) end.
        eexists (Some s2), wd, _. split; [reflexivity|].
        rewrite Htd, Hcd. norm_trace.
        split; [reflexivity|]. split; [done|].
        count_events. rewrite Hu, Hg, Hn, Hd.
        repeat split; try done; try lia; exfalso; eauto.
Qed.

Lemma generate_analysis_events env lens_keyword work w :
  ∃ r w' tail,
    generate_analysis env lens_keyword work w = (Ok r, w') ∧
    trace w' = trace w ++ tail ∧ calls w' = calls w ∧
    count is_upload tail ≤ 1 ∧
    count is_delete tail ≤ count is_upload tail ∧
    count is_generate tail ≤ 2 ∧
    (∀ s, r = Some s →
       count is_generate tail = 2%nat ∧
       count is_delete tail = count is_upload tail) ∧
    (modality work = M_TEXT →
       count is_upload tail = 0%nat ∧ count is_get tail = 0%nat ∧
       count is_delete tail = 0%nat).
Proof.
  destruct (is_media (modality work)) eqn:Hm.
  - destruct (upload_to_gemini_events env work w)
      as (gf & w1 & t1 & Hup & Ht1 & Hc1 & Hu1 & _ & Hd1 & Hn1 & Hact).
    destruct (generate_analysis_after_upload env lens_keyword work w gf w1)
      as (r & w' & t2 & Hrun & Ht2 & Hc2 & Hu2 & _ & Hd2 & Hn2 & Hsome & _).
    { by rewrite Hm. }
    exists r, w', (t1 ++ t2). split; [done|].
    rewrite Ht2, Ht1, Hc2, Hc1, <- app_assoc. split; [done|]. split; [done|].
    rewrite !count_app, Hu2, Hd1, Hd2, Hn1.
    assert (Hdel : (match gf with Some _ => 1 | None => 0 end ≤ count is_upload t1)%nat).
    { destruct gf as [f|]; [|lia]. destruct (Hact f eq_refl) as [_ ->]. lia. }
    split; [lia|]. split; [lia|]. split; [lia|]. split.
    + intros s Hs. rewrite (Hsome s Hs). split; [lia|].
      destruct gf as [f|].
      * destruct (Hact f eq_refl) as [_ ->]. lia.
      * destruct (generate_analysis_after_upload env lens_keyword work w None w1)
          as (r' & w'' & t2' & Hrun' & _ & _ & _ & _ & _ & _ & _ & Hnone).
        { by rewrite Hm. }
        destruct (Hnone Hm eq_refl) as [-> _]. congruence.
    + intros Htext. by rewrite Htext in Hm.
  - destruct (generate_analysis_after_upload env lens_keyword work w None w)
      as (r & w' & t2 & Hrun & Ht2 & Hc2 & Hu2 & Hg2 & Hd2 & Hn2 & Hsome & _).
    { by rewrite Hm. }
    exists r, w', t2. rewrite Hu2, Hd2, Hg2.
    split; [done|]. split; [done|]. split; [done|].
    split; [lia|]. split; [lia|]. split; [lia|]. split; [|done].
    intros s Hs. by rewrite (Hsome s Hs).
Qed.


(** X2: whatever the services answer, an analysis attempt returns (it
    raises nothing) and enters nothing in the history of calls; it submits at
    most one file, never deletes more files than it submitted, and issues at
    most two generation calls. When it returns a text, it has issued both
    generation calls and has deleted every file it submitted. For a text work
    it makes no upload, read or deletion call. *)
Theorem generate_analysis_outcome env lens_keyword work w :
  ∃ r w' tail,
    generate_analysis env lens_keyword work w = (Ok r, w') ∧
    trace w' = trace w ++ tail ∧ calls w' = calls w ∧
    count is_upload tail ≤ 1 ∧
    count is_delete tail ≤ count is_upload tail ∧
    count is_generate tail ≤ 2 ∧
    (∀ s, r = Some s →
       count is_generate tail = 2%nat ∧
       count is_delete tail = count is_upload tail) ∧
    (modality work = M_TEXT →
       count is_upload tail = 0%nat ∧ count is_get tail = 0%nat ∧
       count is_delete tail = 0%nat).
Proof. apply generate_analysis_events. Qed.

(** X3: when the upload step of a media work yields no handle, the attempt
    shows the upload error and returns nothing: it issues no generation call
    and no deletion call. *)
Theorem generate_analysis_upload_failure env lens_keyword work w :
  is_media (modality work) = true →
  (upload_to_gemini env work w).1 = Ok None →
  ∃ w', generate_analysis env lens_keyword work w = (Ok None, w') ∧
        trace w' = trace (upload_to_gemini env work w).2 ++ [EShow UpdUploadError] ∧
        count is_generate (trace w') = count is_generate (trace w) ∧
        count is_delete (trace w') = count is_delete (trace w).
Proof.
  intros Hm Hnone.
  destruct (upload_to_gemini_events env work w)
    as (gf & w1 & t1 & Hup & Ht1 & _ & _ & _ & Hd1 & Hn1 & _).
  rewrite Hup in Hnone |- *. cbn [fst snd] in *. injection Hnone as ->.
  destruct (generate_analysis_after_upload env lens_keyword work w None w1)
    as (r & w' & t2 & Hrun & Ht2 & _ & _ & _ & _ & _ & _ & Hskip).
  { by rewrite Hm. }
  destruct (Hskip Hm eq_refl) as [-> ->].
  exists w'. split; [done|]. split; [done|].
  rewrite Ht2, Ht1, !count_app, Hd1, Hn1. count_events. lia.
Qed.

Lemma generate_analysis_upload_failure_witness :
  ∃ w', generate_analysis failing "Jungian" (image_work (Some "image/png") "ruins.png") w0
          = (Ok None, w') ∧
        count is_generate (trace w') = 0%nat.
Proof.
  destruct (generate_analysis_upload_failure failing "Jungian"
              (image_work (Some "image/png") "ruins.png") w0)
    as (w' & Hrun & _ & Hgen & _).
  - reflexivity.
  - vm_compute. reflexivity.
  - exists w'. split; [exact Hrun | exact Hgen].
Defined.



Lemma generate_analysis_deletes_returned_handle_witness :
  ∃ w', generate_analysis two_polls "Jungian"
          (image_work (Some "image/png") "ruins.png") w0 = (Ok (Some "analysis"), w') ∧
        last (trace w') = Some (EShow (LogCleanedUp "files/abc")).
Proof.
  destruct (generate_analysis_deletes_returned_handle two_polls "Jungian"
              (image_work (Some "image/png") "ruins.png") w0
              (handle "ACTIVE")
              (upload_to_gemini two_polls
                 (image_work (Some "image/png") "ruins.png") w0).2)
    as (w' & w2 & Hrun & _ & _ & Htrace).
  - reflexivity.
  - vm_compute. reflexivity.
  - exists w'. split; [exact Hrun|]. rewrite Htrace. by rewrite last_app.
Defined.

(** ** The catalog helpers, on any catalog *)

Lemma sorted_set_ext (l1 l2 : list string) :
  (∀ x, x ∈ l1 ↔ x ∈ l2) → Py.sorted_set l1 = Py.sorted_set l2.
Proof.
  intros Heq. unfold Py.sorted_set. f_equal. f_equal.
  apply set_eq. intros x. by rewrite !elem_of_list_to_set.
Qed.

Lemma hierarchy_get_elem_of (h : Hierarchy) c l :
  hierarchy_get h c = Some l → (c, l) ∈ h.
Proof.
  induction h as [|[c' l'] h IH]; [done|]. cbn [hierarchy_get].
  case_decide as Hc.
  - intros [= ->]. subst. by left.
  - intros Hget. right. by apply IH.
Qed.

Lemma elem_of_hierarchy_get (h : Hierarchy) c l :
  NoDup h.*1 → (c, l) ∈ h → hierarchy_get h c = Some l.
Proof.
  induction h as [|[c' l'] h IH]; intros Hnd Hin.
  - by apply elem_of_nil in Hin.
  - apply NoDup_cons in Hnd as [Hc' Hnd]. cbn [hierarchy_get].
    apply elem_of_cons in Hin as [[= -> ->]|Hin].
    + by rewrite decide_True.
    + rewrite decide_False; [by apply IH|].
      intros ->. apply Hc'. apply list_elem_of_fmap. by exists (c, l).
Qed.

Lemma elem_of_filtered (h : Hierarchy) (cats acc : list string) (x : string) :
  x ∈ foldl (fun acc category =>
               match hierarchy_get h category with
               | Some lens_list => acc ++ lens_list
               | None => acc
               end) acc cats
  ↔ x ∈ acc ∨ ∃ c l, c ∈ cats ∧ hierarchy_get h c = Some l ∧ x ∈ l.
Proof.
  revert acc. induction cats as [|c cats IH]; intros acc; cbn [foldl].
  - split; [by left|]. intros [?|(c & l & Hc & _)]; [done|].
    by apply elem_of_nil in Hc.
  - rewrite IH. split.
    + intros [Hacc|(c' & l & Hc' & Hget & Hx)].
      * destruct (hierarchy_get h c) as [l|] eqn:Hget; [|by left].
        apply elem_of_app in Hacc as [?|?]; [by left|].
        right. exists c, l. split; [by left|done].
      * right. exists c', l. split; [by right|done].
    + intros [Hacc|(c' & l & Hc' & Hget & Hx)].
      * left. destruct (hierarchy_get h c); [|done].
        apply elem_of_app. by left.
      * apply elem_of_cons in Hc' as [->|Hc'].
        -- left. rewrite Hget. apply elem_of_app. by right.
        -- right. by exists c', l.
Qed.

Lemma elem_of_get_filtered_lenses (h : Hierarchy) (cats : list string) x :
  x ∈ get_filtered_lenses h cats ↔
  ∃ c l, c ∈ cats ∧ hierarchy_get h c = Some l ∧ x ∈ l.
Proof.
  unfold get_filtered_lenses. rewrite elem_of_sorted_set, elem_of_filtered.
  split; [|by right]. intros [Hnil|?]; [|done]. by apply elem_of_nil in Hnil.
Qed.

(** X6: [get_filtered_lenses] returns a sorted list without duplicates that
    holds exactly the lenses of the selected categories that the catalog
    has; a selected category that the catalog lacks adds nothing and raises
    nothing. Every lens returned is a lens of the flattened catalog, and
    selecting every category of a catalog gives the flattened catalog. *)
Theorem get_filtered_lenses_selected (h : Hierarchy) (cats : list string) :
  Sorted String.le (get_filtered_lenses h cats) ∧
  NoDup (get_filtered_lenses h cats) ∧
  (∀ x, x ∈ get_filtered_lenses h cats ↔
        ∃ c l, c ∈ cats ∧ hierarchy_get h c = Some l ∧ x ∈ l) ∧
  (∀ x, x ∈ get_filtered_lenses h cats → x ∈ flatten_lenses h) ∧
  (NoDup h.*1 → get_filtered_lenses h h.*1 = flatten_lenses h).
Proof.
  split; [apply Sorted_sorted_set|].
  split; [apply NoDup_sorted_set|].
  split; [apply elem_of_get_filtered_lenses|].
  split.
  - intros x (c & l & _ & Hget & Hx)%elem_of_get_filtered_lenses.
    apply elem_of_flatten_lenses. exists c, l. split; [|done].
    by apply hierarchy_get_elem_of.
  - intros Hnd. unfold get_filtered_lenses, flatten_lenses.
    apply sorted_set_ext. intros x.
    rewrite elem_of_filtered, elem_of_extend_all. split.
    + intros [Hnil|(c & l & _ & Hget & Hx)]; [by apply elem_of_nil in Hnil|].
      exists c, l. split; [|done]. by apply hierarchy_get_elem_of.
    + intros (c & l & Hin & Hx). right. exists c, l.
      split; [|split; [|done]].
      * apply list_elem_of_fmap. by exists (c, l).
      * by apply elem_of_hierarchy_get.
Qed.

Lemma get_filtered_lenses_selected_witness :
  NoDup [("B", ["y"; "x"]); ("A", ["z"; "x"])].*1 ∧
  get_filtered_lenses [("B", ["y"; "x"]); ("A", ["z"; "x"])] ["B"; "A"]
  = flatten_lenses [("B", ["y"; "x"]); ("A", ["z"; "x"])].
Proof.
  assert (Hnd : NoDup [("B", ["y"; "x"]); ("A", ["z"; "x"])].*1).
  { apply (bool_decide_unpack _). by vm_compute. }
  split; [exact Hnd|].
  exact (proj2 (proj2 (proj2 (proj2
    (get_filtered_lenses_selected [("B", ["y"; "x"]); ("A", ["z"; "x"])] ["B"; "A"]))))
    Hnd).
Defined.

(** X7: the flattened list depends only on which lens names the catalog
    holds: two catalogs with the same names, however they group, order or
    repeat them, flatten to the same list. *)
Theorem flatten_lenses_same_leaves (h1 h2 : Hierarchy) :
  (∀ x, leaf h1 x ↔ leaf h2 x) → flatten_lenses h1 = flatten_lenses h2.
Proof.
  intros Hleaf. unfold flatten_lenses. apply sorted_set_ext.
  intros x. by rewrite !elem_of_extend_all.
Qed.

Lemma flatten_lenses_same_leaves_witness :
  flatten_lenses [("A", ["x"; "y"])] = flatten_lenses [("B", ["y"]); ("C", ["x"; "y"])].
Proof.
  apply flatten_lenses_same_leaves. intros x.
  rewrite <- !elem_of_extend_all. cbn.
  rewrite !elem_of_cons, !elem_of_nil. tauto.
Defined.

Lemma flatten_sorted (mapping : Hierarchy) :
  flatten_lenses ((fun '(key, lens_list) => (key, Py.sorted lens_list)) <$> mapping)
  = flatten_lenses mapping.
Proof.
  unfold flatten_lenses. apply sorted_set_ext. intros x.
  rewrite !elem_of_extend_all. split.
  - intros (c & l & Hin & Hx).
    apply list_elem_of_fmap in Hin as ([c' l'] & [= -> ->] & Hin).
    exists c', l'. split; [done|]. by rewrite sorted_Permutation in Hx.
  - intros (c & l & Hin & Hx). exists c, (Py.sorted l). split.
    + apply list_elem_of_fmap. by exists (c, l).
    + by rewrite sorted_Permutation.
Qed.

(** X8: the mapping that [create_functional_mapping] returns does not depend
    on the catalog it is checked against. It has the tiers of the literal in
    their order; each tier is sorted and holds the lenses of the literal,
    none lost, none added and none merged; so the mapping flattens to the
    list the literal flattens to. *)
Theorem create_functional_mapping_from_tiers (mapping h : Hierarchy) :
  (create_functional_mapping_from mapping h).2
    = (create_functional_mapping_from mapping []).2 ∧
  (create_functional_mapping_from mapping h).2.*1 = mapping.*1 ∧
  Forall2 (λ out tier, Sorted String.le out.2 ∧ out.2 ≡ₚ tier.2)
          (create_functional_mapping_from mapping h).2 mapping ∧
  flatten_lenses (create_functional_mapping_from mapping h).2
    = flatten_lenses mapping.
Proof.
  cbn [create_functional_mapping_from snd]. split; [done|]. split; [|split].
  - induction mapping as [|[k l] m IH]; [done|]. cbn. by rewrite IH.
  - induction mapping as [|[k l] m IH]; [constructor|]. cbn [fmap list_fmap].
    constructor; [|exact IH]. cbn [snd]. split.
    + apply (Sorted_merge_sort String.le).
    + apply sorted_Permutation.
  - apply flatten_sorted.
Qed.

(** ** Synthesis generators *)

Lemma synthesis_outcome_run env prompt timeout w :
  synthesis_outcome env prompt timeout
    (try_except
       (let* response := model_generate_content env [PPrompt prompt] timeout in
        ret (Some response))
       (fun e => let* _ := show (ErrSynthesis e) in ret None)) w.
Proof.
  unfold synthesis_outcome, try_except. rewrite bind_generate.
  destruct (generate_content env (n_generate w)) as [e|text].
  - rewrite bind_show, run_ret. eexists. split; [reflexivity|]. by norm_trace.
  - rewrite run_ret. eexists. split; [reflexivity|]. by norm_trace.
Qed.

(** X9: each synthesis generator issues exactly one generation call, with
    its own prompt and timeout (600 seconds for the dialectical and the
    comparative synthesis, 900 for the symposium), and never raises: it
    returns the text of the call as it is, or shows the exception of the
    call and returns [None]. It uploads, reads and deletes nothing. *)
Theorem synthesis_generators_outcome env w
    (lens_a lens_b analysis_a analysis_b work_title work_b_title : string)
    (analyses_dict : list (string * string)) :
  synthesis_outcome env
    (DialecticalPrompt lens_a analysis_a lens_b analysis_b work_title) 600
    (generate_dialectical_synthesis env lens_a analysis_a lens_b analysis_b work_title)
    w ∧
  synthesis_outcome env (SymposiumPrompt analyses_dict work_title) 900
    (generate_symposium_synthesis env analyses_dict work_title) w ∧
  synthesis_outcome env
    (ComparativePrompt lens_a analysis_a work_title analysis_b work_b_title) 600
    (generate_comparative_synthesis env lens_a analysis_a work_title analysis_b
       work_b_title) w.
Proof. repeat split; apply synthesis_outcome_run. Qed.

(** ** Validation before the execution block *)

Lemma displays_ret {A} (P : A → Prop) (a : A) : P a → displays P (ret a).
Proof.
  intros Ha w. exists a, w, []. rewrite app_nil_r. by rewrite run_ret.
Qed.

Lemma displays_show m : displays (λ _, True) (show m).
Proof.
  intros w. exists tt, (shown m w), [m]. rewrite run_show, trace_shown, calls_shown.
  done.
Qed.

Lemma displays_bind {A B} (P : A → Prop) (Q : B → Prop) (m : M A) (k : A → M B) :
  displays P m → (∀ a, P a → displays Q (k a)) → displays Q (bind m k).
Proof.
  intros Hm Hk w. destruct (Hm w) as (a & w1 & msgs1 & Hrun & Ha & Ht & Hc).
  rewrite (bind_run _ _ _ _ _ Hrun).
  destruct (Hk a Ha w1) as (b & w2 & msgs2 & -> & Hb & Ht2 & Hc2).
  exists b, w2, (msgs1 ++ msgs2). split; [done|]. split; [done|].
  rewrite Ht2, Ht, Hc2, Hc, fmap_app, <- app_assoc. done.
Qed.

Lemma displays_show_ret {A} (P : A → Prop) m (a : A) :
  P a → displays P (let* _ := show m in ret a).
Proof.
  intros Ha. eapply displays_bind; [apply displays_show|].
  intros _ _. by apply displays_ret.
Qed.

Lemma displays_sidebar ui : displays (λ _, True) (sidebar ui).
Proof.
  unfold sidebar. destruct (analysis_mode ui); cbv zeta;
    repeat first
      [ by apply displays_ret
      | by apply displays_show_ret
      | case_decide
      | match goal with
        | |- displays _ (if ?b then _ else _) => destruct b
        | |- displays _ (match ?x with Some _ => _ | None => _ end) => destruct x
        end ].
Qed.

Lemma displays_get_model env key :
  displays (λ model, model = true → configure env key = None ∧ Py.truthy key = true)
           (get_model env key).
Proof.
  unfold get_model. destruct (Py.truthy key); cbn [negb].
  - destruct (configure env key).
    + by apply displays_show_ret.
    + by apply displays_ret.
  - by apply displays_ret.
Qed.

(** X10: a run of the script contacts no remote service, enters no call in
    the history and raises nothing (it only writes to the display layer)
    when the button is not pressed, when the API key is empty, when Work A
    is not ready, when Work B is not ready in comparative mode, or when the
    client cannot be configured with the key. *)
Theorem script_run_refuses env ui w :
  button ui = false ∨ Py.truthy (api_key ui) = false ∨
  is_ready (work_a ui) = false ∨
  (analysis_mode ui = A_COMPARATIVE ∧ is_ready (work_b ui) = false) ∨
  configure env (api_key ui) ≠ None →
  ∃ w' msgs, script_run env ui w = (Ok tt, w') ∧
             trace w' = trace w ++ (EShow <$> msgs) ∧ calls w' = calls w.
Proof.
  intros Hrefuse.
  cut (displays (λ _, True) (script_run env ui)).
  { intros H. destruct (H w) as ([] & w' & msgs & Hrun & _ & Ht & Hc). eauto. }
  unfold script_run.
  eapply displays_bind; [apply displays_sidebar|]. intros selection _.
  destruct (display_analysis_form (analysis_mode ui) selection);
    [|apply displays_show].
  destruct (button ui) eqn:Hbutton; [|by apply displays_ret].
  eapply (displays_bind (λ v, v = Py.truthy (api_key ui))).
  { destruct (Py.truthy (api_key ui)); cbn [negb];
      [by apply displays_ret|by apply displays_show_ret]. }
  intros valid1 ->.
  eapply (displays_bind (λ v, v = Py.truthy (api_key ui) && is_ready (work_a ui))).
  { destruct (is_ready (work_a ui)); cbn [negb].
    - apply displays_ret. by rewrite andb_true_r.
    - apply displays_show_ret. by rewrite andb_false_r. }
  intros valid2 ->.
  eapply (displays_bind
            (λ v, v = Py.truthy (api_key ui) && is_ready (work_a ui)
                      && negb (bool_decide (analysis_mode ui = A_COMPARATIVE)
                               && negb (is_ready (work_b ui))))).
  { destruct (bool_decide (analysis_mode ui = A_COMPARATIVE)
              && negb (is_ready (work_b ui))); cbn [negb].
    - apply displays_show_ret. by rewrite andb_false_r.
    - apply displays_ret. by rewrite andb_true_r. }
  intros is_valid Hvalid.
  destruct is_valid; [|by apply displays_ret].
  symmetry in Hvalid.
  apply andb_true_iff in Hvalid as [[Hkey Hready]%andb_true_iff Hb%negb_true_iff].
  eapply displays_bind; [apply displays_get_model|].
  intros model Hmodel. destruct model; [|by apply displays_ret].
  destruct (Hmodel eq_refl) as [Hconf _]. exfalso.
  destruct Hrefuse as [?|[?|[?|[[Hmode Hrb]|?]]]]; try congruence.
  rewrite Hrb, bool_decide_eq_true_2 in Hb by done. done.
Qed.

Lemma script_run_refuses_witness :
  let env := store (λ _, "ACTIVE") (λ _, None) (λ _, inr "analysis") in
  let ui := mkWidgets "" A_SINGLE VIEW_LIBRARY (Some "Philosophical") (Some "Taoist")
              None None None None [] [] text_work text_work true in
  ∃ w' msgs, script_run env ui w0 = (Ok tt, w') ∧
             trace w' = trace w0 ++ (EShow <$> msgs) ∧ calls w' = calls w0.
Proof.
  intros env ui. apply (script_run_refuses env ui w0).
  right. left. reflexivity.
Defined.

(** ** The symposium, lens by lens *)

Lemma dict_set_fresh (d : list (string * string)) key value :
  key ∉ d.*1 → dict_set d key value = d ++ [(key, value)].
Proof.
  induction d as [|[k v] d IH]; intros Hk; [done|].
  cbn [fmap list_fmap fst] in Hk.
  apply not_elem_of_cons in Hk as [Hne Hk].
  cbn [dict_set]. rewrite decide_False by done.
  cbn [app]. f_equal. by apply IH.
Qed.

Lemma symposium_loop_in_order env total_steps lenses work :
  ∀ i analyses_results w,
  ∃ final cont w' rs,
    symposium_loop env total_steps i lenses work analyses_results true w
      = (Ok (final, cont), w') ∧
    calls w' = calls w ++ zip_with (λ lens r, CAnalysis lens work r) lenses rs ∧
    length rs ≤ length lenses ∧
    (cont = true →
       Forall (λ r, Py.truthy_opt r = true) rs ∧ length rs = length lenses ∧
       (NoDup (analyses_results.*1 ++ lenses) →
        final = analyses_results ++ zip lenses (default "" <$> rs))) ∧
    (cont = false →
       ∃ rs0 r, rs = rs0 ++ [r] ∧ Py.truthy_opt r = false ∧
                Forall (λ r, Py.truthy_opt r = true) rs0).
Proof.
  induction lenses as [|lens_name lenses IH]; intros i acc w.
  - exists acc, true, w, []. cbn [symposium_loop zip_with]. rewrite run_ret, !app_nil_r.
    repeat split; try done.
  - cbn [symposium_loop negb]. rewrite bind_show.
    match goal with |- context [bind (call_analysis env lens_name work) _ ?w0] =>
      destruct (call_analysis_run env lens_name work w0)
        as (r & w1 & Hrun & Hc) end.
    rewrite (bind_run _ _ _ _ _ Hrun). rewrite calls_shown in Hc.
    destruct (Py.truthy_opt r) eqn:Hr.
    + destruct (IH (S i) (dict_set acc lens_name (default "" r)) w1)
        as (final & cont & w' & rs & -> & Hcs & Hlen & Hok & Hko).
      exists final, cont, w', (r :: rs).
      split; [done|]. cbn [zip_with length]. rewrite Hcs, Hc, <- app_assoc.
      split; [done|]. split; [lia|]. split.
      * intros Hcont. destruct (Hok Hcont) as (Hall & Hlen' & Hfinal).
        split; [by constructor|]. split; [lia|].
        intros Hnd.
        assert (Hfresh : lens_name ∉ acc.*1).
        { apply NoDup_app in Hnd as (_ & Hdisj & _). intros Hin.
          apply (Hdisj _ Hin). by left. }
        rewrite Hfinal; rewrite dict_set_fresh by done.
        -- by rewrite <- app_assoc.
        -- rewrite fmap_app, <- app_assoc. done.
      * intros Hcont. destruct (Hko Hcont) as (rs0 & r' & -> & Hr' & Hall).
        exists (r :: rs0), r'. split; [done|]. split; [done|]. by constructor.
    + rewrite bind_show.
      assert (Hstop : ∀ w2, symposium_loop env total_steps (S i) lenses work acc false w2
                            = (Ok (acc, false), w2)).
      { intros w2. by destruct lenses. }
      rewrite Hstop. exists acc, false. eexists _, [r].
      split; [reflexivity|]. rewrite calls_shown, Hc.
      split; [by destruct lenses|]. split; [cbn; lia|]. split; [done|].
      intros _. exists [], r. split; [done|]. split; [done|]. constructor.
Qed.

(** X11: a run of the symposium over lenses chosen once each analyses them
    in the order of the selection, one call per lens, with the same work.
    Either every analysis returns a text, and then the synthesis is called
    once, after them, with each lens paired with the text of its own
    analysis, in that order; or one analysis returns nothing, and then it is
    the last call: the lenses after it are not analysed and the synthesis is
    not called. *)
Theorem run_symposium_in_order env lenses work w :
  NoDup lenses →
  ∃ rs tail,
    calls (run_symposium env lenses work w).2 =
      calls w ++ zip_with (λ lens r, CAnalysis lens work r) lenses rs ++ tail ∧
    length rs ≤ length lenses ∧
    ((Forall (λ r, Py.truthy_opt r = true) rs ∧ length rs = length lenses ∧
      ∃ text, tail = [CSymposium (zip lenses (default "" <$> rs)) text]) ∨
     (tail = [] ∧
      ∃ rs0 r, rs = rs0 ++ [r] ∧ Py.truthy_opt r = false ∧
               Forall (λ r, Py.truthy_opt r = true) rs0)).
Proof.
  intros Hnd. unfold run_symposium. cbv zeta.
  destruct (symposium_loop_in_order env (length lenses + 1) lenses work 0 [] w)
    as (final & cont & w1 & rs & Hrun & Hcs & Hlen & Hok & Hko).
  rewrite (bind_run _ _ _ _ _ Hrun).
  destruct cont.
  - destruct (Hok eq_refl) as (Hall & Hlen' & Hfinal).
    rewrite (Hfinal Hnd). cbn [app].
    rewrite bind_show. unfold generate_symposium_synthesis.
    match goal with |- context [bind _ _ ?w0] =>
      destruct (synthesis_run env
                  (SymposiumPrompt (zip lenses (default "" <$> rs))
                     (get_display_title work))
                  900 w0) as (text & w3 & Hrun3 & Hc3) end.
    cbv zeta. rewrite (bind_run _ _ _ _ _ Hrun3). rewrite bind_record.
    rewrite calls_shown, Hcs in Hc3.
    exists rs, [CSymposium (zip lenses (default "" <$> rs)) text].
    split; [|split; [done|]].
    + destruct (Py.truthy_opt text); [rewrite run_show|rewrite run_ret];
        cbn [snd]; rewrite ?calls_shown, calls_recorded, Hc3, <- app_assoc; done.
    + left. split; [done|]. split; [done|]. by exists text.
  - rewrite run_ret. exists rs, []. rewrite app_nil_r. split; [done|].
    split; [done|]. right. split; [done|]. by apply Hko.
Qed.

Lemma run_symposium_in_order_witness :
  let env := store (λ _, "ACTIVE") (λ _, None) (λ _, inr "analysis") in
  NoDup ["Taoist"; "Stoicism"; "Absurdism"] ∧
  ∃ rs tail,
    calls (run_symposium env ["Taoist"; "Stoicism"; "Absurdism"] text_work w0).2 =
      calls w0 ++
      zip_with (λ lens r, CAnalysis lens text_work r)
               ["Taoist"; "Stoicism"; "Absurdism"] rs ++ tail.
Proof.
  intros env.
  assert (Hnd : NoDup ["Taoist"; "Stoicism"; "Absurdism"]).
  { apply (bool_decide_unpack _). by vm_compute. }
  split; [exact Hnd|].
  destruct (run_symposium_in_order env ["Taoist"; "Stoicism"; "Absurdism"]
              text_work w0 Hnd) as (rs & tail & Hcalls & _).
  exists rs, tail. exact Hcalls.
Defined.

(** ** Persona of a flattened lens key *)

Lemma contains_char_cons (ch c : ascii) (s : string) :
  Py.contains (String ch "") (String c s) = false →
  ch ≠ c ∧ Py.contains (String ch "") s = false.
Proof.
  cbn [Py.contains String.prefix].
  destruct (Ascii.ascii_dec ch c) as [->|Hne].
  - by destruct s.
  - rewrite orb_false_l. done.
Qed.

Lemma contains_char_app (ch : ascii) (a b : string) :
  Py.contains (String ch "") a = false → Py.contains (String ch "") b = false →
  Py.contains (String ch "") (a +:+ b) = false.
Proof.
  intros Ha Hb. induction a as [|c a IH]; [done|].
  apply contains_char_cons in Ha as [Hne Ha].
  change (String c a +:+ b) with (String c (a +:+ b)).
  cbn [Py.contains String.prefix].
  destruct (Ascii.ascii_dec ch c); [done|]. rewrite orb_false_l. by apply IH.
Qed.

Lemma contains_app_char (ch : ascii) (a b : string) :
  Py.contains (String ch "") (a +:+ String ch b) = true.
Proof.
  induction a as [|c a IH].
  - change ("" +:+ String ch b) with (String ch b).
    cbn [Py.contains String.prefix].
    destruct (Ascii.ascii_dec ch ch); [|done]. by destruct b.
  - change (String c a +:+ String ch b) with (String c (a +:+ String ch b)).
    cbn [Py.contains]. rewrite IH. apply orb_true_r.
Qed.

Lemma split_no_sep (sep : ascii) (s : string) :
  Py.contains (String sep "") s = false → Py.split sep s = [s].
Proof.
  induction s as [|c s IH]; [done|].
  intros [Hne Hs]%contains_char_cons. cbn [Py.split].
  rewrite (proj2 (Ascii.eqb_neq c sep)) by congruence.
  by rewrite IH.
Qed.

Lemma split_app_sep (sep : ascii) (a b : string) :
  Py.contains (String sep "") a = false →
  Py.split sep (a +:+ String sep b) = a :: Py.split sep b.
Proof.
  induction a as [|c a IH].
  - intros _. change ("" +:+ String sep b) with (String sep b).
    cbn [Py.split]. by rewrite Ascii.eqb_refl.
  - intros [Hne Ha]%contains_char_cons.
    change (String c a +:+ String sep b) with (String c (a +:+ String sep b)).
    cbn [Py.split]. rewrite (proj2 (Ascii.eqb_neq c sep)) by congruence.
    by rewrite IH.
Qed.

Lemma replace_closing_paren (s : string) :
  Py.contains ")" s = false → Py.replace ")" "" (s +:+ ")") = s.
Proof.
  unfold Py.replace. induction s as [|c s IH]; [done|].
  intros [Hne Hs]%contains_char_cons.
  change (String c s +:+ ")") with (String c (s +:+ ")")).
  cbn [Py.replace_from String.prefix].
  destruct (Ascii.ascii_dec ")" c); [done|]. by rewrite IH.
Qed.

Lemma append_assoc (a b c : string) : (a +:+ b) +:+ c = a +:+ (b +:+ c).
Proof.
  induction a as [|x a IH]; [done|].
  change (String x ((a +:+ b) +:+ c) = String x (a +:+ (b +:+ c))).
  by rewrite IH.
Qed.

Lemma core_term_composite (main_lens sub_lens : string) :
  Py.contains "(" main_lens = false →
  Py.contains "(" sub_lens = false →
  Py.contains ")" sub_lens = false →
  V5.core_term (Nested.composite main_lens sub_lens) = Some sub_lens.
Proof.
  intros Hmain Hsub Hclose. unfold V5.core_term, Nested.composite.
  assert (Hkey : main_lens +:+ " (" +:+ sub_lens +:+ ")"
                 = (main_lens +:+ " ") +:+ String "(" (sub_lens +:+ ")")).
  { by rewrite append_assoc. }
  rewrite Hkey, contains_app_char.
  rewrite split_app_sep by (by apply contains_char_app).
  rewrite split_no_sep by (by apply contains_char_app).
  cbn [lookup list_lookup fmap option_fmap option_map].
  by rewrite replace_closing_paren.
Qed.

(** X12: the persona of a flattened key. For a key ["main (sub)"] built by
    the flattener from a category and a sub-lens, where neither name has an
    opening parenthesis and the sub-lens has no closing one, the persona
    namer of either revision returns the title of the sub-lens alone: the
    category does not enter the persona. *)
Theorem create_persona_name_composite (main_lens sub_lens : string) :
  Py.contains "(" main_lens = false →
  Py.contains "(" sub_lens = false →
  Py.contains ")" sub_lens = false →
  V5.create_persona_name (Nested.composite main_lens sub_lens)
    = Some (V5.persona_title sub_lens) ∧
  V3.create_persona_name (Nested.composite main_lens sub_lens)
    = Some (V3.persona_title sub_lens).
Proof.
  intros Hmain Hsub Hclose.
  unfold V5.create_persona_name, V3.create_persona_name.
  by rewrite core_term_composite.
Qed.

Lemma create_persona_name_composite_witness :
  V5.create_persona_name (Nested.composite "Socio-Political" "Queer Theory")
    = Some "The Queer Theorist" ∧
  V3.create_persona_name (Nested.composite "Socio-Political" "Queer Theory")
    = Some "The Queer Theorist".
Proof.
  apply (create_persona_name_composite "Socio-Political" "Queer Theory");
    reflexivity.
Defined.

(** ** Direct mode (TheJanusEngineV5.py) *)

Lemma quiet_ok_direct_upload_to_gemini env work :
  quiet_ok (Direct.upload_to_gemini env work).
Proof.
  intros w.
  destruct (quiet_ok_upload_to_gemini env work w) as (r & w' & Hrun & Hc).
  unfold upload_to_gemini in Hrun. unfold Direct.upload_to_gemini.
  destruct (uploaded_file_obj work) as [obj|]; [|by eexists _, _].
  destruct (negb (Py.truthy_opt (resolve_mime_type env obj))); [by eexists _, _|].
  unfold try_except in *. cbv zeta in *.
  match type of Hrun with
  | match ?body with _ => _ end = _ =>
      change (match body with
              | (Raise e, w1) =>
                  match e with
                  | TimeoutError _ => (let* _ := show ErrUploadTimedOut in ret None) w1
                  | _ => (let* _ := show (ErrUploadException e) in ret None) w1
                  end
              | r => r
              end = (Ok r, w')) in Hrun || idtac;
      destruct body as [[a|e|] w1]
  end.
  - injection Hrun as <- <-. by eexists _, _.
  - destruct e; rewrite ?bind_show, ?run_ret in Hrun |- *;
      injection Hrun as <- <-; eexists _, _; (split; [reflexivity|]);
      rewrite ?calls_shown in Hc |- *; exact Hc.
  - done.
Qed.

Lemma quiet_ok_direct_analysis_failed e : quiet_ok (Direct.analysis_failed e).
Proof.
  unfold Direct.analysis_failed.
  repeat (apply quiet_ok_bind; [try apply quiet_ok_show|intros ?]);
    try apply quiet_ok_ret.
  destruct e as [| | | |msg [resp|]]; try apply quiet_ok_ret.
  destruct (Py.truthy_opt (prompt_feedback resp));
    [apply quiet_ok_show|apply quiet_ok_ret].
Qed.

Lemma quiet_ok_direct_generate_analysis env FLATTENED_LENSES prompt_key work :
  is_Some (FLATTENED_LENSES !! prompt_key) →
  quiet_ok (Direct.generate_analysis env FLATTENED_LENSES prompt_key work).
Proof.
  intros [base_prompt Hkey]. unfold Direct.generate_analysis. rewrite Hkey.
  apply quiet_ok_try_except_finally.
  - destruct (modality work);
      [apply quiet_ok_ret|apply quiet_ok_direct_upload_to_gemini..].
  - intros gemini_file. destruct (_ && _).
    + apply quiet_ok_quiet, quiet_ok_bind; [apply quiet_ok_show|].
      intros _. apply quiet_ok_ret.
    + repeat first
        [ apply quiet_bind; [|intros ?]
        | apply quiet_generate
        | apply quiet_ok_quiet, quiet_ok_show
        | apply quiet_ok_quiet, quiet_ok_ret ].
  - apply quiet_ok_direct_analysis_failed.
  - apply quiet_ok_cleanup_file.
Qed.

(** X13: the direct-mode generator reads the prompt of the lens key before
    its [try] block. For a key the index lacks it raises [KeyError] to its
    caller, having shown nothing and called nothing; for a key of the index
    it raises nothing, whatever the services answer: it returns a text or
    [None]. *)
Theorem direct_generate_analysis_key env (FLATTENED_LENSES : gmap string string)
    prompt_key work w :
  (FLATTENED_LENSES !! prompt_key = None →
   Direct.generate_analysis env FLATTENED_LENSES prompt_key work w
     = (Raise (KeyError prompt_key), w)) ∧
  (is_Some (FLATTENED_LENSES !! prompt_key) →
   ∃ r w', Direct.generate_analysis env FLATTENED_LENSES prompt_key work w
             = (Ok r, w') ∧ calls w' = calls w).
Proof.
  split.
  - intros Hkey. unfold Direct.generate_analysis. by rewrite Hkey.
  - intros Hkey. by apply quiet_ok_direct_generate_analysis.
Qed.

Lemma direct_generate_analysis_key_witness :
  Direct.generate_analysis two_polls {["Taoist" := "Read the work as a Taoist."]}
    "Stoicism" text_work w0 = (Raise (KeyError "Stoicism"), w0) ∧
  ∃ r w', Direct.generate_analysis two_polls {["Taoist" := "Read the work as a Taoist."]}
            "Taoist" text_work w0 = (Ok r, w') ∧ calls w' = calls w0.
Proof.
  split.
  - apply (direct_generate_analysis_key two_polls
             {["Taoist" := "Read the work as a Taoist."]} "Stoicism" text_work w0).
    by vm_compute.
  - apply (direct_generate_analysis_key two_polls
             {["Taoist" := "Read the work as a Taoist."]} "Taoist" text_work w0).
    eexists. vm_compute. reflexivity.
Defined.

(** ** Lens selection of TheJanusEngineV5.py *)

Lemma nested_get_elem_of lenses main_lens details :
  NestedSidebar.get lenses main_lens = Some details → (main_lens, details) ∈ lenses.
Proof.
  induction lenses as [|[k d] lenses IH]; [done|]. cbn [NestedSidebar.get].
  case_decide as Hk.
  - intros [= ->]. subst. by left.
  - intros Hget. right. by apply IH.
Qed.

Lemma elem_of_leaf_keys lenses key :
  key ∈ Nested.leaf_keys lenses ↔
  ∃ main_lens details, (main_lens, details) ∈ lenses ∧
    match Nested.sub_lenses details with
    | Some subs => ∃ sub_lens, sub_lens ∈ subs.*1 ∧
                               key = Nested.composite main_lens sub_lens
    | None => is_Some (Nested.prompt details) ∧ key = main_lens
    end.
Proof.
  unfold Nested.leaf_keys. rewrite list_elem_of_bind. split.
  - intros ([main d] & Hkey & Hin). exists main, d. split; [done|].
    destruct (Nested.sub_lenses d) as [subs|].
    + apply list_elem_of_fmap in Hkey as ([sub p] & -> & Hsub).
      exists sub. split; [|done]. apply list_elem_of_fmap. by exists (sub, p).
    + destruct (Nested.prompt d); [|by apply elem_of_nil in Hkey].
      apply list_elem_of_singleton in Hkey. by split.
  - intros (main & d & Hin & Hkey). exists (main, d). split; [|done].
    destruct (Nested.sub_lenses d) as [subs|].
    + destruct Hkey as (sub & Hsub & ->).
      apply list_elem_of_fmap in Hsub as ([sub' p] & -> & Hsub).
      apply list_elem_of_fmap. by exists (sub', p).
    + destruct Hkey as [[p ->] ->]. by apply list_elem_of_singleton.
Qed.

(** X14: the key that the sidebar stores in the single and comparative
    modes is a key of the flattened index. In a catalog where a category
    without sub-lenses has a prompt, and with the sub-lens select box
    returning one of the sub-lenses of the chosen category, a stored key is
    one of the sorted lens names, so the direct-mode generator finds its
    prompt and does not raise. *)
Theorem nested_selection_is_key (dedent : string → string) env lenses
    (main_lens sub_lens : option string) (key : string) work w :
  (∀ main details, (main, details) ∈ lenses →
     Nested.sub_lenses details = None → is_Some (Nested.prompt details)) →
  (∀ main details subs sub,
     main_lens = Some main → NestedSidebar.get lenses main = Some details →
     Nested.sub_lenses details = Some subs → sub_lens = Some sub →
     Py.truthy sub = true → sub ∈ subs.*1) →
  NestedSidebar.selection lenses main_lens sub_lens = inr (Some key) →
  key ∈ Nested.sorted_lens_names dedent lenses ∧
  is_Some (Nested.flatten_lenses dedent lenses !! key) ∧
  ∃ r w', Direct.generate_analysis env (Nested.flatten_lenses dedent lenses)
            key work w = (Ok r, w').
Proof.
  intros Hcatalog Hbox Hsel.
  assert (Hleaf : key ∈ Nested.leaf_keys lenses).
  { unfold NestedSidebar.selection in Hsel.
    destruct main_lens as [main|]; [|done].
    destruct (Py.truthy main); [|done].
    destruct (NestedSidebar.get lenses main) as [details|] eqn:Hget; [|done].
    apply nested_get_elem_of in Hget as Hin.
    apply elem_of_leaf_keys. exists main, details. split; [done|].
    destruct (Nested.sub_lenses details) as [subs|] eqn:Hsubs.
    - destruct sub_lens as [sub|]; [|done]. cbn [Py.truthy_opt] in Hsel.
      destruct (Py.truthy sub) eqn:Hsub; [|done].
      injection Hsel as <-. exists sub. split; [|done].
      by eapply Hbox.
    - injection Hsel as <-. split; [|done]. by eapply Hcatalog. }
  assert (Hdom : key ∈ dom (Nested.flatten_lenses dedent lenses)).
  { rewrite nested_flatten_dom. by apply elem_of_list_to_set. }
  split; [|split].
  - unfold Nested.sorted_lens_names. by rewrite sorted_Permutation, elem_of_elements.
  - by apply elem_of_dom.
  - apply elem_of_dom in Hdom.
    destruct (quiet_ok_direct_generate_analysis env _ key work Hdom w)
      as (r & w' & Hrun & _). eauto.
Qed.

Lemma nested_selection_is_key_witness :
  let lenses :=
    [("Psychological",
      Nested.mkDetails (Some "The mind") None
        (Some [("Jungian", "Read the archetypes."); ("Freudian", "Read the drives.")]));
     ("Formalist", Nested.mkDetails None (Some "Read the form.") None)] in
  "Psychological (Freudian)" ∈ Nested.sorted_lens_names (λ s, s) lenses ∧
  ∃ r w', Direct.generate_analysis two_polls (Nested.flatten_lenses (λ s, s) lenses)
            "Psychological (Freudian)" text_work w0 = (Ok r, w').
Proof.
  intros lenses.
  destruct (nested_selection_is_key (λ s, s) two_polls lenses
              (Some "Psychological") (Some "Freudian") "Psychological (Freudian)"
              text_work w0) as (Hsorted & _ & Hrun).
  - intros main details Hin Hsubs.
    apply elem_of_cons in Hin as [[= -> ->]|Hin]; [done|].
    apply list_elem_of_singleton in Hin as [= -> ->]. by eexists.
  - intros main details subs sub [= <-] [= <-] [= <-] [= <-] _.
    apply (bool_decide_unpack _). by vm_compute.
  - reflexivity.
  - split; [exact Hsorted|exact Hrun].
Defined.

(** ** Input form *)

(** X15: the work that the input form leaves is ready exactly when the
    widget of its modality holds something: a text that is not empty, an
    image whose preview could be drawn, or an audio file. For a text work
    the text is stored as it was typed, and a media work that is ready holds
    the uploaded file, so that the uploader finds a file object. *)
Theorem handle_input_ui_ready (ui : InputWidgets) :
  is_ready (handle_input_ui ui) =
    match iw_modality ui with
    | M_TEXT => Py.truthy (iw_text ui)
    | M_IMAGE => bool_decide (is_Some (iw_image ui)) && iw_preview_ok ui
    | M_AUDIO => bool_decide (is_Some (iw_audio ui))
    end ∧
  modality (handle_input_ui ui) = iw_modality ui ∧
  title (handle_input_ui ui) = iw_title ui ∧
  (is_ready (handle_input_ui ui) = true →
   match iw_modality ui with
   | M_TEXT => data (handle_input_ui ui) = Some (iw_text ui)
   | M_IMAGE => uploaded_file_obj (handle_input_ui ui) = iw_image ui
   | M_AUDIO => uploaded_file_obj (handle_input_ui ui) = iw_audio ui
   end).
Proof.
  unfold handle_input_ui, is_ready. destruct ui as [t m txt img aud ok].
  cbn [iw_title iw_modality iw_text iw_image iw_audio iw_preview_ok
       modality title data uploaded_file_obj].
  destruct m; cbn [modality title data uploaded_file_obj].
  - destruct txt as [|c txt]; by cbn.
  - destruct img as [f|]; [destruct ok|]; by cbn.
  - destruct aud as [f|]; by cbn.
Qed.

(** ** What the synthesis receives *)

Lemma call_analysis_trace env lens_keyword work w :
  ∃ r w' tail, call_analysis env lens_keyword work w = (Ok r, w') ∧
               calls w' = calls w ++ [CAnalysis lens_keyword work r] ∧
               trace w' = trace w ++ tail.
Proof.
  unfold call_analysis.
  destruct (generate_analysis_events env lens_keyword work w)
    as (r & w1 & tail & Hrun & Ht & Hc & _).
  rewrite (bind_run _ _ _ _ _ Hrun), bind_record, run_ret.
  exists r. eexists _, tail. split; [reflexivity|].
  by rewrite calls_recorded, trace_recorded, Hc, Ht.
Qed.

Lemma truthy_opt_some (r : option string) :
  Py.truthy_opt r = true → ∃ text, r = Some text ∧ text ≠ "".
Proof. destruct r as [[|c s]|]; try done. intros _. by eexists. Qed.

(** X16: what the dialectical and the comparative pipelines hand to their
    synthesis. The first analysis is always called; the second only when the
    first returned a text; the synthesis only when both did, once, and then
    its one generation call carries the prompt built from the two texts as
    they were returned, each paired with its own lens (dialectical) or its
    own work (comparative), in the order A, B. *)
Theorem synthesis_receives_both_analyses env a b lens_name work work_b w :
  (∃ cs tail,
     calls (run_dialectical env [a; b] work w).2 = calls w ++ cs ∧
     trace (run_dialectical env [a; b] work w).2 = trace w ++ tail ∧
     ((∃ ra, cs = [CAnalysis a work ra] ∧ Py.truthy_opt ra = false) ∨
      (∃ ta rb, cs = [CAnalysis a work (Some ta); CAnalysis b work rb] ∧
                ta ≠ "" ∧ Py.truthy_opt rb = false) ∨
      (∃ ta tb text,
         cs = [CAnalysis a work (Some ta); CAnalysis b work (Some tb);
               CDialectical a b text] ∧
         ta ≠ "" ∧ tb ≠ "" ∧
         EGenerateContent
           [PPrompt (DialecticalPrompt a ta b tb (get_display_title work))] 600
         ∈ tail))) ∧
  (∃ cs tail,
     calls (run_comparative env lens_name work work_b w).2 = calls w ++ cs ∧
     trace (run_comparative env lens_name work work_b w).2 = trace w ++ tail ∧
     ((∃ ra, cs = [CAnalysis lens_name work ra] ∧ Py.truthy_opt ra = false) ∨
      (∃ ta rb, cs = [CAnalysis lens_name work (Some ta);
                      CAnalysis lens_name work_b rb] ∧
                ta ≠ "" ∧ Py.truthy_opt rb = false) ∨
      (∃ ta tb text,
         cs = [CAnalysis lens_name work (Some ta); CAnalysis lens_name work_b (Some tb);
               CComparative lens_name text] ∧
         ta ≠ "" ∧ tb ≠ "" ∧
         EGenerateContent
           [PPrompt (ComparativePrompt lens_name ta (get_display_title work)
                       tb (get_display_title work_b))] 600
         ∈ tail))).
Proof.
  split.
  - unfold run_dialectical, index. cbn [lookup list_lookup]. rewrite !bind_ret.
    rewrite bind_show.
    match goal with |- context [bind (call_analysis env a work) _ ?w0] =>
      destruct (call_analysis_trace env a work w0)
        as (ra & w1 & t1 & Hrun1 & Hc1 & Ht1) end.
    rewrite (bind_run _ _ _ _ _ Hrun1). rewrite calls_shown in Hc1.
    rewrite trace_shown in Ht1.
    destruct (Py.truthy_opt ra) eqn:Hra; cbn [andb].
    + apply truthy_opt_some in Hra as (ta & -> & Hta).
      rewrite bind_bind, bind_show.
      match goal with |- context [bind (call_analysis env b work) _ ?w0] =>
        destruct (call_analysis_trace env b work w0)
          as (rb & w2 & t2 & Hrun2 & Hc2 & Ht2) end.
      rewrite (bind_run _ _ _ _ _ Hrun2). rewrite calls_shown, Hc1 in Hc2.
      rewrite trace_shown, Ht1 in Ht2.
      destruct (Py.truthy_opt rb) eqn:Hrb.
      * apply truthy_opt_some in Hrb as (tb & -> & Htb).
        rewrite bind_show. cbn [default].
        match goal with |- context [bind _ _ ?w0] =>
          destruct (synthesis_outcome_run env
                      (DialecticalPrompt a ta b tb (get_display_title work)) 600 w0)
            as (w3 & Hrun3 & Ht3 & Hc3) end.
        unfold generate_dialectical_synthesis. cbv zeta.
        rewrite (bind_run _ _ _ _ _ Hrun3). rewrite bind_record.
        rewrite calls_shown, Hc2 in Hc3. rewrite trace_shown, Ht2 in Ht3.
        destruct (Py.truthy_opt _); [rewrite run_show|rewrite run_ret];
          cbn [snd];
          rewrite ?calls_shown, ?trace_shown, calls_recorded, trace_recorded,
            Hc3, Ht3, <- !app_assoc;
          (eexists [_; _; _], _; split; [done|]; split; [reflexivity|];
           right; right; eexists ta, tb, _; split; [reflexivity|];
           split; [done|]; split; [done|];
           rewrite !elem_of_app, !elem_of_cons; tauto).
      * rewrite run_show. cbn [snd].
        eexists [_; _], _. rewrite calls_shown, trace_shown, Hc2, Ht2, <- !app_assoc.
        split; [done|]. split; [reflexivity|].
        right; left. by exists ta, rb.
    + rewrite bind_ret. cbn [Py.truthy_opt andb]. rewrite run_show. cbn [snd].
      eexists [_], _. rewrite calls_shown, trace_shown, Hc1, Ht1, <- !app_assoc.
      split; [done|]. split; [reflexivity|]. left. by exists ra.
  - unfold run_comparative. rewrite bind_show.
    match goal with |- context [bind (call_analysis env lens_name work) _ ?w0] =>
      destruct (call_analysis_trace env lens_name work w0)
        as (ra & w1 & t1 & Hrun1 & Hc1 & Ht1) end.
    rewrite (bind_run _ _ _ _ _ Hrun1). rewrite calls_shown in Hc1.
    rewrite trace_shown in Ht1.
    destruct (Py.truthy_opt ra) eqn:Hra; cbn [andb].
    + apply truthy_opt_some in Hra as (ta & -> & Hta).
      rewrite bind_bind, bind_show.
      match goal with |- context [bind (call_analysis env lens_name work_b) _ ?w0] =>
        destruct (call_analysis_trace env lens_name work_b w0)
          as (rb & w2 & t2 & Hrun2 & Hc2 & Ht2) end.
      rewrite (bind_run _ _ _ _ _ Hrun2). rewrite calls_shown, Hc1 in Hc2.
      rewrite trace_shown, Ht1 in Ht2.
      destruct (Py.truthy_opt rb) eqn:Hrb.
      * apply truthy_opt_some in Hrb as (tb & -> & Htb).
        rewrite bind_show. cbn [default].
        match goal with |- context [bind _ _ ?w0] =>
          destruct (synthesis_outcome_run env
                      (ComparativePrompt lens_name ta (get_display_title work)
                         tb (get_display_title work_b)) 600 w0)
            as (w3 & Hrun3 & Ht3 & Hc3) end.
        unfold generate_comparative_synthesis. cbv zeta.
        rewrite (bind_run _ _ _ _ _ Hrun3). rewrite bind_record.
        rewrite calls_shown, Hc2 in Hc3. rewrite trace_shown, Ht2 in Ht3.
        destruct (Py.truthy_opt _); [rewrite run_show|rewrite run_ret];
          cbn [snd];
          rewrite ?calls_shown, ?trace_shown, calls_recorded, trace_recorded,
            Hc3, Ht3, <- !app_assoc;
          (eexists [_; _; _], _; split; [done|]; split; [reflexivity|];
           right; right; eexists ta, tb, _; split; [reflexivity|];
           split; [done|]; split; [done|];
           rewrite !elem_of_app, !elem_of_cons; tauto).
      * rewrite run_show. cbn [snd].
        eexists [_; _], _. rewrite calls_shown, trace_shown, Hc2, Ht2, <- !app_assoc.
        split; [done|]. split; [reflexivity|].
        right; left. by exists ta, rb.
    + rewrite bind_ret. cbn [Py.truthy_opt andb]. rewrite run_show. cbn [snd].
      eexists [_], _. rewrite calls_shown, trace_shown, Hc1, Ht1, <- !app_assoc.
      split; [done|]. split; [reflexivity|]. left. by exists ra.
Qed.
